(** * Needpedia greeter: thread synchronisation and stream reconciliation

    A shallow embedding of the chat component of the repository
    (thread synchroniser, stream reconciler, token meter, thread switching
    and the pass-through stream transform of [sendMessage]) and the
    properties its specification states about them, followed by further
    properties of the same code and of what it calls: [createNewThread],
    the tool handler of the function-calling page, the handler of the
    end of a response stream and [fetchThreadMessages].

    Conventions of the embedding.
    - A JavaScript string is the [string] of its UTF-8 bytes.
    - [localStorage] holds the values whose JSON text the source stores;
      [JSON.stringify] followed by [JSON.parse] is the identity on them.
    - An [async] function runs to completion with no other event in
      between; what it starts without awaiting ([sendMessage],
      [syncThreadWithBackend]) is recorded in the trace of effects.
    - A thrown exception is the outcome [Threw]; [try]/[catch]/[finally]
      are combinators of the monad [M].
    - A handler of the component reads the state of the render that made
      it ([render]); updater functions get the latest state.  After a
      handler, [commit] runs the [useEffect]s whose dependencies were
      set. *)

From Stdlib Require Import String Ascii List ZArith Lia Bool Sorted.
From stdpp Require Import base strings list gmap.

Local Open Scope Z_scope.
Local Open Scope nat_scope.

(** ** JavaScript string operations used by the component *)

Module JsString.

(** [s.startsWith(p)], returning what follows the prefix. *)
Fixpoint strip_prefix (p s : string) : option string :=
  match p with
  | EmptyString => Some s
  | String a p' =>
      match s with
      | String b s' => if Ascii.eqb a b then strip_prefix p' s' else None
      | EmptyString => None
      end
  end.

Definition bytes (l : list nat) : string :=
  fold_right (fun n s => String (ascii_of_nat n) s) EmptyString l.

(** ECMAScript WhiteSpace and LineTerminator code points, each as its
    UTF-8 encoding: TAB, LF, VT, FF, CR, SP, U+00A0, U+1680,
    U+2000..U+200A, U+2028, U+2029, U+202F, U+205F, U+3000, U+FEFF. *)
Definition white_space : list string :=
  Eval cbv in
    map bytes
      [ [9]; [10]; [11]; [12]; [13]; [32]; [194; 160]; [225; 154; 128];
        [226; 128; 128]; [226; 128; 129]; [226; 128; 130]; [226; 128; 131];
        [226; 128; 132]; [226; 128; 133]; [226; 128; 134]; [226; 128; 135];
        [226; 128; 136]; [226; 128; 137]; [226; 128; 138];
        [226; 128; 168]; [226; 128; 169]; [226; 128; 175];
        [226; 129; 159]; [227; 128; 128]; [239; 187; 191] ].

(** Removes one leading token of [toks], if there is one. *)
Fixpoint strip_first (toks : list string) (s : string) : option string :=
  match toks with
  | [] => None
  | t :: ts =>
      match strip_prefix t s with
      | Some r => Some r
      | None => strip_first ts s
      end
  end.

Fixpoint strip_all (toks : list string) (fuel : nat) (s : string) : string :=
  match fuel with
  | 0 => s
  | S fuel' =>
      match strip_first toks s with
      | Some r => strip_all toks fuel' r
      | None => s
      end
  end.

Definition trimStart (s : string) : string :=
  strip_all white_space (String.length s) s.

Definition trimEnd (s : string) : string :=
  String.rev
    (strip_all (map String.rev white_space) (String.length s) (String.rev s)).

(** [String.prototype.trim]. *)
Definition trim (s : string) : string := trimEnd (trimStart s).

(** A string made of white space and line terminators only. *)
Inductive WhiteSpaceOnly : string -> Prop :=
| wso_empty : WhiteSpaceOnly EmptyString
| wso_token t s :
    In t white_space -> WhiteSpaceOnly s -> WhiteSpaceOnly (t +:+ s).

(** [s.includes(pat)] *)
Fixpoint includes (pat s : string) : bool :=
  match strip_prefix pat s with
  | Some _ => true
  | None =>
      match s with
      | EmptyString => false
      | String _ s' => includes pat s'
      end
  end.

(** JavaScript truthiness of a string. *)
Definition truthy (s : string) : bool :=
  match s with EmptyString => false | String _ _ => true end.

(** GetSubstitution for a string pattern (no capture groups): [$$], [$&],
    [$`] and [$'] are expanded, every other [$] is literal. *)
Fixpoint getSubstitution (matched before after template : string) : string :=
  match template with
  | EmptyString => EmptyString
  | String c rest =>
      if Ascii.eqb c "$" then
        match rest with
        | String d rest' =>
            if Ascii.eqb d "$" then
              String "$" (getSubstitution matched before after rest')
            else if Ascii.eqb d "&" then
              matched +:+ getSubstitution matched before after rest'
            else if Ascii.eqb d "`" then
              before +:+ getSubstitution matched before after rest'
            else if Ascii.eqb d "'" then
              after +:+ getSubstitution matched before after rest'
            else String c (getSubstitution matched before after rest)
        | EmptyString => String c EmptyString
        end
      else String c (getSubstitution matched before after rest)
  end.

(** [replaceAll] with a non-empty pattern: the occurrences are found left
    to right and do not overlap.  [before] is the text already passed,
    [skip] the number of bytes of a match still to be dropped. *)
Fixpoint replace_from (pat repl before : string) (skip : nat) (s : string)
  : string :=
  match s with
  | EmptyString => EmptyString
  | String c s' =>
      match skip with
      | S k => replace_from pat repl (before +:+ String c EmptyString) k s'
      | 0 =>
          match strip_prefix pat s with
          | Some after =>
              getSubstitution pat before after repl
              +:+ replace_from pat repl (before +:+ String c EmptyString)
                    (String.length pat - 1) s'
          | None =>
              String c
                (replace_from pat repl (before +:+ String c EmptyString) 0 s')
          end
      end
  end.

(** [replaceAll] with the empty pattern: a match at every position,
    the end included.  The positions are those between bytes, which are
    the positions between UTF-16 code units for ASCII text only. *)
Fixpoint replace_empty (repl before : string) (s : string) : string :=
  getSubstitution EmptyString before s repl
  +:+ match s with
      | EmptyString => EmptyString
      | String c s' =>
          String c (replace_empty repl (before +:+ String c EmptyString) s')
      end.

(** [s.replaceAll(pat, repl)] for string [pat] and [repl]. *)
Definition replaceAll (s pat repl : string) : string :=
  match pat with
  | EmptyString => replace_empty repl EmptyString s
  | String _ _ => replace_from pat repl EmptyString 0 s
  end.

End JsString.

(** ** Effects: state, a trace of effects, and JavaScript exceptions *)

Module Eff.

Inductive Completion (A : Type) : Type :=
| Returned (a : A)
| Threw (error : string).
Arguments Returned {A} a.
Arguments Threw {A} error.

Record Outcome (S E A : Type) : Type := mkOutcome {
  completion : Completion A;
  final : S;
  trace : list E
}.
Arguments mkOutcome {S E A} _ _ _.
Arguments completion {S E A} _.
Arguments final {S E A} _.
Arguments trace {S E A} _.

Definition M (S E A : Type) : Type := S -> Outcome S E A.

Section Operations.
Context {S E : Type}.

Definition ret {A} (a : A) : M S E A :=
  fun s => mkOutcome (Returned a) s [].

Definition bind {A B} (m : M S E A) (k : A -> M S E B) : M S E B :=
  fun s =>
    match m s with
    | mkOutcome (Returned a) s1 t1 =>
        match k a s1 with
        | mkOutcome c s2 t2 => mkOutcome c s2 (t1 ++ t2)
        end
    | mkOutcome (Threw e) s1 t1 => mkOutcome (Threw e) s1 t1
    end.

Definition throw {A} (e : string) : M S E A :=
  fun s => mkOutcome (Threw e) s [].

Definition get : M S E S := fun s => mkOutcome (Returned s) s [].

Definition modify (f : S -> S) : M S E unit :=
  fun s => mkOutcome (Returned tt) (f s) [].

Definition emit (e : E) : M S E unit :=
  fun s => mkOutcome (Returned tt) s [e].

(** [try { m } catch (error) { h error }] *)
Definition try_catch {A} (m : M S E A) (h : string -> M S E A) : M S E A :=
  fun s =>
    match m s with
    | mkOutcome (Returned a) s1 t1 => mkOutcome (Returned a) s1 t1
    | mkOutcome (Threw e) s1 t1 =>
        match h e s1 with
        | mkOutcome c s2 t2 => mkOutcome c s2 (t1 ++ t2)
        end
    end.

(** [try { m } finally { f }] *)
Definition try_finally {A} (m : M S E A) (f : M S E unit) : M S E A :=
  fun s =>
    match m s with
    | mkOutcome c s1 t1 =>
        match f s1 with
        | mkOutcome (Returned _) s2 t2 => mkOutcome c s2 (t1 ++ t2)
        | mkOutcome (Threw e) s2 t2 => mkOutcome (Threw e) s2 (t1 ++ t2)
        end
    end.

(** A list of computations run one after the other. *)
Fixpoint for_each {A} (f : A -> M S E unit) (l : list A) : M S E unit :=
  match l with
  | [] => ret tt
  | x :: l' => bind (f x) (fun _ => for_each f l')
  end.
End Operations.

Module Notations.
Notation "x <- m ;; k" := (bind m (fun x => k))
  (at level 100, m at next level, right associativity).
Notation "m ;; k" := (bind m (fun _ => k))
  (at level 100, right associativity).
End Notations.

End Eff.

(** ** Data model *)

Inductive MessageRole : Type := user | assistant | code.

Module Message.
(** [{ role, text }], with the optional [isHTML] flag of one literal. *)
Record t : Type := mk {
  role : MessageRole;
  text : string;
  isHTML : option bool
}.
End Message.

Module Thread.
Record t : Type := mk {
  id : string;
  title : string;
  lastMessage : string;
  lastUpdated : string;
  messages : list Message.t
}.

(** [Partial<Thread>] *)
Record partial : Type := mkPartial {
  p_id : option string;
  p_title : option string;
  p_lastMessage : option string;
  p_lastUpdated : option string;
  p_messages : option (list Message.t)
}.

(** [{...thread, ...updates}] *)
Definition spread (thread : t) (updates : partial) : t :=
  {| id := default (id thread) (p_id updates);
     title := default (title thread) (p_title updates);
     lastMessage := default (lastMessage thread) (p_lastMessage updates);
     lastUpdated := default (lastUpdated thread) (p_lastUpdated updates);
     messages := default (messages thread) (p_messages updates) |}.
End Thread.

(** [array.includes(x)] on an array of strings. *)
Definition includes (l : list string) (x : string) : bool :=
  existsb (String.eqb x) l.

(** [threads.find(t => t.id === threadId)] *)
Definition find_thread (threadId : string) (l : list Thread.t)
  : option Thread.t :=
  List.find (fun t => String.eqb (Thread.id t) threadId) l.

(** What [fetch] resolves to; a rejected [fetch] is [None]. *)
Module Http.
Record Response (A : Type) : Type := mkResponse {
  ok : bool;
  json : option A  (* [None]: [response.json()] rejects *)
}.
Arguments mkResponse {A} _ _.
Arguments ok {A} _.
Arguments json {A} _.
End Http.

(** ** Thread synchroniser *)

Module Sync.
Import Eff Eff.Notations.

(** [interface BackendResponse] *)
Record BackendResponse : Type := mkBackendResponse { threads : list string }.

(** The browser's storage cell under ['cached_thread_ids'];
    [NoWindow] is [typeof window === 'undefined']. *)
Inductive Window : Type :=
| NoWindow
| Browser (cached_thread_ids : option (list string)).

(** The collaborators the synchroniser talks to. *)
Record Backend : Type := mkBackend {
  GET_chat_threads : string -> option (Http.Response BackendResponse);
  visitorId : option string;  (* [None]: FingerprintJS fails *)
  POST_chat_threads :
    string -> string -> string -> option (Http.Response unit)
}.

Inductive Effect : Type :=
| HttpGetThreads (authorization : string)
| HttpPostThread (authorization thread_id fingerprint : string)
| ConsoleError (message : string).

Definition Task : Type -> Type := M Window Effect.

Definition getThreadsFromLocalStorage : Task (list string) :=
  w <- get ;;
  match w with
  | NoWindow => ret []
  | Browser storedThreads =>
      match storedThreads with
      | Some l => ret l
      | None => ret []
      end
  end.

Definition saveThreadsToLocalStorage (threads : list string) : Task unit :=
  w <- get ;;
  match w with
  | NoWindow => ret tt
  | Browser _ => modify (fun _ => Browser (Some threads))
  end.

Definition fetchThreadsFromBackend (backend : Backend) (userToken : string)
  : Task BackendResponse :=
  try_catch
    (emit (HttpGetThreads userToken) ;;
     match GET_chat_threads backend userToken with
     | None => throw "TypeError: Failed to fetch"
     | Some response =>
         if negb (Http.ok response) then throw "Failed to fetch threads"
         else
           match Http.json response with
           | None => throw "SyntaxError"
           | Some data =>
               saveThreadsToLocalStorage (threads data) ;;
               ret data
           end
     end)
    (fun error =>
       emit (ConsoleError "Error fetching threads:") ;;
       ret {| threads := [] |}).

Definition syncThreadWithBackend (backend : Backend)
    (thread : Thread.t) (userToken : string) : Task unit :=
  try_catch
    (cachedThreads <- getThreadsFromLocalStorage ;;
     threadExists <-
       (if includes cachedThreads (Thread.id thread) then ret true
        else
          backendResponse <- fetchThreadsFromBackend backend userToken ;;
          ret (includes (threads backendResponse) (Thread.id thread))) ;;
     if (threadExists : bool) then ret tt
     else
       match visitorId backend with
       | None => throw "FingerprintJS"
       | Some fingerprint =>
           emit (HttpPostThread userToken (Thread.id thread) fingerprint) ;;
           match
             POST_chat_threads backend userToken (Thread.id thread) fingerprint
           with
           | None => throw "TypeError: Failed to fetch"
           | Some response =>
               if negb (Http.ok response)
               then throw "Failed to sync thread with backend"
               else saveThreadsToLocalStorage
                      (cachedThreads ++ [Thread.id thread])
           end
       end)
    (fun error => emit (ConsoleError "Error syncing thread with backend:")).

Definition is_post (e : Effect) : bool :=
  match e with HttpPostThread _ _ _ => true | _ => false end.

End Sync.

(** ** The chat component *)

(** [annotation] of a text delta. *)
Module Annotation.
Record FilePath : Type := mkFilePath { file_id : string }.
Record t : Type := mk {
  type : string;
  text : string;
  file_path : option FilePath
}.
End Annotation.

(** [delta: { value?: string; annotations?: any[] }] *)
Module TextDelta.
Record t : Type := mk {
  value : option string;
  annotations : option (list Annotation.t)
}.
End TextDelta.

(** The tool call (or its delta) of a run step, as far as it is read. *)
Module StepToolCall.
Record CodeInterpreter : Type := mkCodeInterpreter { input : option string }.
Record t : Type := mk {
  type : string;
  code_interpreter : option CodeInterpreter
}.
End StepToolCall.

(** [RequiredActionFunctionToolCall] *)
Module ToolCall.
Record t : Type := mk {
  id : string;
  name : string;
  arguments : string
}.
End ToolCall.

(** [{output: result, tool_call_id: toolCall.id}]; the handler of the
    function-calling page may resolve to [undefined]. *)
Record ToolCallOutput : Type := mkToolCallOutput {
  output : option string;
  tool_call_id : string
}.

(** [AssistantStreamEvent.ThreadRunRequiresAction], as far as it is read:
    [event.data.id] and
    [event.data.required_action.submit_tool_outputs.tool_calls]. *)
Record RequiresActionEvent : Type := mkRequiresActionEvent {
  data_id : string;
  tool_calls : list ToolCall.t
}.

(** The events [handleReadableStream] subscribes to. *)
Module StreamEvent.
Inductive t : Type :=
| textCreated
| textDelta (delta : TextDelta.t)
| imageFileDone (file_id : string)
| toolCallCreated (toolCall : StepToolCall.t)
| toolCallDelta (delta : StepToolCall.t)
| requires_action (event : RequiresActionEvent)
| completed.
End StreamEvent.

Module Chat.
Import Eff Eff.Notations.

(** The [useState] cells of [Chat] that the modelled handlers read or
    write. *)
Record ChatState : Type := mkState {
  tokens : Z;
  userInput : string;
  messages : list Message.t;
  inputDisabled : bool;
  currentThreadId : string;
  threads : list Thread.t;
  userToken : string
}.

(** [localStorage]: one map per key family of [STORAGE_KEYS], indexed by
    what follows the underscore. *)
Record LocalStorage : Type := mkStorage {
  chat_threads : gmap string (list Thread.t);
  current_thread_id : gmap string string;
  current_thread_messages : gmap string (list Message.t)
}.

(** Which dependencies of the [useEffect]s changed since the last commit. *)
Record Deps : Type := mkDeps {
  d_messages : bool;
  d_threads : bool;
  d_currentThreadId : bool
}.

Record World : Type := mkWorld {
  ui : ChatState;
  localStorage : LocalStorage;
  changed : Deps
}.

(** [{tokens: integer}] from the quota endpoint. *)
Record TokensResponse : Type := mkTokens { data_tokens : Z }.

(** The collaborators of the component. *)
Record Env : Type := mkEnv {
  visitorId : option string;  (* [None]: FingerprintJS fails *)
  POST_tokens : string -> string -> option (Http.Response TokensResponse);
  functionCallHandler : ToolCall.t -> Completion (option string);
  POST_actions :
    string -> string -> list ToolCallOutput -> option (Http.Response unit)
}.

Inductive Effect : Type :=
| PreventDefault
| PostTokens (fingerprint utoken : string)
| CallSendMessage (text : string)
| CallSyncThread (thread : Thread.t) (userToken : string)
| ScrollToBottom
| Alert (message : string)
| ConsoleError (message : string)
| SetInputDisabled (disabled : bool)
| CallFunctionHandler (toolCall : ToolCall.t)
| PostActions (threadId runId : string) (toolCallOutputs : list ToolCallOutput)
| HandleReadableStream.

Definition Handler : Type -> Type := M World Effect.

(** *** State setters *)

Definition with_ui (f : ChatState -> ChatState) (w : World) : World :=
  {| ui := f (ui w); localStorage := localStorage w; changed := changed w |}.

Definition with_storage (f : LocalStorage -> LocalStorage) (w : World)
  : World :=
  {| ui := ui w; localStorage := f (localStorage w); changed := changed w |}.

Definition with_changed (f : Deps -> Deps) (w : World) : World :=
  {| ui := ui w; localStorage := localStorage w; changed := f (changed w) |}.

Definition set_tokens (v : Z) (s : ChatState) : ChatState :=
  mkState v (userInput s) (messages s) (inputDisabled s)
    (currentThreadId s) (threads s) (userToken s).

Definition set_userInput (v : string) (s : ChatState) : ChatState :=
  mkState (tokens s) v (messages s) (inputDisabled s)
    (currentThreadId s) (threads s) (userToken s).

Definition set_messages (v : list Message.t) (s : ChatState) : ChatState :=
  mkState (tokens s) (userInput s) v (inputDisabled s)
    (currentThreadId s) (threads s) (userToken s).

Definition set_inputDisabled (v : bool) (s : ChatState) : ChatState :=
  mkState (tokens s) (userInput s) (messages s) v
    (currentThreadId s) (threads s) (userToken s).

Definition set_currentThreadId (v : string) (s : ChatState) : ChatState :=
  mkState (tokens s) (userInput s) (messages s) (inputDisabled s)
    v (threads s) (userToken s).

Definition set_threads (v : list Thread.t) (s : ChatState) : ChatState :=
  mkState (tokens s) (userInput s) (messages s) (inputDisabled s)
    (currentThreadId s) v (userToken s).

Definition mark_messages (d : Deps) : Deps :=
  mkDeps true (d_threads d) (d_currentThreadId d).
Definition mark_threads (d : Deps) : Deps :=
  mkDeps (d_messages d) true (d_currentThreadId d).
Definition mark_currentThreadId (d : Deps) : Deps :=
  mkDeps (d_messages d) (d_threads d) true.
Definition unchanged : Deps := mkDeps false false false.

Definition setTokens (v : Z) : Handler unit :=
  modify (with_ui (set_tokens v)).

Definition setUserInput (v : string) : Handler unit :=
  modify (with_ui (set_userInput v)).

Definition setInputDisabled (v : bool) : Handler unit :=
  emit (SetInputDisabled v) ;;
  modify (with_ui (set_inputDisabled v)).

(** [setCurrentThreadId(v)]: a string is compared by value. *)
Definition setCurrentThreadId (v : string) : Handler unit :=
  w <- get ;;
  if String.eqb (currentThreadId (ui w)) v then ret tt
  else
    modify (with_ui (set_currentThreadId v)) ;;
    modify (with_changed mark_currentThreadId).

(** [setMessages(prevMessages => ...)]: the updater gets the latest list
    and may itself call [updateThread]; its result is a fresh array.
    An updater that throws gives the outcome [Threw] with the list as it
    was; React runs the updater while rendering and takes the component
    down on such an error, so the state after a [Threw] that comes from
    an updater describes nothing of the running page. *)
Definition setMessages
    (updater : list Message.t -> Handler (list Message.t)) : Handler unit :=
  w <- get ;;
  newMessages <- updater (messages (ui w)) ;;
  modify (with_ui (set_messages newMessages)) ;;
  modify (with_changed mark_messages).

(** [setMessages(value)]; the array is taken as a changed dependency.
    React skips the update when [value] is the very array it holds;
    arrays are values here, so the effects on [messages] run again in
    that case too (a scroll, and the same list stored again). *)
Definition setMessagesTo (v : list Message.t) : Handler unit :=
  modify (with_ui (set_messages v)) ;;
  modify (with_changed mark_messages).

(** [setThreads(prevThreads => ...)] *)
Definition setThreads
    (updater : list Thread.t -> Handler (list Thread.t)) : Handler unit :=
  w <- get ;;
  newThreads <- updater (threads (ui w)) ;;
  modify (with_ui (set_threads newThreads)) ;;
  modify (with_changed mark_threads).

(** *** Effects run after a commit, in the order of the source *)

Definition persist_current (s : ChatState) (l : LocalStorage) : LocalStorage :=
  mkStorage (chat_threads l)
    (<[userToken s := currentThreadId s]> (current_thread_id l))
    (current_thread_messages l).

Definition persist_messages (key : string) (v : list Message.t)
    (l : LocalStorage) : LocalStorage :=
  mkStorage (chat_threads l) (current_thread_id l)
    (<[key := v]> (current_thread_messages l)).

Definition persist_threads (s : ChatState) (l : LocalStorage) : LocalStorage :=
  mkStorage (<[userToken s := threads s]> (chat_threads l))
    (current_thread_id l) (current_thread_messages l).

Definition when (b : bool) (m : Handler unit) : Handler unit :=
  if b then m else ret tt.

Definition commit : Handler unit :=
  w <- get ;;
  let s := ui w in
  let d := changed w in
  when ((d_currentThreadId d || d_messages d)
        && JsString.truthy (currentThreadId s) && JsString.truthy (userToken s))
    (modify (with_storage (persist_current s)) ;;
     modify (with_storage (persist_messages (userToken s) (messages s)))) ;;
  when (d_messages d) (emit ScrollToBottom) ;;
  when (d_threads d && (0 <? length (threads s))%nat
        && JsString.truthy (userToken s))
    (modify (with_storage (persist_threads s))) ;;
  when (d_currentThreadId d
        && JsString.truthy (currentThreadId s) && JsString.truthy (userToken s))
    (modify (with_storage (persist_current s))) ;;
  modify (with_changed (fun _ => unchanged)).

(** One event of the UI loop: the handler, then the commit. *)
Definition dispatch (handler : Handler unit) : Handler unit :=
  try_finally handler commit.

(** *** Message-list mutations *)

(** [prevThreads.map(thread => thread.id === threadId
      ? {...thread, ...updates} : thread)] *)
Definition map_threads (threadId : string) (updates : Thread.partial)
    (prevThreads : list Thread.t) : list Thread.t :=
  map (fun thread =>
         if String.eqb (Thread.id thread) threadId
         then Thread.spread thread updates
         else thread)
      prevThreads.

Definition updateThread (render : ChatState) (threadId : string)
    (updates : Thread.partial) : Handler unit :=
  setThreads (fun prevThreads =>
    let newThreads := map_threads threadId updates prevThreads in
    match find_thread threadId newThreads with
    | Some updatedThread =>
        when (JsString.truthy (userToken render))
          (emit (CallSyncThread updatedThread (userToken render))) ;;
        ret newThreads
    | None => ret newThreads
    end).

Definition message_updates (newMessages : list Message.t)
    (lastMessage now : string) : Thread.partial :=
  Thread.mkPartial None None (Some lastMessage) (Some now) (Some newMessages).

(** [now] is [new Date().toISOString()]. *)
Definition appendToLastMessage (render : ChatState) (now : string)
    (text : string) : Handler unit :=
  setMessages (fun prevMessages =>
    match last prevMessages with
    | None => throw "TypeError: lastMessage is undefined"
    | Some lastMessage =>
        let updatedLastMessage :=
          Message.mk (Message.role lastMessage)
            (Message.text lastMessage +:+ text)
            (Message.isHTML lastMessage) in
        let newMessages := removelast prevMessages ++ [updatedLastMessage] in
        updateThread render (currentThreadId render)
          (message_updates newMessages (Message.text updatedLastMessage) now) ;;
        ret newMessages
    end).

Definition appendMessage (render : ChatState) (now : string)
    (role : MessageRole) (text : string) : Handler unit :=
  setMessages (fun prevMessages =>
    let newMessages := prevMessages ++ [Message.mk role text None] in
    updateThread render (currentThreadId render)
      (message_updates newMessages text now) ;;
    ret newMessages).

Definition file_url (file_id : string) : string := "/api/files/" +:+ file_id.

(** The [forEach] of [annotateLastMessage] on the text of the copy. *)
Fixpoint annotate (annotations : list Annotation.t) (text : string)
  : Handler string :=
  match annotations with
  | [] => ret text
  | annotation :: rest =>
      if String.eqb (Annotation.type annotation) "file_path" then
        match Annotation.file_path annotation with
        | None => throw "TypeError: annotation.file_path is undefined"
        | Some fp =>
            annotate rest
              (JsString.replaceAll text (Annotation.text annotation)
                 (file_url (Annotation.file_id fp)))
        end
      else annotate rest text
  end.

(** On an empty list the source copies [undefined] into an object with no
    field and, unless a file_path annotation then fails on its missing
    text, returns a list holding that object.  It is no [Message.t]: the
    model stops there with an error, and the properties on annotations
    are about lists that are not empty. *)
Definition annotateLastMessage (annotations : list Annotation.t)
  : Handler unit :=
  setMessages (fun prevMessages =>
    match last prevMessages with
    | None => throw "TypeError: lastMessage is undefined"
    | Some lastMessage =>
        newText <- annotate annotations (Message.text lastMessage) ;;
        ret (removelast prevMessages
             ++ [Message.mk (Message.role lastMessage) newText
                   (Message.isHTML lastMessage)])
    end).

(** *** Stream handlers *)

Definition handleTextCreated (render : ChatState) (now : string)
  : Handler unit :=
  appendMessage render now assistant "".

Definition handleTextDelta (render : ChatState) (now : string)
    (delta : TextDelta.t) : Handler unit :=
  match TextDelta.value delta with
  | Some value => appendToLastMessage render now value
  | None => ret tt
  end ;;
  match TextDelta.annotations delta with
  | Some annotations => annotateLastMessage annotations
  | None => ret tt
  end.

Definition LF : string := String "010" EmptyString.

Definition handleImageFileDone (render : ChatState) (now : string)
    (file_id : string) : Handler unit :=
  appendToLastMessage render now
    (LF +:+ "![" +:+ file_id +:+ "](/api/files/" +:+ file_id +:+ ")" +:+ LF).

Definition toolCallCreated (render : ChatState) (now : string)
    (toolCall : StepToolCall.t) : Handler unit :=
  if negb (String.eqb (StepToolCall.type toolCall) "code_interpreter")
  then ret tt
  else appendMessage render now code "".

(** [delta.code_interpreter?.input] *)
Definition code_interpreter_input (delta : StepToolCall.t) : option string :=
  match StepToolCall.code_interpreter delta with
  | Some ci => StepToolCall.input ci
  | None => None
  end.

Definition toolCallDelta (render : ChatState) (now : string)
    (delta : StepToolCall.t) : Handler unit :=
  if negb (String.eqb (StepToolCall.type delta) "code_interpreter")
  then ret tt
  else
    match code_interpreter_input delta with
    | None => ret tt
    | Some input =>
        if negb (JsString.truthy input) then ret tt
        else appendToLastMessage render now input
    end.

Definition submitActionResult (env : Env) (render : ChatState)
    (runId : string) (toolCallOutputs : list ToolCallOutput) : Handler unit :=
  try_catch
    (emit (PostActions (currentThreadId render) runId toolCallOutputs) ;;
     match POST_actions env (currentThreadId render) runId toolCallOutputs with
     | None => throw "TypeError: Failed to fetch"
     | Some response =>
         if negb (Http.ok response)
         then throw "Failed to submit action result"
         else emit HandleReadableStream
     end)
    (fun error =>
       emit (ConsoleError "Error submitting action result:") ;;
       setInputDisabled false).

(** [Promise.all] of the handlers' promises: every result in the order
    of the tool calls, or the rejection of one of them. *)
Fixpoint promise_all (env : Env) (toolCalls : list ToolCall.t)
  : Completion (list ToolCallOutput) :=
  match toolCalls with
  | [] => Returned []
  | toolCall :: rest =>
      match functionCallHandler env toolCall with
      | Threw e => Threw e
      | Returned result =>
          match promise_all env rest with
          | Threw e => Threw e
          | Returned outputs =>
              Returned (mkToolCallOutput result (ToolCall.id toolCall)
                        :: outputs)
          end
      end
  end.

(** [toolCalls.map] calls the handler of every tool call before any of
    them is awaited. *)
Definition handleRequiresAction (env : Env) (render : ChatState)
    (event : RequiresActionEvent) : Handler unit :=
  let runId := data_id event in
  let toolCalls := tool_calls event in
  for_each (fun toolCall => emit (CallFunctionHandler toolCall)) toolCalls ;;
  match promise_all env toolCalls with
  | Threw e => throw e
  | Returned toolCallOutputs =>
      setInputDisabled true ;;
      submitActionResult env render runId toolCallOutputs
  end.

Definition handleRunCompleted : Handler unit := setInputDisabled false.

(** The subscriptions of [handleReadableStream], as one handler. *)
Definition handleReadableStream (env : Env) (render : ChatState)
    (now : string) (event : StreamEvent.t) : Handler unit :=
  match event with
  | StreamEvent.textCreated => handleTextCreated render now
  | StreamEvent.textDelta delta => handleTextDelta render now delta
  | StreamEvent.imageFileDone file_id => handleImageFileDone render now file_id
  | StreamEvent.toolCallCreated toolCall => toolCallCreated render now toolCall
  | StreamEvent.toolCallDelta delta => toolCallDelta render now delta
  | StreamEvent.requires_action event => handleRequiresAction env render event
  | StreamEvent.completed => handleRunCompleted
  end.

(** The events of one run, each with the clock reading at its arrival,
    handled in arrival order. *)
Fixpoint consume (env : Env) (render : ChatState)
    (events : list (string * StreamEvent.t)) : Handler unit :=
  match events with
  | [] => ret tt
  | (now, event) :: rest =>
      dispatch (handleReadableStream env render now event) ;;
      consume env render rest
  end.

(** *** Submitting and switching *)

Definition upsell_text : string :=
  "Needpedia Staff: Welcome! This AI is only designed to greet people and answer a few questions. To access our more powerful AI, which has more tokens and can even make posts for you, simply create an account (which is totally free). If you like what you see, feel free to contribute through Patreon [here](https://www.patreon.com/Needpedia).".

Definition upsell_message : Message.t :=
  Message.mk assistant upsell_text (Some true).

Definition handleSubmit (env : Env) (render : ChatState) : Handler unit :=
  emit PreventDefault ;;
  if negb (JsString.truthy (JsString.trim (userInput render))) then ret tt
  else
    try_finally
      (try_catch
         (match visitorId env with
          | None => throw "FingerprintJS"
          | Some fingerprint =>
              emit (PostTokens fingerprint (userToken render)) ;;
              match POST_tokens env fingerprint (userToken render) with
              | None => throw "TypeError: Failed to fetch"
              | Some response =>
                  match Http.json response with
                  | None => throw "SyntaxError"
                  | Some data =>
                      setTokens (data_tokens data) ;;
                      if (data_tokens data >? 0)%Z then
                        emit (CallSendMessage (userInput render)) ;;
                        setMessages (fun prevMessages =>
                          ret (prevMessages
                               ++ [Message.mk user (userInput render) None])) ;;
                        setUserInput "" ;;
                        emit ScrollToBottom
                      else
                        setMessages (fun prevMessages =>
                          ret (prevMessages ++ [upsell_message]))
                  end
              end
          end)
         (fun error =>
            emit (ConsoleError "Error checking tokens:") ;;
            emit (Alert
              "An error occurred while checking tokens. Please try again.")))
      (setInputDisabled false).

Definition switchThread (render : ChatState) (threadId : string)
  : Handler unit :=
  try_catch
    (match find_thread threadId (threads render) with
     | Some thread =>
         let messages := Thread.messages thread in
         setCurrentThreadId threadId ;;
         setMessagesTo messages ;;
         when (JsString.truthy (userToken render))
           (modify (with_storage (fun l =>
              mkStorage (chat_threads l)
                (<[userToken render := threadId]> (current_thread_id l))
                (current_thread_messages l))) ;;
            modify (with_storage
                      (persist_messages (userToken render) messages)))
     | None => emit (ConsoleError "Thread not found in local state")
     end)
    (fun error => emit (ConsoleError "Error switching thread:")).

(** A UI event runs the handler of the latest render. *)
Definition onSubmit (env : Env) : Handler unit :=
  w <- get ;; dispatch (handleSubmit env (ui w)).

Definition onThreadClick (threadId : string) : Handler unit :=
  w <- get ;; dispatch (switchThread (ui w) threadId).

End Chat.

(** ** The pass-through transform of [sendMessage] *)

Module Transform.
Import Eff Eff.Notations.

Local Set Warnings "-register-all".

(** A parsed JSON text, with [undefined] for what a property access may
    give.  An object lists each of its keys once. *)
Inductive JsValue : Type :=
| Undefined
| Null
| Bool (b : bool)
| Number (n : Z)
| Str (s : string)
| Array (items : list JsValue)
| Object (fields : list (string * JsValue)).

Fixpoint lookup_field (key : string) (fields : list (string * JsValue))
  : JsValue :=
  match fields with
  | [] => Undefined
  | (k, v) :: rest => if String.eqb k key then v else lookup_field key rest
  end.

(** A chunk of the response body, a [Uint8Array]. *)
Definition Chunk : Type := list Byte.byte.

Inductive Effect : Type :=
| Enqueue (chunk : Chunk).

(** The state is [(window as any).completionTokens]. *)
Definition Step : Type -> Type := M (option JsValue) Effect.

(** [v.key] for the keys read here, none of which a primitive or an
    array has. *)
Definition prop (v : JsValue) (key : string) : Step JsValue :=
  match v with
  | Undefined | Null => throw "TypeError"
  | Object fields => ret (lookup_field key fields)
  | _ => ret Undefined
  end.

(** [v?.key] *)
Definition optional_prop (v : JsValue) (key : string) : Step JsValue :=
  match v with
  | Undefined | Null => ret Undefined
  | _ => prop v key
  end.

(** [v === s] for a string literal [s] *)
Definition is_string (v : JsValue) (s : string) : bool :=
  match v with
  | Str s' => String.eqb s' s
  | _ => false
  end.

Definition truthy (v : JsValue) : bool :=
  match v with
  | Undefined | Null => false
  | Bool b => b
  | Number n => negb (n =? 0)%Z
  | Str s => JsString.truthy s
  | Array _ | Object _ => true
  end.

Section WithParser.
(** [new TextDecoder().decode] and [JSON.parse]; [None] is a
    [SyntaxError]. *)
Variable decode : Chunk -> string.
Variable JSON_parse : string -> option JsValue.

Definition transform (chunk : Chunk) : Step unit :=
  try_catch
    (let text := decode chunk in
     match JSON_parse text with
     | None => throw "SyntaxError"
     | Some data =>
         event <- prop data "event" ;;
         is_message_creation <-
           (if is_string event "thread.run.step.completed" then
              step <- prop data "data" ;;
              type <- optional_prop step "type" ;;
              ret (is_string type "message_creation")
            else ret false) ;;
         (if (is_message_creation : bool) then
            step <- prop data "data" ;;
            usage <- prop step "usage" ;;
            completion_tokens <- optional_prop usage "completion_tokens" ;;
            if truthy completion_tokens
            then modify (fun _ => Some completion_tokens)
            else ret tt
          else ret tt) ;;
         emit (Enqueue chunk)
     end)
    (fun error => emit (Enqueue chunk)).

(** [response.body.pipeThrough(transformStream)] on the chunks of a
    body. *)
Definition pipeThrough (body : list Chunk) : Step unit :=
  for_each transform body.

Definition enqueued (o : Outcome (option JsValue) Effect unit)
  : list Chunk :=
  map (fun e => match e with Enqueue c => c end) (trace o).
End WithParser.

End Transform.

(** ** Starting a new conversation *)

Module NewThread.
Import Eff Eff.Notations.

(** [{threadId}] from [POST /api/assistants/threads]. *)
Record Created : Type := mkCreated { threadId : string }.

Record Env : Type := mkEnv {
  POST_threads : string -> option (Http.Response Created);
  (* [process.env.NEXT_PUBLIC_INITIAL_MESSAGE_TEXT] *)
  INITIAL_MESSAGE_TEXT : option string;
  (* [new Date().toISOString()] *)
  now : string
}.

(** The request of [createNewThread], beside the effects of the
    component. *)
Inductive Effect : Type :=
| PostThreads (userToken : string)
| Component (e : Chat.Effect).

Definition Handler : Type -> Type := M Chat.World Effect.

(** A state setter or an effect hook of the component, run here. *)
Definition lift {A} (m : Chat.Handler A) : Handler A :=
  fun w =>
    match m w with
    | mkOutcome c s t => mkOutcome c s (map Component t)
    end.

Definition welcome : string :=
  "👋Welcome! How can I help you today with Needpedia?".

(** [process.env.NEXT_PUBLIC_INITIAL_MESSAGE_TEXT || welcome] *)
Definition initialMessage (env : Env) : Message.t :=
  Message.mk assistant
    (match INITIAL_MESSAGE_TEXT env with
     | Some text => if JsString.truthy text then text else welcome
     | None => welcome
     end)
    None.

Definition createNewThread (env : Env) (render : Chat.ChatState)
  : Handler unit :=
  let userToken := Chat.userToken render in
  if negb (JsString.truthy userToken) then ret tt
  else
    try_catch
      (emit (PostThreads userToken) ;;
       match POST_threads env userToken with
       | None => throw "TypeError: Failed to fetch"
       | Some res =>
           if negb (Http.ok res) then throw "Failed to create new thread"
           else
             match Http.json res with
             | None => throw "SyntaxError"
             | Some data =>
                 let initialMessage := initialMessage env in
                 let newThread :=
                   Thread.mk (threadId data) "New Chat"
                     (Message.text initialMessage) (now env)
                     [initialMessage] in
                 lift (Chat.setThreads (fun prevThreads =>
                   let updatedThreads := prevThreads ++ [newThread] in
                   Chat.when (JsString.truthy userToken)
                     (modify (Chat.with_storage (fun l =>
                        Chat.mkStorage
                          (<[userToken := updatedThreads]>
                             (Chat.chat_threads l))
                          (Chat.current_thread_id l)
                          (Chat.current_thread_messages l))) ;;
                      emit (Chat.CallSyncThread newThread userToken)) ;;
                   ret updatedThreads)) ;;
                 lift (Chat.setCurrentThreadId (threadId data)) ;;
                 lift (Chat.setMessagesTo [initialMessage]) ;;
                 lift (Chat.setInputDisabled false)
             end
       end)
      (fun error =>
         emit (Component (Chat.ConsoleError "Error creating new thread:")) ;;
         lift (Chat.setInputDisabled false)).

(** The New Chat button: the handler of the latest render, then the
    commit. *)
Definition onNewChatClick (env : Env) : Handler unit :=
  w <- get ;;
  try_finally (createNewThread env (Chat.ui w)) (lift Chat.commit).

End NewThread.

(** ** The function-calling page *)

Module Page.
Import Eff Eff.Notations.

(** What [fetch] resolves to for [makeAPIRequest]. *)
Record Response : Type := mkResponse {
  ok : bool;
  status_line : string;  (* [`${status} ${statusText}`] *)
  text : option string;  (* [None]: [response.text()] rejects *)
  json : option Transform.JsValue  (* [None]: [response.json()] rejects *)
}.

(** The collaborators of the page. *)
Record Env : Type := mkEnv {
  JSON_parse : string -> option Transform.JsValue;
  JSON_stringify : Transform.JsValue -> string;
  (* [new URL(`${API_BASE_URL}/api/v1/posts`)] with [type] and
     [q[title_cont]] appended, as a string; [None]: [new URL] throws *)
  posts_url : Transform.JsValue -> Transform.JsValue -> option string;
  (* url, method, the [token] header, the body *)
  fetch : string -> string -> option string -> option string
          -> option Response
}.

(** The [useState] cells that the modelled functions write; [token] is
    read from the render. *)
Record State : Type := mkState {
  weatherData : Transform.JsValue;
  error : option string
}.

Inductive Effect : Type :=
| ConsoleLog (message : string)
| ConsoleError (message : string)
| Fetch (url method : string) (token body : option string).

Definition Handler : Type -> Type := M State Effect.

Definition setWeatherData (v : Transform.JsValue) : Handler unit :=
  modify (fun s => mkState v (error s)).

Definition setError (v : string) : Handler unit :=
  modify (fun s => mkState (weatherData s) (Some v)).

(** [x] for a [string | null]: neither [null] nor empty. *)
Definition truthy (token : option string) : bool :=
  match token with
  | Some t => JsString.truthy t
  | None => false
  end.

(** One name of [const { query, type } = v]: a [TypeError] on [null],
    [undefined] for a name the value does not have. *)
Definition destructure (v : Transform.JsValue) (key : string)
  : Handler Transform.JsValue :=
  match v with
  | Transform.Undefined | Transform.Null => throw "TypeError"
  | Transform.Object fields => ret (Transform.lookup_field key fields)
  | _ => ret Transform.Undefined
  end.

Definition makeAPIRequest (env : Env) (token : option string)
    (url method : string) (body : option Transform.JsValue)
  : Handler Transform.JsValue :=
  try_catch
    (emit (ConsoleLog ("Making " +:+ method +:+ " request to: " +:+ url)) ;;
     let token_header := if truthy token then token else None in
     let request_body :=
       match body with
       | Some b => if Transform.truthy b then Some (JSON_stringify env b)
                   else None
       | None => None
       end in
     emit (Fetch url method token_header request_body) ;;
     match fetch env url method token_header request_body with
     | None => throw "Failed to fetch"
     | Some response =>
         if negb (ok response) then
           match text response with
           | None => throw "TypeError"
           | Some errorData =>
               emit (ConsoleError "API Error Response:") ;;
               throw ("API request failed: " +:+ status_line response)
           end
         else
           match json response with
           | None => throw "SyntaxError"
           | Some data =>
               emit (ConsoleLog "API Response:") ;;
               ret data
           end
     end)
    (fun error =>
       emit (ConsoleError "Request error:") ;;
       setError error ;;
       throw error).

(** The handler resolves to [undefined] ([None]) where the source
    returns nothing. *)
Definition functionCallHandler (env : Env) (token : option string)
    (call : ToolCall.t) : Handler (option string) :=
  if negb (truthy token) then
    emit (ConsoleError "No token available") ;;
    ret None
  else
    try_catch
      (if String.eqb (ToolCall.name call) "find_content" then
         match JSON_parse env (ToolCall.arguments call) with
         | None => throw "SyntaxError"
         | Some args =>
             query <- destructure args "query" ;;
             type <- destructure args "type" ;;
             match posts_url env type query with
             | None => throw "TypeError: Invalid URL"
             | Some url =>
                 data <- makeAPIRequest env token url "GET" None ;;
                 setWeatherData data ;;
                 ret (Some (JSON_stringify env data))
             end
         end
       else ret None)
      (fun error =>
         emit (ConsoleError "Function call handler error:") ;;
         setError error ;;
         ret None).

End Page.

(** ** The end of a response stream *)

Module StreamEnd.
Import Eff Eff.Notations.

Record Env : Type := mkEnv {
  (* [utoken], [decrement_by] *)
  POST_tokens_decrease :
    string -> Transform.JsValue -> option (Http.Response unit);
  (* [v > 0] for a string, an array or an object [v] *)
  coerced_gt_zero : Transform.JsValue -> Completion bool
}.

Inductive Effect : Type :=
| Transformed (e : Transform.Effect)
| PostDecrease (utoken : string) (decrement_by : Transform.JsValue)
| ConsoleError (message : string).

(** The state is [(window as any).completionTokens], as for the
    transform. *)
Definition Step : Type -> Type := M (option Transform.JsValue) Effect.

Definition lift {A} (m : Transform.Step A) : Step A :=
  fun window =>
    match m window with
    | mkOutcome c s t => mkOutcome c s (map Transformed t)
    end.

(** [v > 0] *)
Definition greater_than_zero (env : Env) (v : Transform.JsValue)
  : Completion bool :=
  match v with
  | Transform.Undefined | Transform.Null => Returned false
  | Transform.Bool b => Returned b
  | Transform.Number n => Returned (n >? 0)%Z
  | _ => coerced_gt_zero env v
  end.

(** The handler of the stream's [end] event. *)
Definition onEnd (env : Env) (userToken : string) : Step unit :=
  window <- get ;;
  let completionTokens := default Transform.Undefined window in
  match greater_than_zero env completionTokens with
  | Threw e => throw e
  | Returned false => ret tt
  | Returned true =>
      try_catch
        (emit (PostDecrease userToken completionTokens) ;;
         match POST_tokens_decrease env userToken completionTokens with
         | None => throw "TypeError: Failed to fetch"
         | Some tokenResponse =>
             if negb (Http.ok tokenResponse)
             then throw "Failed to decrement tokens"
             else
               match Http.json tokenResponse with
               | None => throw "SyntaxError"
               | Some tokenData => modify (fun _ => None)
               end
         end)
        (fun error => emit (ConsoleError "Error updating tokens:"))
  end.

(** A response body read through the transform to its end. *)
Definition readToEnd (decode : Transform.Chunk -> string)
    (JSON_parse : string -> option Transform.JsValue)
    (env : Env) (userToken : string) (body : list Transform.Chunk)
  : Step unit :=
  lift (Transform.pipeThrough decode JSON_parse body) ;;
  onEnd env userToken.

End StreamEnd.

(** ** The history of a thread *)

Module History.
Import Eff Eff.Notations.

(** A content part of a provider message; [text_value] is
    [part.text?.value]. *)
Record ContentPart : Type := mkPart { text_value : option string }.

Record ProviderMessage : Type := mkProviderMessage {
  created_at : Z;
  role : string;
  content : option (list ContentPart)  (* [None]: no [content] array *)
}.

(** The body of the messages route; [None]: no [data]. *)
Record MessageList : Type := mkMessageList {
  data : option (list ProviderMessage)
}.

Record Env : Type := mkEnv {
  GET_messages : string -> option (Http.Response MessageList)
}.

Inductive Effect : Type :=
| GetMessages (threadId : string)
| ConsoleError (message : string).

(** [.sort((a, b) => a.created_at - b.created_at)]: the sort is stable,
    so its result is that of inserting each message before the first
    later one. *)
Fixpoint insert_by_created_at (m : ProviderMessage)
    (l : list ProviderMessage) : list ProviderMessage :=
  match l with
  | [] => [m]
  | x :: l' =>
      if (created_at m <=? created_at x)%Z then m :: l
      else x :: insert_by_created_at m l'
  end.

Definition sort_by_created_at (l : list ProviderMessage)
  : list ProviderMessage :=
  fold_right insert_by_created_at [] l.

(** U+3010 and U+3011, the brackets of a citation. *)
Definition open_bracket : string :=
  Eval cbv in JsString.bytes [227; 128; 144].
Definition close_bracket : string :=
  Eval cbv in JsString.bytes [227; 128; 145].

(** LF, CR, U+2028 and U+2029, which [.] does not match. *)
Definition line_terminators : list string :=
  Eval cbv in
    map JsString.bytes [ [10]; [13]; [226; 128; 168]; [226; 128; 169] ].

(** The number of bytes up to the end of the first closing bracket of
    [s], if no line terminator comes before it. *)
Fixpoint to_close (s : string) : option nat :=
  match JsString.strip_prefix close_bracket s with
  | Some _ => Some (String.length close_bracket)
  | None =>
      match JsString.strip_first line_terminators s with
      | Some _ => None
      | None =>
          match s with
          | EmptyString => None
          | String _ s' => option_map S (to_close s')
          end
      end
  end.

(** The length in bytes of the match of the pattern at the start of
    [s]. *)
Definition citation (s : string) : option nat :=
  match JsString.strip_prefix open_bracket s with
  | Some rest =>
      option_map (fun n => String.length open_bracket + n) (to_close rest)
  | None => None
  end.

(** [s.replace(pattern, '')] for the pattern of a citation with the flag
    [g]: the matches are found left to right and do not overlap; [skip]
    is the number of bytes of a match still to be dropped. *)
Fixpoint remove_citations (skip : nat) (s : string) : string :=
  match s with
  | EmptyString => EmptyString
  | String c s' =>
      match skip with
      | S k => remove_citations k s'
      | 0 =>
          match citation s with
          | Some n => remove_citations (n - 1) s'
          | None => String c (remove_citations 0 s')
          end
      end
  end.

(** [s.startsWith(p)] *)
Definition startsWith (p s : string) : bool :=
  match JsString.strip_prefix p s with
  | Some _ => true
  | None => false
  end.

(** [message.content[0]?.text?.value || '']; reading [content[0]] of a
    message with no [content] is a [TypeError]. *)
Definition content_text (message : ProviderMessage) : Completion string :=
  match content message with
  | None => Threw "TypeError"
  | Some (part :: _) => Returned (default EmptyString (text_value part))
  | Some [] => Returned EmptyString
  end.

(** The callback of [map]. *)
Definition format (message : ProviderMessage) : Completion Message.t :=
  match content_text message with
  | Threw e => Threw e
  | Returned content =>
      let role :=
        if String.eqb (role message) "user" then user
        else if String.eqb (role message) "assistant" then
          if JsString.includes "```" content
             || startsWith "function" content
             || startsWith "class" content
          then code
          else assistant
        else assistant in
      let cleanText := remove_citations 0 content in
      Returned (Message.mk role cleanText None)
  end.

(** [messages.map(format)]: the entries in order, or the first error. *)
Fixpoint map_format (messages : list ProviderMessage)
  : Completion (list Message.t) :=
  match messages with
  | [] => Returned []
  | message :: rest =>
      match format message with
      | Threw e => Threw e
      | Returned entry =>
          match map_format rest with
          | Threw e => Threw e
          | Returned entries => Returned (entry :: entries)
          end
      end
  end.

(** [null] is [None]. *)
Definition fetchThreadMessages (env : Env) (threadId userToken : string)
  : M unit Effect (option (list Message.t)) :=
  try_catch
    (emit (GetMessages threadId) ;;
     match GET_messages env threadId with
     | None => throw "TypeError: Failed to fetch"
     | Some response =>
         if negb (Http.ok response)
         then throw "Failed to fetch thread messages"
         else
           match Http.json response with
           | None => throw "SyntaxError"
           | Some body =>
               match data body with
               | None | Some [] => ret None
               | Some messages =>
                   match map_format (sort_by_created_at messages) with
                   | Threw e => throw e
                   | Returned formattedMessages =>
                       ret (Some formattedMessages)
                   end
               end
           end
     end)
    (fun error =>
       emit (ConsoleError "Error fetching thread messages:") ;;
       ret None).

End History.

(** * Vocabulary of the properties *)

Import Eff.

Ltac eff_unfold :=
  cbv [bind ret throw get modify emit try_catch try_finally].

(** ** Sample collaborators and states *)

(** A registry that lists the threads A, B and C. *)
Definition registry_ABC : Sync.Backend :=
  Sync.mkBackend
    (fun _ => Some (Http.mkResponse true
                      (Some (Sync.mkBackendResponse ["A"; "B"; "C"]))))
    (Some "visitor") (fun _ _ _ => Some (Http.mkResponse true (Some tt))).

(** A failed fetch: [fetch] rejects, or the response is not ok. *)
Definition fetch_failed {A} (r : option (Http.Response A)) : bool :=
  match r with
  | None => true
  | Some response => negb (Http.ok response)
  end.

(** A registry that cannot be reached. *)
Definition offline_backend : Sync.Backend :=
  Sync.mkBackend (fun _ => None) (Some "visitor") (fun _ _ _ => None).

(** Collaborators that answer every quota check with tokens = 0 and
    resolve every tool call. *)
Definition sample_env : Chat.Env :=
  Chat.mkEnv (Some "visitor")
    (fun _ _ => Some (Http.mkResponse true (Some (Chat.mkTokens 0))))
    (fun _ => Returned (Some "result"))
    (fun _ _ _ => Some (Http.mkResponse true (Some tt))).

(** One thread, selected and displayed. *)
Definition sample_thread : Thread.t :=
  Thread.mk "T1" "New Chat" "Hello" "2024-01-01T00:00:00.000Z"
    [Message.mk assistant "Hello" None].

Definition sample_state : Chat.ChatState :=
  Chat.mkState 0 "hi" [Message.mk assistant "Hello" None] false "T1"
    [sample_thread] "token".

Definition sample_world : Chat.World :=
  Chat.mkWorld sample_state (Chat.mkStorage ∅ ∅ ∅) Chat.unchanged.

Definition blank_input : string := "  " +:+ Chat.LF +:+ " ".

(** A computation with no effect on the trace. *)
Definition quiet {S E A} (m : M S E A) : Prop := forall s, trace (m s) = [].

(** Inside [try { m } catch { emit e }], [m] ends with the single effect
    [e], however it completes. *)
Definition forwards {S E} (e : E) (m : M S E unit) : Prop :=
  forall s,
    completion (try_catch m (fun _ => emit e) s) = Returned tt
    /\ trace (try_catch m (fun _ => emit e) s) = [e].

Definition is_handler_call (e : Chat.Effect) : bool :=
  match e with Chat.CallFunctionHandler _ => true | _ => false end.

Definition is_post_actions (e : Chat.Effect) : bool :=
  match e with Chat.PostActions _ _ _ => true | _ => false end.

(** [out] is the pair made for [toolCall] from what its handler resolved
    to. *)
Definition output_of (env : Chat.Env) (toolCall : ToolCall.t)
    (out : ToolCallOutput) : Prop :=
  Chat.functionCallHandler env toolCall = Returned (output out)
  /\ tool_call_id out = ToolCall.id toolCall.

(** The submission of the action results was accepted: the request was
    answered, and with an ok response. *)
Definition accepted (env : Chat.Env) (render : Chat.ChatState)
    (runId : string) (outputs : list ToolCallOutput) : bool :=
  match Chat.POST_actions env (Chat.currentThreadId render) runId outputs with
  | Some response => Http.ok response
  | None => false
  end.

(** A chat whose tool handler rejects every call. *)
Definition rejecting_env : Chat.Env :=
  Chat.mkEnv (Some "visitor")
    (fun _ _ => Some (Http.mkResponse true (Some (Chat.mkTokens 5))))
    (fun _ => Threw "rejected")
    (fun _ _ _ => Some (Http.mkResponse true (Some tt))).

Definition two_calls : RequiresActionEvent :=
  mkRequiresActionEvent "run_1"
    [ToolCall.mk "call_1" "find_content" "{}";
     ToolCall.mk "call_2" "find_content" "{}"].

(** Two clicks in the thread list, one after the other. *)
Definition switch_there_and_back (there back : string) : Chat.Handler unit :=
  bind (Chat.onThreadClick there) (fun _ => Chat.onThreadClick back).

Definition other_thread : Thread.t :=
  Thread.mk "T2" "Other" "Hi" "2024-01-02T00:00:00.000Z"
    [Message.mk assistant "Hi" None].

Definition two_threads_world : Chat.World :=
  Chat.with_ui (Chat.set_threads [sample_thread; other_thread]) sample_world.

(** The calls of [syncThreadWithBackend] that [updateThread] makes. *)
Definition sync_calls (render : Chat.ChatState) (threadId : string)
    (newThreads : list Thread.t) : list Chat.Effect :=
  match find_thread threadId newThreads with
  | Some updatedThread =>
      if JsString.truthy (Chat.userToken render)
      then [Chat.CallSyncThread updatedThread (Chat.userToken render)]
      else []
  | None => []
  end.

(** The last message with [text] added to its text. *)
Definition extended (m : Message.t) (text : string) : Message.t :=
  Message.mk (Message.role m) (Message.text m +:+ text) (Message.isHTML m).

(** Whether a delta carries an annotation of type [file_path]. *)
Definition carries_file_path (delta : TextDelta.t) : bool :=
  match TextDelta.annotations delta with
  | Some annotations =>
      existsb (fun a => String.eqb (Annotation.type a) "file_path") annotations
  | None => false
  end.

(** An annotation that has nothing to replace in [text]: it is not of type
    [file_path], or it is, has its [file_path] field, and its text does
    not occur in [text]. *)
Definition inert_on (text : string) (a : Annotation.t) : bool :=
  if String.eqb (Annotation.type a) "file_path" then
    match Annotation.file_path a with
    | Some _ => negb (JsString.includes (Annotation.text a) text)
    | None => false
    end
  else true.

(** The text a delta adds: its value, nothing when the value is absent. *)
Definition delta_text (delta : TextDelta.t) : string :=
  default EmptyString (TextDelta.value delta).

(** The delta values of a sequence, concatenated in arrival order. *)
Definition concat_values (deltas : list (string * TextDelta.t)) : string :=
  fold_right (fun d acc => delta_text d.2 +:+ acc) EmptyString deltas.

(** Along the deltas, starting from the last text [text], no annotation
    finds its text in the last message at the time it is applied. *)
Fixpoint annotations_inert (text : string)
    (deltas : list (string * TextDelta.t)) : bool :=
  match deltas with
  | [] => true
  | d :: rest =>
      match TextDelta.annotations d.2 with
      | Some annotations =>
          forallb (inert_on (text +:+ delta_text d.2)) annotations
      | None => true
      end
      && annotations_inert (text +:+ delta_text d.2) rest
  end.

Definition text_deltas (deltas : list (string * TextDelta.t))
  : list (string * StreamEvent.t) :=
  map (fun d => (d.1, StreamEvent.textDelta d.2)) deltas.

(** The text of the last message. *)
Definition last_text (messages : list Message.t) : option string :=
  Message.text <$> last messages.

Definition plain_deltas : list (string * TextDelta.t) :=
  [("2024-01-01T00:00:01.000Z", TextDelta.mk (Some ", wor") None);
   ("2024-01-01T00:00:02.000Z", TextDelta.mk None (Some []));
   ("2024-01-01T00:00:03.000Z",
    TextDelta.mk (Some "ld")
      (Some [Annotation.mk "file_citation" "ld" None;
             Annotation.mk "file_path" "sandbox:/a.csv"
               (Some (Annotation.mkFilePath "F"))]))].

(** A delta whose value contains the text of its own file_path
    annotation. *)
Definition annotated_delta : TextDelta.t :=
  TextDelta.mk (Some " see sandbox:/a.csv")
    (Some [Annotation.mk "file_path" "sandbox:/a.csv"
             (Some (Annotation.mkFilePath "F"))]).

Definition annotated_text : string := "see sandbox:/a.csv".

Definition annotation_thread : Thread.t :=
  Thread.mk "T1" "report" annotated_text "2024-01-01T00:00:00.000Z"
    [Message.mk user "report" None; Message.mk assistant annotated_text None].

Definition annotation_state : Chat.ChatState :=
  Chat.mkState 5 EmptyString
    [Message.mk user "report" None; Message.mk assistant annotated_text None]
    true "T1" [annotation_thread] "token".

Definition annotation_world : Chat.World :=
  Chat.mkWorld annotation_state (Chat.mkStorage ∅ ∅ ∅) Chat.unchanged.

Definition annotation_event : StreamEvent.t :=
  StreamEvent.textDelta
    (TextDelta.mk None
       (Some [Annotation.mk "file_path" "sandbox:/a.csv"
                (Some (Annotation.mkFilePath "F"))])).

(** * Further vocabulary *)

(** ** Thread synchroniser *)

(** The id list [getThreadsFromLocalStorage] reads. *)
Definition cached_ids (w : Sync.Window) : list string :=
  match w with
  | Sync.Browser (Some l) => l
  | _ => []
  end.

(** The id list the registry answers with, when the GET is ok and its body
    parses. *)
Definition remote_ids (backend : Sync.Backend) (userToken : string)
  : option (list string) :=
  match Sync.GET_chat_threads backend userToken with
  | Some response =>
      if Http.ok response
      then Sync.threads <$> Http.json response
      else None
  | None => None
  end.

(** The window after [saveThreadsToLocalStorage(l)]. *)
Definition saved (l : list string) (w : Sync.Window) : Sync.Window :=
  match w with
  | Sync.NoWindow => Sync.NoWindow
  | Sync.Browser _ => Sync.Browser (Some l)
  end.

(** A registry that knows nothing yet and accepts every registration. *)
Definition empty_registry : Sync.Backend :=
  Sync.mkBackend
    (fun _ => Some (Http.mkResponse true (Some (Sync.mkBackendResponse []))))
    (Some "visitor") (fun _ _ _ => Some (Http.mkResponse true (Some tt))).

(** A registry that lists nothing and refuses every registration. *)
Definition refusing_registry : Sync.Backend :=
  Sync.mkBackend
    (fun _ => Some (Http.mkResponse true (Some (Sync.mkBackendResponse []))))
    (Some "visitor") (fun _ _ _ => Some (Http.mkResponse false None)).

Definition thread_C : Thread.t := Thread.mk "C" "New Chat" "" "" [].

Ltac sync_step :=
  cbv beta iota zeta
    delta [Sync.threads Http.ok Http.json negb saved cached_ids
           completion final trace].

Ltac use_equations :=
  repeat match goal with
         | |- context [includes [] ?x] => change (includes [] x) with false
         | H : ?l = _ |- context [?l] => rewrite H
         end.

Ltac sync_run_with fetch_equation :=
  unfold Sync.syncThreadWithBackend, Sync.getThreadsFromLocalStorage,
    Sync.saveThreadsToLocalStorage;
  repeat (progress (eff_unfold; sync_step;
                    rewrite ?fetch_equation;
                    use_equations));
  cbn [app].

(** Every way a synchronisation can go. *)
Ltac sync_cases backend thread userToken w :=
  destruct w as [|[?cached|]];
  [ | destruct (includes cached (Thread.id thread)) eqn:?Hcached | ];
  (destruct (remote_ids backend userToken) as [?remote|] eqn:?Hremote;
   [ destruct (includes remote (Thread.id thread)) eqn:?Hlisted | ]);
  (destruct (Sync.visitorId backend) as [?fingerprint|] eqn:?Hvisitor;
   [ destruct
       (Sync.POST_chat_threads backend userToken (Thread.id thread)
          fingerprint) as [[[] ?body]|] eqn:?Hpost
   | ]).

(** How the registration part of [syncThreadWithBackend] ends when it is
    reached in window [w'] after the effects [before], [cachedThreads]
    being the list read at the start. *)
Definition registration_outcome (backend : Sync.Backend) (thread : Thread.t)
    (userToken : string) (cachedThreads : list string)
    (w' : Sync.Window) (before : list Sync.Effect)
  : Outcome Sync.Window Sync.Effect unit :=
  let failed := Sync.ConsoleError "Error syncing thread with backend:" in
  match Sync.visitorId backend with
  | None => mkOutcome (Returned tt) w' (before ++ [failed])
  | Some fingerprint =>
      let post :=
        Sync.HttpPostThread userToken (Thread.id thread) fingerprint in
      match
        Sync.POST_chat_threads backend userToken (Thread.id thread) fingerprint
      with
      | Some response =>
          if Http.ok response
          then mkOutcome (Returned tt)
                 (saved (cachedThreads ++ [Thread.id thread]) w')
                 (before ++ [post])
          else mkOutcome (Returned tt) w' (before ++ [post; failed])
      | None => mkOutcome (Returned tt) w' (before ++ [post; failed])
      end
  end.

(** ** Stream events *)

(** The Markdown image reference that [handleImageFileDone] appends. *)
Definition image_reference (file_id : string) : string :=
  Chat.LF +:+ "![" +:+ file_id +:+ "](/api/files/" +:+ file_id +:+ ")"
  +:+ Chat.LF.

(** The empty message a created event appends, if it appends one. *)
Definition created_message (event : StreamEvent.t) : option Message.t :=
  match event with
  | StreamEvent.textCreated => Some (Message.mk assistant EmptyString None)
  | StreamEvent.toolCallCreated toolCall =>
      if String.eqb (StepToolCall.type toolCall) "code_interpreter"
      then Some (Message.mk code EmptyString None)
      else None
  | _ => None
  end.

Definition is_created (event : StreamEvent.t) : bool :=
  match event with
  | StreamEvent.textCreated | StreamEvent.toolCallCreated _ => true
  | _ => false
  end.

(** The thread with id [threadId] mirrors the display: its messages are
    the displayed ones and its [lastMessage] is the text of the last of
    them. *)
Definition thread_mirrors_display (threadId : string) (w : Chat.World)
  : Prop :=
  exists t,
    find_thread threadId (Chat.threads (Chat.ui w)) = Some t
    /\ Thread.messages t = Chat.messages (Chat.ui w)
    /\ last_text (Chat.messages (Chat.ui w)) = Some (Thread.lastMessage t).

(** An event that neither carries a file_path annotation nor has a
    rejected handler call. *)
Definition plain_event (env : Chat.Env) (event : StreamEvent.t) : bool :=
  match event with
  | StreamEvent.textDelta delta => negb (carries_file_path delta)
  | StreamEvent.requires_action event =>
      match Chat.promise_all env (tool_calls event) with
      | Returned _ => true
      | Threw _ => false
      end
  | _ => true
  end.

(** What a stream event leaves alone: the quota shown, the input text,
    the selected thread and the user token. *)
Definition same_session (s s' : Chat.ChatState) : Prop :=
  Chat.tokens s' = Chat.tokens s
  /\ Chat.userInput s' = Chat.userInput s
  /\ Chat.currentThreadId s' = Chat.currentThreadId s
  /\ Chat.userToken s' = Chat.userToken s.

(** A run as a user sees it start: the display already holds the user's
    message, which the thread does not have yet. *)
Definition unsynced_world : Chat.World :=
  Chat.with_ui
    (Chat.set_messages
       [Message.mk assistant "Hello" None; Message.mk user "hi" None])
    sample_world.

Definition sample_run : list (string * StreamEvent.t) :=
  [("2024-01-01T00:00:01.000Z", StreamEvent.textCreated);
   ("2024-01-01T00:00:02.000Z",
    StreamEvent.textDelta (TextDelta.mk (Some "Hi there") None));
   ("2024-01-01T00:00:03.000Z",
    StreamEvent.toolCallCreated (StepToolCall.mk "function" None));
   ("2024-01-01T00:00:04.000Z",
    StreamEvent.requires_action
      (mkRequiresActionEvent "run_1" [ToolCall.mk "call_1" "find_content" "{}"]));
   ("2024-01-01T00:00:05.000Z", StreamEvent.imageFileDone "F");
   ("2024-01-01T00:00:06.000Z", StreamEvent.completed)].

(** Whether an event is one of the two that set the input control. *)
Definition sets_input (event : StreamEvent.t) : bool :=
  match event with
  | StreamEvent.requires_action _ | StreamEvent.completed => true
  | _ => false
  end.

(** Agreement of two states on everything but the message list and the
    thread list. *)
Definition only_lists_differ (s s' : Chat.ChatState) : Prop :=
  same_session s s' /\ Chat.inputDisabled s' = Chat.inputDisabled s.

Definition title_update : Thread.partial :=
  Thread.mkPartial None (Some "Renamed") None None None.

(** ** White space, both ways *)

(** A string made of tokens of [toks]. *)
Inductive Tokens (toks : list string) : string -> Prop :=
| tokens_empty : Tokens toks EmptyString
| tokens_cons t s : In t toks -> Tokens toks s -> Tokens toks (t +:+ s).

(** ** Submitting *)

(** The quota the token endpoint reports for a submit: [None] when the
    fingerprint, the request or the body of the response fails. *)
Definition quota_reply (env : Chat.Env) (render : Chat.ChatState)
  : option Z :=
  match Chat.visitorId env with
  | Some fingerprint =>
      match Chat.POST_tokens env fingerprint (Chat.userToken render) with
      | Some response => Chat.data_tokens <$> Http.json response
      | None => None
      end
  | None => None
  end.

Definition is_send (e : Chat.Effect) : bool :=
  match e with Chat.CallSendMessage _ => true | _ => false end.

Definition quota_alert : Chat.Effect :=
  Chat.Alert "An error occurred while checking tokens. Please try again.".

(** Collaborators that grant 7 tokens. *)
Definition granting_env : Chat.Env :=
  Chat.mkEnv (Some "visitor")
    (fun _ _ => Some (Http.mkResponse true (Some (Chat.mkTokens 7))))
    (fun _ => Returned (Some "result"))
    (fun _ _ _ => Some (Http.mkResponse true (Some tt))).

(** Collaborators whose quota endpoint answers with a negative count. *)
Definition overdrawn_env : Chat.Env :=
  Chat.mkEnv (Some "visitor")
    (fun _ _ => Some (Http.mkResponse true (Some (Chat.mkTokens (-3)))))
    (fun _ => Returned (Some "result"))
    (fun _ _ _ => Some (Http.mkResponse true (Some tt))).

(** Collaborators whose quota endpoint cannot be reached. *)
Definition unreachable_env : Chat.Env :=
  Chat.mkEnv (Some "visitor") (fun _ _ => None)
    (fun _ => Returned (Some "result")) (fun _ _ _ => None).

(** A submit whose guard the input passes, with the reply of the quota
    check at hand. *)
Ltac submit_cases env render Hinput :=
  unfold Chat.handleSubmit;
  rewrite (Hinput);
  unfold Chat.setTokens, Chat.setMessages, Chat.setUserInput,
    Chat.setInputDisabled;
  destruct (Chat.visitorId env) as [?fingerprint|] eqn:?Hvisitor;
  [ destruct (Chat.POST_tokens env fingerprint (Chat.userToken render))
      as [?response|] eqn:?Hpost;
    [ destruct (Http.json response) as [[?quota]|] eqn:?Hjson;
      [ destruct (quota >? 0)%Z eqn:?Hpositive | ]
    | ]
  | ];
  repeat (progress
            (cbv [bind ret throw get modify emit try_catch try_finally negb];
             cbn [Chat.data_tokens];
             use_equations));
  cbn [app completion final trace Chat.ui Chat.messages Chat.tokens
       Chat.userInput Chat.inputDisabled Chat.with_ui Chat.with_changed
       Chat.set_tokens Chat.set_messages Chat.set_userInput
       Chat.set_inputDisabled].

(** ** Selecting a thread *)

(** Two threads, nobody signed in. *)
Definition signed_out_world : Chat.World :=
  Chat.mkWorld
    (Chat.mkState 0 "hi" [Message.mk assistant "Hello" None] false "T1"
       [sample_thread; other_thread] EmptyString)
    (Chat.mkStorage ∅ ∅ ∅) Chat.unchanged.

(** ** A new conversation *)

(** What the provider answered to the request for a new thread, if the
    request was made and succeeded. *)
Definition created (env : NewThread.Env) (render : Chat.ChatState)
  : option NewThread.Created :=
  if JsString.truthy (Chat.userToken render) then
    match NewThread.POST_threads env (Chat.userToken render) with
    | Some res => if Http.ok res then Http.json res else None
    | None => None
    end
  else None.

(** The thread that [createNewThread] builds for the answer [data]. *)
Definition welcome_thread (env : NewThread.Env) (data : NewThread.Created)
  : Thread.t :=
  Thread.mk (NewThread.threadId data) "New Chat"
    (Message.text (NewThread.initialMessage env)) (NewThread.now env)
    [NewThread.initialMessage env].

Definition is_sync_call (e : NewThread.Effect) : bool :=
  match e with
  | NewThread.Component (Chat.CallSyncThread _ _) => true
  | _ => false
  end.

Definition provider_TN : NewThread.Env :=
  NewThread.mkEnv
    (fun _ => Some (Http.mkResponse true (Some (NewThread.mkCreated "TN"))))
    None "2024-02-02T00:00:00.000Z".

Definition provider_down : NewThread.Env :=
  NewThread.mkEnv
    (fun _ => Some (Http.mkResponse false None))
    None "2024-02-02T00:00:00.000Z".

Ltac new_chat_cases env s :=
  unfold NewThread.createNewThread, created in *;
  cbv zeta;
  destruct (JsString.truthy (Chat.userToken s)) eqn:?Htoken;
  [ destruct (NewThread.POST_threads env (Chat.userToken s))
      as [[[] [?data|]]|] eqn:?Hpost | ];
  cbn [negb Http.ok Http.json] in *.

Ltac run_new_chat :=
  unfold try_finally, NewThread.lift, Chat.commit, Chat.setThreads,
    Chat.setCurrentThreadId, Chat.setMessagesTo, Chat.setInputDisabled,
    Chat.when;
  repeat first
    [ progress (cbv [bind ret throw get modify emit try_catch];
                cbn -[insert lookup NewThread.initialMessage];
                use_equations)
    | match goal with
      | |- context [if ?b then _ else _] =>
          destruct b eqn:?; cbn -[insert lookup NewThread.initialMessage]
      end ].

(** ** The page's tool handler *)

(** The chat's handler is the one the page passes to it. *)
Definition handler_of_page (page : Page.Env) (token : option string)
    (s : Page.State) (env : Chat.Env) : Prop :=
  forall call,
    Chat.functionCallHandler env call
    = completion (Page.functionCallHandler page token call s).

(** A GET that succeeded with the body [data]. *)
Definition got (page : Page.Env) (token : option string)
    (data : Transform.JsValue) : Prop :=
  exists url response,
    Page.fetch page url "GET" token None = Some response
    /\ Page.ok response = true
    /\ Page.json response = Some data.

Definition posts_found : Transform.JsValue :=
  Transform.Object [("location", Transform.Str "Kabul")].

(** A site that answers every search with [posts_found]; the parser and
    the printer know the two texts used here. *)
Definition sample_page : Page.Env :=
  Page.mkEnv
    (fun _ => Some (Transform.Object
                      [("query", Transform.Str "water");
                       ("type", Transform.Str "problem")]))
    (fun _ => "{}")
    (fun _ _ => Some "https://site.example/api/v1/posts")
    (fun _ _ _ _ =>
       Some (Page.mkResponse true "200 OK" None (Some posts_found))).

Definition sample_page_state : Page.State :=
  Page.mkState (Transform.Object []) None.

(** The chat of the page [sample_page], with the token [t]. *)
Definition page_chat_env (token : option string) : Chat.Env :=
  Chat.mkEnv (Some "visitor")
    (fun _ _ => Some (Http.mkResponse true (Some (Chat.mkTokens 5))))
    (fun call =>
       completion
         (Page.functionCallHandler sample_page token call sample_page_state))
    (fun _ _ _ => Some (Http.mkResponse true (Some tt))).

Definition sample_batch : RequiresActionEvent :=
  mkRequiresActionEvent "run_1"
    [ToolCall.mk "call_1" "find_content" "{}";
     ToolCall.mk "call_2" "get_weather" "{}"].

Ltac page_step :=
  match goal with
  | |- context [Page.posts_url ?p ?a ?b] =>
      destruct (Page.posts_url p a b) as [?url|] eqn:?Hurl
  | |- context [Page.fetch ?p ?u ?m ?t ?b] =>
      destruct (Page.fetch p u m t b)
        as [[[] ?line [?errorData|] [?data|]]|] eqn:?Hfetch
  end.

Ltac page_cases page token call :=
  unfold Page.functionCallHandler, Page.makeAPIRequest, Page.destructure,
    Page.setWeatherData, Page.setError;
  destruct (Page.truthy token) eqn:?Htoken; cbn [negb];
  [ destruct (String.eqb (ToolCall.name call) "find_content") eqn:?Hname;
    [ destruct (Page.JSON_parse page (ToolCall.arguments call))
        as [[| | | | | |?fields]|] eqn:?Hparse
    | ]
  | ];
  repeat first
    [ progress
        (cbv [bind ret throw get modify emit try_catch];
         cbn [completion final trace Page.ok Page.text Page.json
              Page.status_line negb Page.weatherData Page.error app])
    | page_step ].

(** ** Token usage *)

(** The completion-token count that a parsed chunk reports: that of a
    completed message-creation step, when it is truthy. *)
Definition reported_usage (data : Transform.JsValue)
  : option Transform.JsValue :=
  match data with
  | Transform.Object fields =>
      if Transform.is_string (Transform.lookup_field "event" fields)
           "thread.run.step.completed"
      then
        match Transform.lookup_field "data" fields with
        | Transform.Object step =>
            if Transform.is_string (Transform.lookup_field "type" step)
                 "message_creation"
            then
              match Transform.lookup_field "usage" step with
              | Transform.Object usage =>
                  let completion_tokens :=
                    Transform.lookup_field "completion_tokens" usage in
                  if Transform.truthy completion_tokens
                  then Some completion_tokens
                  else None
              | _ => None
              end
            else None
        | _ => None
        end
      else None
  | _ => None
  end.

Definition chunk_usage (decode : Transform.Chunk -> string)
    (JSON_parse : string -> option Transform.JsValue)
    (chunk : Transform.Chunk) : option Transform.JsValue :=
  match JSON_parse (decode chunk) with
  | Some data => reported_usage data
  | None => None
  end.

(** The last count reported by the chunks of [body], or [window] when
    none reports one. *)
Definition recorded (decode : Transform.Chunk -> string)
    (JSON_parse : string -> option Transform.JsValue)
    (body : list Transform.Chunk) (window : option Transform.JsValue)
  : option Transform.JsValue :=
  fold_left
    (fun window chunk =>
       match chunk_usage decode JSON_parse chunk with
       | Some completion_tokens => Some completion_tokens
       | None => window
       end)
    body window.

Definition is_decrease (e : StreamEnd.Effect) : bool :=
  match e with
  | StreamEnd.PostDecrease _ _ => true
  | _ => false
  end.

(** The decrease request was answered ok with a body that parses. *)
Definition decreased (env : StreamEnd.Env) (userToken : string)
    (v : Transform.JsValue) : bool :=
  match StreamEnd.POST_tokens_decrease env userToken v with
  | Some tokenResponse =>
      Http.ok tokenResponse
      && match Http.json tokenResponse with Some _ => true | None => false end
  | None => false
  end.

(** A decoder and a parser for two chunks: byte 1 is a completed
    message-creation step that used 42 completion tokens, any other chunk
    is a text delta. *)
Definition sample_decode (chunk : Transform.Chunk) : string :=
  match chunk with
  | [b] => if Byte.eqb b Byte.x01 then "step" else "delta"
  | _ => "delta"
  end.

Definition sample_parse (text : string) : option Transform.JsValue :=
  if String.eqb text "step" then
    Some (Transform.Object
            [("event", Transform.Str "thread.run.step.completed");
             ("data",
              Transform.Object
                [("type", Transform.Str "message_creation");
                 ("usage",
                  Transform.Object
                    [("completion_tokens", Transform.Number 42)])])])
  else
    Some (Transform.Object [("event", Transform.Str "thread.message.delta")]).

Definition usage_body : list Transform.Chunk :=
  [[Byte.x02]; [Byte.x01]; [Byte.x02]].

Definition silent_body : list Transform.Chunk := [[Byte.x02]; [Byte.x02]].

Definition accepting_counter : StreamEnd.Env :=
  StreamEnd.mkEnv (fun _ _ => Some (Http.mkResponse true (Some tt)))
    (fun _ => Returned false).

Definition failing_counter : StreamEnd.Env :=
  StreamEnd.mkEnv (fun _ _ => Some (Http.mkResponse false None))
    (fun _ => Returned false).

(** ** The history of a thread *)

(** The messages the provider listed for [threadId], when the request
    succeeded and the list is not empty. *)
Definition listed (env : History.Env) (threadId : string)
  : option (list History.ProviderMessage) :=
  match History.GET_messages env threadId with
  | Some response =>
      if Http.ok response then
        match Http.json response with
        | Some body =>
            match History.data body with
            | Some (m :: l) => Some (m :: l)
            | _ => None
            end
        | None => None
        end
      else None
  | None => None
  end.

Definition oldest_first (l : list History.ProviderMessage) : Prop :=
  StronglySorted (fun a b => (History.created_at a <= History.created_at b)%Z)
    l.

(** The message has a [content] array. *)
Definition has_content (m : History.ProviderMessage) : bool :=
  match History.content m with
  | Some _ => true
  | None => false
  end.

Definition provider_message (at_ : Z) (role text : string)
  : History.ProviderMessage :=
  History.mkProviderMessage at_ role (Some [History.mkPart (Some text)]).

Definition sample_listing : list History.ProviderMessage :=
  [provider_message 30 "assistant" "class A {}";
   provider_message 20 "assistant"
     ("Needs" +:+ History.open_bracket +:+ "4:0"
      +:+ History.close_bracket +:+ " met");
   provider_message 10 "user" "hi"].

(** A provider that lists, after a message, one with no content. *)
Definition broken_history : History.Env :=
  History.mkEnv (fun _ =>
    Some (Http.mkResponse true
            (Some (History.mkMessageList
                     (Some [provider_message 10 "user" "hi";
                            History.mkProviderMessage 20 "assistant"
                              None]))))).

(** A provider that lists the newest message first. *)
Definition sample_history : History.Env :=
  History.mkEnv (fun _ =>
    Some (Http.mkResponse true
            (Some (History.mkMessageList (Some sample_listing))))).

Ltac history_cases env threadId :=
  unfold listed, History.fetchThreadMessages;
  destruct (History.GET_messages env threadId) as [[[] [[[[|?m ?l]|]]|]]|];
  cbn [Http.ok Http.json History.data negb].

(** * Properties *)

(** ** Laws of the effect monad *)

Lemma bind_get {S E A} (k : S -> M S E A) (s : S) : bind get k s = k s s.
Proof. unfold bind, get. by destruct (k s s). Qed.

Lemma bind_after {S E A B} (m : M S E A) (k : A -> M S E B) (s : S) (a : A) :
  completion (m s) = Returned a ->
  completion (bind m k s) = completion (k a (final (m s)))
  /\ final (bind m k s) = final (k a (final (m s))).
Proof.
  unfold bind. destruct (m s) as [c s1 t1]. cbn. intros ->.
  by destruct (k a s1).
Qed.

(** ** Thread synchroniser *)

Lemma includes_elem_of (l : list string) (x : string) :
  includes l x = true <-> x ∈ l.
Proof.
  unfold includes. rewrite existsb_exists. split.
  - intros (y & Hy & Heq). apply String.eqb_eq in Heq. subst y.
    by apply list_elem_of_In.
  - intros Hx. exists x. split; [by apply list_elem_of_In | apply String.eqb_refl].
Qed.

Lemma includes_not_elem_of (l : list string) (x : string) :
  includes l x = false <-> x ∉ l.
Proof.
  rewrite <- includes_elem_of. destruct (includes l x); split; congruence.
Qed.

(** A thread unknown to the cache but listed by the backend: one GET, no
    POST, and the cache becomes the backend's list. *)
Lemma sync_found_on_backend backend thread userToken cached ids :
  Thread.id thread ∉ cached ->
  Thread.id thread ∈ ids ->
  Sync.GET_chat_threads backend userToken
  = Some (Http.mkResponse true (Some (Sync.mkBackendResponse ids))) ->
  Sync.syncThreadWithBackend backend thread userToken
    (Sync.Browser (Some cached))
  = mkOutcome (Returned tt) (Sync.Browser (Some ids))
      [Sync.HttpGetThreads userToken].
Proof.
  intros Hcached Hids Hget.
  apply includes_not_elem_of in Hcached. apply includes_elem_of in Hids.
  unfold Sync.syncThreadWithBackend, Sync.fetchThreadsFromBackend,
    Sync.getThreadsFromLocalStorage, Sync.saveThreadsToLocalStorage.
  eff_unfold. simpl. rewrite Hcached. simpl. rewrite Hget. simpl.
  rewrite Hids. reflexivity.
Qed.

(** C2. With the cache holding the ids {A,B} and the backend registry
    answering {A,B,C}, synchronising thread C completes without a
    registration POST, and afterwards the cached id list contains C. *)
Theorem sync_thread_known_remotely
    backend thread userToken (A B C : string) (cached ids : list string) :
  list_to_set cached =@{gset string} {[A; B]} ->
  list_to_set ids =@{gset string} {[A; B; C]} ->
  C ≠ A -> C ≠ B ->
  Thread.id thread = C ->
  Sync.GET_chat_threads backend userToken
  = Some (Http.mkResponse true (Some (Sync.mkBackendResponse ids))) ->
  let o := Sync.syncThreadWithBackend backend thread userToken
             (Sync.Browser (Some cached)) in
  completion o = Returned tt
  /\ (forall e, e ∈ trace o -> Sync.is_post e = false)
  /\ exists cache', final o = Sync.Browser (Some cache') /\ C ∈ cache'.
Proof.
  intros Hcached Hids HCA HCB Hid Hget o.
  assert (Hnot : Thread.id thread ∉ cached).
  { rewrite Hid. intros Hin.
    assert (C ∈ (list_to_set cached : gset string)) as HC
      by by apply elem_of_list_to_set.
    rewrite Hcached in HC.
    apply elem_of_union in HC as [HC|HC];
      apply elem_of_singleton in HC; congruence. }
  assert (Hin : Thread.id thread ∈ ids).
  { rewrite Hid. apply (elem_of_list_to_set (C := gset string)).
    rewrite Hids. apply elem_of_union_r. by apply elem_of_singleton. }
  subst o. rewrite (sync_found_on_backend _ _ _ _ _ Hnot Hin Hget). simpl.
  split; [reflexivity|]. split.
  - intros e He. apply list_elem_of_singleton in He. by subst e.
  - exists ids. split; [reflexivity|]. by rewrite <- Hid.
Qed.

Lemma sync_thread_known_remotely_witness :
  let o := Sync.syncThreadWithBackend registry_ABC
             (Thread.mk "C" "New Chat" "" "" []) "token"
             (Sync.Browser (Some ["A"; "B"])) in
  completion o = Returned tt
  /\ (forall e, e ∈ trace o -> Sync.is_post e = false)
  /\ exists cache', final o = Sync.Browser (Some cache') /\ "C" ∈ cache'.
Proof.
  apply (sync_thread_known_remotely registry_ABC
           (Thread.mk "C" "New Chat" "" "" []) "token" "A" "B" "C"
           ["A"; "B"] ["A"; "B"; "C"]).
  - set_solver.
  - set_solver.
  - discriminate.
  - discriminate.
  - reflexivity.
  - reflexivity.
Defined.

(** C10. When the registry fetch fails (network error or non-ok response),
    fetchThreadsFromBackend returns {threads: []} and leaves the cached
    thread-id list as it was. *)
Theorem fetchThreadsFromBackend_failure backend userToken (w : Sync.Window) :
  fetch_failed (Sync.GET_chat_threads backend userToken) = true ->
  let o := Sync.fetchThreadsFromBackend backend userToken w in
  completion o = Returned (Sync.mkBackendResponse []) /\ final o = w.
Proof.
  intros Hfail o. subst o. unfold Sync.fetchThreadsFromBackend. eff_unfold.
  simpl. destruct (Sync.GET_chat_threads backend userToken) as [response|];
    simpl in *; [|done].
  rewrite Hfail. simpl. done.
Qed.

Lemma fetchThreadsFromBackend_failure_witness :
  let o := Sync.fetchThreadsFromBackend offline_backend "token"
             (Sync.Browser (Some ["A"; "B"])) in
  completion o = Returned (Sync.mkBackendResponse [])
  /\ final o = Sync.Browser (Some ["A"; "B"]).
Proof.
  apply (fetchThreadsFromBackend_failure offline_backend "token"
           (Sync.Browser (Some ["A"; "B"]))).
  reflexivity.
Defined.

(** The cache changes only when the response is ok and its body parses:
    it then holds the list of the body. *)
Lemma fetchThreadsFromBackend_overwrites backend userToken (w : Sync.Window) :
  final (Sync.fetchThreadsFromBackend backend userToken w) <> w ->
  exists ids,
    Sync.GET_chat_threads backend userToken
    = Some (Http.mkResponse true (Some (Sync.mkBackendResponse ids)))
    /\ final (Sync.fetchThreadsFromBackend backend userToken w)
       = Sync.Browser (Some ids).
Proof.
  unfold Sync.fetchThreadsFromBackend, Sync.saveThreadsToLocalStorage.
  eff_unfold. simpl.
  destruct (Sync.GET_chat_threads backend userToken) as [[[] [[ids]|]]|];
    simpl; try congruence.
  destruct w; simpl; [congruence|]. intros _. by exists ids.
Qed.

(** ** White space and [trim] *)

Lemma length_append (s1 s2 : string) :
  String.length (s1 +:+ s2) = String.length s1 + String.length s2.
Proof. induction s1 as [|a s1 IH]; simpl; [reflexivity | by rewrite IH]. Qed.

Lemma strip_first_token (t s : string) :
  In t JsString.white_space ->
  JsString.strip_first JsString.white_space (t +:+ s) = Some s.
Proof.
  intros Ht. unfold JsString.white_space in Ht. simpl in Ht.
  repeat (destruct Ht as [<-|Ht]; [reflexivity|]). destruct Ht.
Qed.

Lemma token_not_empty (t : string) :
  In t JsString.white_space -> 1 <= String.length t.
Proof.
  intros Ht. unfold JsString.white_space in Ht. simpl in Ht.
  repeat (destruct Ht as [<-|Ht]; [simpl; lia|]). destruct Ht.
Qed.

Lemma strip_all_white_space (s : string) :
  JsString.WhiteSpaceOnly s ->
  forall fuel, String.length s <= fuel ->
  JsString.strip_all JsString.white_space fuel s = EmptyString.
Proof.
  induction 1 as [|t s Ht Hs IH]; intros fuel Hfuel.
  - by destruct fuel.
  - rewrite length_append in Hfuel. pose proof (token_not_empty t Ht).
    destruct fuel as [|fuel]; [lia|]. cbn [JsString.strip_all].
    rewrite (strip_first_token t s Ht). apply IH. lia.
Qed.

(** [trim] of a string of white space is the empty string. *)
Lemma trim_white_space (s : string) :
  JsString.WhiteSpaceOnly s -> JsString.trim s = EmptyString.
Proof.
  intros Hs. unfold JsString.trim, JsString.trimStart.
  by rewrite (strip_all_white_space s Hs).
Qed.

(** ** The commit leaves the state cells alone *)

Lemma commit_ui (w : Chat.World) : Chat.ui (final (Chat.commit w)) = Chat.ui w.
Proof.
  unfold Chat.commit, Chat.when. eff_unfold. simpl.
  repeat match goal with
         | |- context [if ?b then _ else _] => destruct b; simpl
         end; reflexivity.
Qed.

Lemma commit_returns (w : Chat.World) :
  completion (Chat.commit w) = Returned tt.
Proof.
  unfold Chat.commit, Chat.when. eff_unfold. simpl.
  repeat match goal with
         | |- context [if ?b then _ else _] => destruct b; simpl
         end; reflexivity.
Qed.

Lemma dispatch_ui (h : Chat.Handler unit) (w : Chat.World) :
  Chat.ui (final (Chat.dispatch h w)) = Chat.ui (final (h w)).
Proof.
  unfold Chat.dispatch, try_finally. destruct (h w) as [c s1 t1].
  pose proof (commit_ui s1) as Hui.
  destruct (Chat.commit s1) as [[[]|e] s2 t2]; exact Hui.
Qed.

Lemma dispatch_completion (h : Chat.Handler unit) (w : Chat.World) :
  completion (Chat.dispatch h w) = completion (h w).
Proof.
  unfold Chat.dispatch, try_finally. destruct (h w) as [c s1 t1].
  pose proof (commit_returns s1) as Hc.
  destruct (Chat.commit s1) as [[[]|e] s2 t2]; [reflexivity | discriminate].
Qed.

Lemma dispatch_final (h : Chat.Handler unit) (w : Chat.World) :
  final (Chat.dispatch h w) = final (Chat.commit (final (h w))).
Proof.
  unfold Chat.dispatch, try_finally. destruct (h w) as [c s1 t1].
  cbn [final]. destruct (Chat.commit s1) as [[[]|e] s2 t2]; reflexivity.
Qed.

(** ** Tool-call deltas *)

(** C6. A tool-call delta whose kind is not code_interpreter, or which has
    no input, changes nothing: the handler returns with the world as it
    was and no effect, and the message list after the event is the one
    before it. *)
Theorem toolCallDelta_frame env render now delta (w : Chat.World) :
  StepToolCall.type delta <> "code_interpreter"
  \/ Chat.code_interpreter_input delta = None ->
  Chat.toolCallDelta render now delta w = mkOutcome (Returned tt) w []
  /\ Chat.messages (Chat.ui (final
       (Chat.dispatch
          (Chat.handleReadableStream env render now
             (StreamEvent.toolCallDelta delta)) w)))
     = Chat.messages (Chat.ui w).
Proof.
  intros Hkind.
  assert (Hframe :
    Chat.toolCallDelta render now delta w = mkOutcome (Returned tt) w []).
  { unfold Chat.toolCallDelta.
    destruct (String.eqb (StepToolCall.type delta) "code_interpreter") eqn:Heq;
      simpl; [|reflexivity].
    destruct Hkind as [Hne|Hnone].
    - apply String.eqb_eq in Heq. contradiction.
    - by rewrite Hnone. }
  split; [exact Hframe|].
  rewrite dispatch_ui. simpl. by rewrite Hframe.
Qed.

Lemma toolCallDelta_frame_witness :
  Chat.toolCallDelta sample_state "now"
    (StepToolCall.mk "function" None) sample_world
  = mkOutcome (Returned tt) sample_world []
  /\ Chat.messages (Chat.ui (final
       (Chat.dispatch
          (Chat.handleReadableStream sample_env sample_state "now"
             (StreamEvent.toolCallDelta (StepToolCall.mk "function" None)))
          sample_world)))
     = Chat.messages (Chat.ui sample_world).
Proof.
  apply (toolCallDelta_frame sample_env sample_state "now"
           (StepToolCall.mk "function" None) sample_world).
  left. discriminate.
Defined.

(** An empty input string is skipped as well. *)
Lemma toolCallDelta_empty_input render now (w : Chat.World) :
  Chat.toolCallDelta render now
    (StepToolCall.mk "code_interpreter"
       (Some (StepToolCall.mkCodeInterpreter (Some EmptyString)))) w
  = mkOutcome (Returned tt) w [].
Proof. reflexivity. Qed.

(** ** Submitting *)

(** C9. Submitting an input that is empty or only white space does
    nothing: no quota request, no call of sendMessage, and the state,
    message list and input included, is as before. *)
Theorem handleSubmit_blank env render (w : Chat.World) :
  JsString.WhiteSpaceOnly (Chat.userInput render) ->
  Chat.handleSubmit env render w
  = mkOutcome (Returned tt) w [Chat.PreventDefault].
Proof.
  intros Hblank. unfold Chat.handleSubmit.
  rewrite (trim_white_space _ Hblank). reflexivity.
Qed.

Lemma blank_input_white_space : JsString.WhiteSpaceOnly blank_input.
Proof.
  change blank_input with (" " +:+ " " +:+ Chat.LF +:+ " " +:+ "").
  repeat (apply JsString.wso_token;
          [unfold JsString.white_space, Chat.LF; simpl; tauto|]).
  apply JsString.wso_empty.
Defined.

Lemma handleSubmit_blank_witness :
  Chat.handleSubmit sample_env
    (Chat.set_userInput blank_input sample_state) sample_world
  = mkOutcome (Returned tt) sample_world [Chat.PreventDefault].
Proof.
  apply (handleSubmit_blank sample_env
           (Chat.set_userInput blank_input sample_state) sample_world).
  exact blank_input_white_space.
Defined.

(** C3. When a non-empty input is submitted and the quota endpoint, asked
    with the fingerprint and the user token, answers with tokens = 0, the
    message list grows by exactly one assistant message carrying the
    fixed upsell text, and sendMessage is not called. *)
Theorem handleSubmit_quota_exhausted
    env render (w : Chat.World) fingerprint utoken response :
  Chat.userInput render <> EmptyString ->
  let o := Chat.handleSubmit env render w in
  Chat.PostTokens fingerprint utoken ∈ trace o ->
  Chat.POST_tokens env fingerprint utoken = Some response ->
  Http.json response = Some (Chat.mkTokens 0) ->
  Chat.messages (Chat.ui (final o))
  = Chat.messages (Chat.ui w)
    ++ [Message.mk assistant Chat.upsell_text (Some true)]
  /\ forall text, Chat.CallSendMessage text ∉ trace o.
Proof.
  intros _ o Hasked Hreply Hzero. subst o. revert Hasked.
  unfold Chat.handleSubmit.
  destruct (JsString.truthy (JsString.trim (Chat.userInput render))).
  2:{ simpl. intros Hasked. apply list_elem_of_In in Hasked. simpl in Hasked.
      intuition congruence. }
  unfold Chat.setTokens, Chat.setMessages, Chat.setUserInput,
    Chat.setInputDisabled.
  eff_unfold. simpl.
  destruct (Chat.visitorId env) as [fp|]; simpl.
  2:{ intros Hasked. apply list_elem_of_In in Hasked. simpl in Hasked.
      intuition congruence. }
  destruct (Chat.POST_tokens env fp (Chat.userToken render))
    as [response'|] eqn:Hpost; simpl.
  2:{ intros Hasked. apply list_elem_of_In in Hasked. simpl in Hasked.
      destruct Hasked as [?|[Heq|Hrest]]; [congruence| |intuition congruence].
      injection Heq as <- <-. congruence. }
  destruct (Http.json response') as [data|] eqn:Hjson; simpl.
  2:{ intros Hasked. apply list_elem_of_In in Hasked. simpl in Hasked.
      destruct Hasked as [?|[Heq|Hrest]]; [congruence| |intuition congruence].
      injection Heq as <- <-. congruence. }
  destruct (Chat.data_tokens data >? 0)%Z eqn:Hpos; simpl.
  - intros Hasked. apply list_elem_of_In in Hasked. simpl in Hasked.
    destruct Hasked as [?|[Heq|Hrest]]; [congruence| |intuition congruence].
    injection Heq as <- <-. rewrite Hreply in Hpost.
    injection Hpost as <-. rewrite Hzero in Hjson. injection Hjson as <-.
    simpl in Hpos. discriminate.
  - intros Hasked. split; [reflexivity|].
    intros text Hin. apply list_elem_of_In in Hin. simpl in Hin.
    intuition congruence.
Qed.

Lemma handleSubmit_quota_exhausted_witness :
  let o := Chat.handleSubmit sample_env sample_state sample_world in
  Chat.messages (Chat.ui (final o))
  = Chat.messages (Chat.ui sample_world)
    ++ [Message.mk assistant Chat.upsell_text (Some true)]
  /\ forall text, Chat.CallSendMessage text ∉ trace o.
Proof.
  apply (handleSubmit_quota_exhausted sample_env sample_state sample_world
           "visitor" "token" (Http.mkResponse true (Some (Chat.mkTokens 0)))).
  - discriminate.
  - apply list_elem_of_In. vm_compute. tauto.
  - reflexivity.
  - reflexivity.
Defined.

(** ** The stream transform *)

Section Forwarding.
Context {S E : Type}.

Lemma quiet_ret {A} (a : A) : quiet (ret a : M S E A).
Proof. by intros s. Qed.

Lemma quiet_throw {A} (x : string) : quiet (throw x : M S E A).
Proof. by intros s. Qed.

Lemma quiet_modify (f : S -> S) : quiet (modify f : M S E unit).
Proof. by intros s. Qed.

Lemma quiet_bind {A B} (m : M S E A) (k : A -> M S E B) :
  quiet m -> (forall a, quiet (k a)) -> quiet (bind m k).
Proof.
  intros Hm Hk s. unfold bind. specialize (Hm s).
  destruct (m s) as [[a|x] s1 t1]; cbn in *; [|exact Hm].
  specialize (Hk a s1). destruct (k a s1) as [c s2 t2]. cbn in *.
  by rewrite Hm, Hk.
Qed.

Lemma forwards_emit (e : E) : forwards e (emit e : M S E unit).
Proof. by intros s. Qed.

Lemma forwards_throw (e : E) (x : string) :
  forwards e (throw x : M S E unit).
Proof. by intros s. Qed.

Lemma forwards_bind {A} (e : E) (m : M S E A) (k : A -> M S E unit) :
  quiet m -> (forall a, forwards e (k a)) -> forwards e (bind m k).
Proof.
  intros Hm Hk s. specialize (Hm s). unfold try_catch, bind.
  destruct (m s) as [[a|x] s1 t1]; cbn in *; subst t1.
  - specialize (Hk a s1). unfold try_catch in Hk.
    destruct (k a s1) as [[[]|y] s2 t2]; cbn in *; exact Hk.
  - by split.
Qed.
End Forwarding.

Lemma quiet_prop v key : quiet (Transform.prop v key).
Proof. destruct v; intros window; reflexivity. Qed.

Lemma quiet_optional_prop v key : quiet (Transform.optional_prop v key).
Proof. destruct v; intros window; reflexivity. Qed.

Create HintDb forwarding.

#[local] Hint Resolve quiet_ret quiet_throw quiet_modify quiet_prop
  quiet_optional_prop forwards_emit forwards_throw : forwarding.

Lemma transform_forwards_chunk decode JSON_parse chunk window :
  let o := Transform.transform decode JSON_parse chunk window in
  completion o = Returned tt /\ trace o = [Transform.Enqueue chunk].
Proof.
  unfold Transform.transform.
  destruct (JSON_parse (decode chunk)) as [data|];
    [|apply forwards_throw].
  apply forwards_bind; [auto with forwarding|]. intros event.
  apply forwards_bind.
  { destruct (Transform.is_string event _); [|auto with forwarding].
    apply quiet_bind; [auto with forwarding|]. intros step.
    apply quiet_bind; auto with forwarding. }
  intros is_message_creation.
  apply forwards_bind; [|auto with forwarding].
  destruct is_message_creation; [|auto with forwarding].
  apply quiet_bind; [auto with forwarding|]. intros step.
  apply quiet_bind; [auto with forwarding|]. intros usage.
  apply quiet_bind; [auto with forwarding|]. intros completion_tokens.
  destruct (Transform.truthy completion_tokens); auto with forwarding.
Qed.

Lemma pipeThrough_identity decode JSON_parse body window :
  let o := Transform.pipeThrough decode JSON_parse body window in
  completion o = Returned tt /\ Transform.enqueued o = body.
Proof.
  revert window. unfold Transform.pipeThrough, Transform.enqueued.
  induction body as [|chunk body IH]; intros window; [by split|].
  cbn [for_each]. unfold bind.
  destruct (transform_forwards_chunk decode JSON_parse chunk window)
    as [Hc Ht].
  destruct (Transform.transform decode JSON_parse chunk window)
    as [c s1 t1].
  cbn in Hc, Ht. subst c t1. destruct (IH s1) as [Hc' Ht'].
  destruct (for_each (Transform.transform decode JSON_parse) body s1)
    as [c2 s2 t2].
  cbn in *. split; [exact Hc'|]. by rewrite Ht'.
Qed.

(** A chunk that does not parse leaves the stored token count alone. *)
Lemma transform_malformed decode JSON_parse chunk window :
  JSON_parse (decode chunk) = None ->
  Transform.transform decode JSON_parse chunk window
  = mkOutcome (Returned tt) window [Transform.Enqueue chunk].
Proof. intros H. unfold Transform.transform. rewrite H. reflexivity. Qed.

(** C8. Whatever the decoder and the JSON parser make of it, every chunk
    given to the transform is forwarded as it is, exactly once, and the
    transform completes normally; so the chunks leaving the piped body
    are the chunks of the body, in order, a malformed one included. *)
Theorem transform_forwards_unmodified
    (decode : Transform.Chunk -> string)
    (JSON_parse : string -> option Transform.JsValue) :
  (forall chunk window,
      let o := Transform.transform decode JSON_parse chunk window in
      completion o = Returned tt /\ trace o = [Transform.Enqueue chunk])
  /\ (forall body window,
        let o := Transform.pipeThrough decode JSON_parse body window in
        completion o = Returned tt /\ Transform.enqueued o = body).
Proof.
  split.
  - apply transform_forwards_chunk.
  - apply pipeThrough_identity.
Qed.

(** ** Required actions *)

Lemma for_each_emit {S E A} (f : A -> E) (l : list A) (s : S) :
  for_each (fun x => emit (f x)) l s = mkOutcome (Returned tt) s (map f l).
Proof.
  induction l as [|x l IH]; [reflexivity|].
  cbn [for_each]. unfold bind. simpl. by rewrite IH.
Qed.

Lemma promise_all_resolves env (toolCalls : list ToolCall.t) :
  (forall toolCall, toolCall ∈ toolCalls ->
     exists result, Chat.functionCallHandler env toolCall = Returned result) ->
  exists outputs,
    Chat.promise_all env toolCalls = Returned outputs
    /\ Forall2 (output_of env) toolCalls outputs.
Proof.
  induction toolCalls as [|toolCall rest IH]; intros Hall.
  - exists []. split; [reflexivity | constructor].
  - destruct (Hall toolCall) as [result Hresult]; [by left|].
    destruct IH as (outputs & Hrest & Hout).
    { intros tc Htc. apply Hall. by right. }
    exists (mkToolCallOutput result (ToolCall.id toolCall) :: outputs).
    simpl. rewrite Hresult, Hrest. split; [reflexivity|].
    constructor; [by split | exact Hout].
Qed.

(** A rejected handler call: every handler has been called, the input is
    not disabled and nothing is posted. *)
Lemma handleRequiresAction_rejected env render event (w : Chat.World) e :
  Chat.promise_all env (tool_calls event) = Threw e ->
  Chat.handleRequiresAction env render event w
  = mkOutcome (Threw e) w (map Chat.CallFunctionHandler (tool_calls event)).
Proof.
  intros Hrej. unfold Chat.handleRequiresAction. unfold bind.
  rewrite for_each_emit. cbn [completion final trace]. rewrite Hrej.
  unfold throw. cbn [completion final trace]. by rewrite app_nil_r.
Qed.

Lemma promise_all_rejects env (toolCalls : list ToolCall.t) :
  (exists toolCall error,
     toolCall ∈ toolCalls
     /\ Chat.functionCallHandler env toolCall = Threw error) ->
  exists error, Chat.promise_all env toolCalls = Threw error.
Proof.
  intros (toolCall & error & Hin & Hrej).
  induction toolCalls as [|c rest IH]; [by apply elem_of_nil in Hin|].
  cbn [Chat.promise_all].
  destruct (Chat.functionCallHandler env c) as [result|e] eqn:Hc;
    [|by exists e].
  apply elem_of_cons in Hin as [->|Hin]; [congruence|].
  destruct (IH Hin) as [e He]. rewrite He. by exists e.
Qed.

(** C5. On a requires-action event the handler is called once for each
    tool call of the batch, in the batch's order, before anything else.
    When all the calls resolve, the input is then disabled and after that
    the pairs {output, tool_call_id} of the whole batch are posted as
    action results; nothing after the post is a handler call or a second
    post, and the input ends disabled when the post is accepted and
    enabled when it is not.  When a call rejects, the input is not
    disabled and nothing is posted: the state is as it was before the
    event. *)
Theorem handleRequiresAction_order env render event (w : Chat.World) :
  let o := Chat.handleRequiresAction env render event w in
  ((forall toolCall, toolCall ∈ tool_calls event ->
      exists result, Chat.functionCallHandler env toolCall = Returned result) ->
   exists outputs rest,
     Forall2 (output_of env) (tool_calls event) outputs
     /\ trace o
        = map Chat.CallFunctionHandler (tool_calls event)
          ++ Chat.SetInputDisabled true
             :: Chat.PostActions (Chat.currentThreadId render) (data_id event)
                  outputs
             :: rest
     /\ Forall (fun e => is_handler_call e = false
                         /\ is_post_actions e = false) rest
     /\ completion o = Returned tt
     /\ Chat.inputDisabled (Chat.ui (final o))
        = accepted env render (data_id event) outputs)
  /\ ((exists toolCall error,
         toolCall ∈ tool_calls event
         /\ Chat.functionCallHandler env toolCall = Threw error) ->
      trace o = map Chat.CallFunctionHandler (tool_calls event)
      /\ final o = w
      /\ exists error, completion o = Threw error).
Proof.
  cbv zeta. split.
  - intros Hall.
    destruct (promise_all_resolves env (tool_calls event) Hall)
      as (outputs & Hall' & Hout).
    unfold Chat.handleRequiresAction, bind.
    rewrite for_each_emit. cbn [completion final trace]. rewrite Hall'.
    unfold Chat.submitActionResult, Chat.setInputDisabled, accepted.
    eff_unfold. simpl.
    destruct (Chat.POST_actions env _ _ _) as [[[] ?]|] eqn:Hpost; simpl;
      eexists outputs, _; rewrite ?Hpost;
      (split; [exact Hout|]); (split; [reflexivity|]);
      repeat constructor.
  - intros Hrejects.
    destruct (promise_all_rejects env (tool_calls event) Hrejects)
      as [error Herror].
    rewrite (handleRequiresAction_rejected env render event w error Herror).
    cbn [completion final trace]. split; [reflexivity|].
    split; [reflexivity|]. by exists error.
Qed.

Lemma handleRequiresAction_order_witness :
  let o := Chat.handleRequiresAction sample_env sample_state two_calls
             sample_world in
  exists outputs rest,
    Forall2 (output_of sample_env) (tool_calls two_calls) outputs
    /\ trace o
       = map Chat.CallFunctionHandler (tool_calls two_calls)
         ++ Chat.SetInputDisabled true
            :: Chat.PostActions (Chat.currentThreadId sample_state)
                 (data_id two_calls) outputs
            :: rest
    /\ Forall (fun e => is_handler_call e = false
                        /\ is_post_actions e = false) rest
    /\ completion o = Returned tt
    /\ Chat.inputDisabled (Chat.ui (final o))
       = accepted sample_env sample_state (data_id two_calls) outputs.
Proof.
  apply (proj1 (handleRequiresAction_order sample_env sample_state two_calls
                  sample_world)).
  intros toolCall _. exists (Some "result"). reflexivity.
Defined.

(** C5 as stated fails in two ways.  When a handler call rejects, the
    input, enabled before the event, is not disabled by it: the handler
    calls are the only effects and nothing is posted.  When the calls
    resolve, the input is disabled only after every handler has been
    called, not before. *)
Lemma requires_action_counterexample :
  let rejected := Chat.handleRequiresAction rejecting_env sample_state
                    two_calls sample_world in
  let resolved := Chat.handleRequiresAction sample_env sample_state
                    two_calls sample_world in
  Chat.inputDisabled (Chat.ui sample_world) = false
  /\ Chat.inputDisabled (Chat.ui (final rejected)) = false
  /\ trace rejected = map Chat.CallFunctionHandler (tool_calls two_calls)
  /\ List.filter is_post_actions (trace rejected) = []
  /\ firstn 3 (trace resolved)
     = map Chat.CallFunctionHandler (tool_calls two_calls)
       ++ [Chat.SetInputDisabled true].
Proof. cbv zeta. repeat split; vm_compute; reflexivity. Qed.

(** ** Switching threads *)

Lemma switchThread_threads render threadId (w : Chat.World) :
  Chat.threads (Chat.ui (final (Chat.switchThread render threadId w)))
  = Chat.threads (Chat.ui w).
Proof.
  unfold Chat.switchThread, Chat.setCurrentThreadId, Chat.setMessagesTo,
    Chat.when.
  eff_unfold. simpl.
  destruct (find_thread threadId (Chat.threads render)); simpl; [|reflexivity].
  destruct (String.eqb _ threadId); simpl;
    destruct (JsString.truthy (Chat.userToken render)); reflexivity.
Qed.

Lemma switchThread_found render threadId thread (w : Chat.World) :
  find_thread threadId (Chat.threads render) = Some thread ->
  let o := Chat.switchThread render threadId w in
  completion o = Returned tt
  /\ Chat.messages (Chat.ui (final o)) = Thread.messages thread
  /\ Chat.currentThreadId (Chat.ui (final o)) = threadId.
Proof.
  intros Hfind. unfold Chat.switchThread, Chat.setCurrentThreadId,
    Chat.setMessagesTo, Chat.when.
  eff_unfold. simpl. rewrite Hfind. simpl.
  destruct (String.eqb _ threadId) eqn:Heq; simpl;
    destruct (JsString.truthy (Chat.userToken render)); simpl;
    repeat split; try reflexivity.
  all: by apply String.eqb_eq in Heq.
Qed.

Lemma switchThread_returns render threadId (w : Chat.World) :
  completion (Chat.switchThread render threadId w) = Returned tt.
Proof.
  unfold Chat.switchThread, Chat.setCurrentThreadId, Chat.setMessagesTo,
    Chat.when.
  eff_unfold. simpl.
  destruct (find_thread threadId (Chat.threads render)); simpl; [|reflexivity].
  destruct (String.eqb _ threadId); simpl;
    destruct (JsString.truthy (Chat.userToken render)); reflexivity.
Qed.

(** C7. For threads T1 and T2 of the thread list, T1 being the thread its
    id selects, switching to T2 and then back to T1 with nothing in
    between displays exactly T1's message list as the thread list held it
    before switching away, and leaves the thread list as it was.  The
    display is then what it was before switching away if, and only if, it
    showed that list of the thread then. *)
Theorem switch_back_restores (w : Chat.World) (T1 T2 : Thread.t) :
  find_thread (Thread.id T1) (Chat.threads (Chat.ui w)) = Some T1 ->
  T2 ∈ Chat.threads (Chat.ui w) ->
  let o := switch_there_and_back (Thread.id T2) (Thread.id T1) w in
  completion o = Returned tt
  /\ Chat.messages (Chat.ui (final o)) = Thread.messages T1
  /\ Chat.threads (Chat.ui (final o)) = Chat.threads (Chat.ui w)
  /\ (Chat.messages (Chat.ui (final o)) = Chat.messages (Chat.ui w)
      <-> Chat.messages (Chat.ui w) = Thread.messages T1).
Proof.
  intros Hfind _ o. subst o. unfold switch_there_and_back.
  assert (Hclick : forall threadId w',
    Chat.onThreadClick threadId w'
    = Chat.dispatch (Chat.switchThread (Chat.ui w') threadId) w')
    by (intros threadId w';
        exact (bind_get
                 (fun w0 => Chat.dispatch
                              (Chat.switchThread (Chat.ui w0) threadId)) w')).
  set (first := Chat.onThreadClick (Thread.id T2) w).
  assert (Hc1 : completion first = Returned tt).
  { unfold first. rewrite Hclick, dispatch_completion.
    apply switchThread_returns. }
  assert (Ht1 : Chat.threads (Chat.ui (final first)) = Chat.threads (Chat.ui w)).
  { unfold first. rewrite Hclick, dispatch_ui. apply switchThread_threads. }
  assert (Hfind' :
    find_thread (Thread.id T1) (Chat.threads (Chat.ui (final first))) = Some T1)
    by by rewrite Ht1.
  destruct (switchThread_found (Chat.ui (final first)) (Thread.id T1) T1
              (final first) Hfind') as (Hc2 & Hm2 & _).
  destruct (bind_after (Chat.onThreadClick (Thread.id T2))
              (fun _ => Chat.onThreadClick (Thread.id T1)) w tt Hc1)
    as [Hc Hf].
  rewrite Hc, Hf. fold first. rewrite Hclick.
  rewrite dispatch_completion, dispatch_ui.
  repeat split.
  - exact Hc2.
  - exact Hm2.
  - rewrite switchThread_threads. exact Ht1.
  - intros Hsame. by rewrite <- Hsame.
  - intros Hshown. by rewrite Hm2.
Qed.

Lemma switch_back_restores_witness :
  let o := switch_there_and_back (Thread.id other_thread)
             (Thread.id sample_thread) two_threads_world in
  completion o = Returned tt
  /\ Chat.messages (Chat.ui (final o)) = Thread.messages sample_thread
  /\ Chat.threads (Chat.ui (final o)) = Chat.threads (Chat.ui two_threads_world)
  /\ (Chat.messages (Chat.ui (final o))
      = Chat.messages (Chat.ui two_threads_world)
      <-> Chat.messages (Chat.ui two_threads_world)
          = Thread.messages sample_thread).
Proof.
  apply (switch_back_restores two_threads_world sample_thread other_thread).
  - reflexivity.
  - apply list_elem_of_In. simpl. tauto.
Defined.

(** C7 as stated fails after a submit answered with no quota: T1 is
    selected and both threads are in the list, the upsell message is on
    the display but not in T1's list, and switching to T2 and back does
    not display what was displayed before. *)
Lemma switch_back_counterexample :
  let shown := final (Chat.onSubmit sample_env two_threads_world) in
  let back := final (switch_there_and_back "T2" "T1" shown) in
  Chat.currentThreadId (Chat.ui shown) = "T1"
  /\ find_thread "T1" (Chat.threads (Chat.ui shown)) = Some sample_thread
  /\ find_thread "T2" (Chat.threads (Chat.ui shown)) = Some other_thread
  /\ Chat.messages (Chat.ui shown)
     = [Message.mk assistant "Hello" None; Chat.upsell_message]
  /\ Chat.messages (Chat.ui back) = [Message.mk assistant "Hello" None]
  /\ Chat.messages (Chat.ui back) <> Chat.messages (Chat.ui shown).
Proof.
  cbv zeta. repeat split; try (vm_compute; reflexivity).
  vm_compute. discriminate.
Qed.

(** What the display held beyond the thread's own list is not brought
    back: after a submit answered with tokens = 0 the upsell message is
    displayed but is not in the thread's list, and switching away and
    back displays the thread's list without it. *)
Lemma switch_back_shows_thread_list :
  let shown := final (Chat.onSubmit sample_env two_threads_world) in
  let back := final (switch_there_and_back "T2" "T1" shown) in
  Chat.messages (Chat.ui shown)
  = [Message.mk assistant "Hello" None; Chat.upsell_message]
  /\ find_thread "T1" (Chat.threads (Chat.ui shown)) = Some sample_thread
  /\ Chat.messages (Chat.ui back) = [Message.mk assistant "Hello" None].
Proof. cbv zeta. repeat split; vm_compute; reflexivity. Qed.

(** ** Message-list mutations *)

Lemma updateThread_outcome render threadId updates (w : Chat.World) :
  Chat.updateThread render threadId updates w
  = mkOutcome (Returned tt)
      (Chat.with_changed Chat.mark_threads
         (Chat.with_ui
            (Chat.set_threads
               (Chat.map_threads threadId updates (Chat.threads (Chat.ui w))))
            w))
      (sync_calls render threadId
         (Chat.map_threads threadId updates (Chat.threads (Chat.ui w)))).
Proof.
  unfold Chat.updateThread, Chat.setThreads, Chat.when, sync_calls.
  eff_unfold. cbv beta zeta. cbn [completion final trace].
  destruct (find_thread threadId _); cbn [completion final trace];
    [destruct (JsString.truthy (Chat.userToken render));
     cbn [completion final trace]|]; reflexivity.
Qed.

Lemma find_thread_map_threads threadId updates (l : list Thread.t) t :
  Thread.p_id updates = None ->
  find_thread threadId l = Some t ->
  find_thread threadId (Chat.map_threads threadId updates l)
  = Some (Thread.spread t updates).
Proof.
  intros Hid. unfold find_thread, Chat.map_threads.
  induction l as [|h l IH]; simpl; [discriminate|].
  destruct (String.eqb (Thread.id h) threadId) eqn:Heq; simpl.
  - intros Hh. injection Hh as Hh. subst t. rewrite Hid. cbn [default].
    by rewrite Heq.
  - rewrite Heq. exact IH.
Qed.

Lemma rebuild_message (m : Message.t) :
  Message.mk (Message.role m) (Message.text m) (Message.isHTML m) = m.
Proof. by destruct m. Qed.

Lemma append_empty_r (s : string) : s +:+ EmptyString = s.
Proof.
  induction s as [|a s IH]; [reflexivity|].
  change (String a (s +:+ EmptyString) = String a s). by rewrite IH.
Qed.

Lemma append_assoc (s1 s2 s3 : string) :
  (s1 +:+ s2) +:+ s3 = s1 +:+ (s2 +:+ s3).
Proof.
  induction s1 as [|a s1 IH]; [reflexivity|].
  change (String a ((s1 +:+ s2) +:+ s3) = String a (s1 +:+ (s2 +:+ s3))).
  by rewrite IH.
Qed.

Lemma appendToLastMessage_outcome render now text (w : Chat.World) init m :
  Chat.messages (Chat.ui w) = init ++ [m] ->
  let newMessages := init ++ [extended m text] in
  let u := Chat.updateThread render (Chat.currentThreadId render)
             (Chat.message_updates newMessages
                (Message.text (extended m text)) now) w in
  Chat.appendToLastMessage render now text w
  = mkOutcome (Returned tt)
      (Chat.with_changed Chat.mark_messages
         (Chat.with_ui (Chat.set_messages newMessages) (final u)))
      (trace u).
Proof.
  intros Hm newMessages u. unfold Chat.appendToLastMessage, Chat.setMessages.
  unfold bind at 1. unfold get at 1. cbn [completion final trace].
  rewrite Hm, last_snoc, removelast_last.
  fold (extended m text). fold newMessages.
  unfold bind at 1. unfold bind at 1. fold u.
  subst u. rewrite updateThread_outcome. cbn [completion final trace].
  eff_unfold. cbn [completion final trace]. by rewrite !app_nil_r.
Qed.

Lemma appendMessage_outcome render now role text (w : Chat.World) :
  let newMessages := Chat.messages (Chat.ui w) ++ [Message.mk role text None] in
  let u := Chat.updateThread render (Chat.currentThreadId render)
             (Chat.message_updates newMessages text now) w in
  Chat.appendMessage render now role text w
  = mkOutcome (Returned tt)
      (Chat.with_changed Chat.mark_messages
         (Chat.with_ui (Chat.set_messages newMessages) (final u)))
      (trace u).
Proof.
  intros newMessages u. unfold Chat.appendMessage, Chat.setMessages.
  unfold bind at 1. unfold get at 1. cbn [completion final trace].
  fold newMessages. unfold bind at 1. unfold bind at 1. fold u.
  subst u. rewrite updateThread_outcome. cbn [completion final trace].
  eff_unfold. cbn [completion final trace]. by rewrite !app_nil_r.
Qed.

(** ** Text deltas *)

Lemma replace_from_absent pat repl (s before : string) :
  JsString.includes pat s = false ->
  JsString.replace_from pat repl before 0 s = s.
Proof.
  revert before. induction s as [|c s IH]; intros before; [reflexivity|].
  cbn [JsString.includes JsString.replace_from].
  destruct (JsString.strip_prefix pat (String c s)); [discriminate|].
  intros Habsent. by rewrite IH.
Qed.

(** [replaceAll] of a pattern that does not occur changes nothing. *)
Lemma replaceAll_absent (s pat repl : string) :
  JsString.includes pat s = false -> JsString.replaceAll s pat repl = s.
Proof.
  destruct pat as [|a pat]; [by destruct s|]. apply replace_from_absent.
Qed.

Lemma annotate_inert annotations text (w : Chat.World) :
  forallb (inert_on text) annotations = true ->
  Chat.annotate annotations text w = mkOutcome (Returned text) w [].
Proof.
  induction annotations as [|a rest IH]; [reflexivity|].
  cbn [forallb Chat.annotate]. intros H.
  apply andb_prop in H as [Ha Hrest]. unfold inert_on in Ha.
  destruct (String.eqb (Annotation.type a) "file_path"); [|by apply IH].
  destruct (Annotation.file_path a) as [fp|]; [|discriminate].
  apply negb_true_iff in Ha. rewrite (replaceAll_absent _ _ _ Ha).
  by apply IH.
Qed.

Lemma annotateLastMessage_inert annotations (w : Chat.World) init m :
  forallb (inert_on (Message.text m)) annotations = true ->
  Chat.messages (Chat.ui w) = init ++ [m] ->
  Chat.annotateLastMessage annotations w
  = mkOutcome (Returned tt)
      (Chat.with_changed Chat.mark_messages
         (Chat.with_ui (Chat.set_messages (init ++ [m])) w))
      [].
Proof.
  intros Hinert Hm. unfold Chat.annotateLastMessage, Chat.setMessages.
  rewrite bind_get. rewrite Hm, last_snoc, removelast_last.
  cbv [bind]. rewrite (annotate_inert _ _ _ Hinert).
  eff_unfold. cbn. by rewrite rebuild_message.
Qed.

(** Without an annotation of type file_path, every annotation is inert. *)
Lemma plain_inert annotations text :
  existsb (fun a => String.eqb (Annotation.type a) "file_path") annotations
  = false ->
  forallb (inert_on text) annotations = true.
Proof.
  induction annotations as [|a rest IH]; [reflexivity|].
  cbn [existsb forallb]. intros H. apply orb_false_elim in H as [Ha Hrest].
  unfold inert_on at 1. rewrite Ha. by apply IH.
Qed.

Lemma plain_annotations_inert (deltas : list (string * TextDelta.t)) text :
  Forall (fun d => carries_file_path d.2 = false) deltas ->
  annotations_inert text deltas = true.
Proof.
  intros Hplain. revert text.
  induction Hplain as [|d deltas Hd _ IH]; intros text; [reflexivity|].
  cbn [annotations_inert]. rewrite IH, andb_true_r.
  unfold carries_file_path in Hd.
  destruct (TextDelta.annotations d.2); [by apply plain_inert | reflexivity].
Qed.

Lemma appendToLastMessage_messages render now text (w : Chat.World) init m :
  Chat.messages (Chat.ui w) = init ++ [m] ->
  let o := Chat.appendToLastMessage render now text w in
  completion o = Returned tt
  /\ Chat.messages (Chat.ui (final o)) = init ++ [extended m text].
Proof.
  intros Hm o. subst o.
  rewrite (appendToLastMessage_outcome render now text w init m Hm).
  rewrite updateThread_outcome. by cbn.
Qed.

Lemma handleTextDelta_inert render now delta (w : Chat.World) init m :
  match TextDelta.annotations delta with
  | Some annotations =>
      forallb (inert_on (Message.text m +:+ delta_text delta)) annotations
  | None => true
  end = true ->
  Chat.messages (Chat.ui w) = init ++ [m] ->
  let o := Chat.handleTextDelta render now delta w in
  completion o = Returned tt
  /\ Chat.messages (Chat.ui (final o))
     = init ++ [extended m (delta_text delta)].
Proof.
  intros Hinert Hm o. subst o.
  unfold Chat.handleTextDelta, delta_text in *.
  destruct delta as [[value|] [annotations|]];
    cbn [TextDelta.value TextDelta.annotations default] in *.
  - destruct (appendToLastMessage_messages render now value w init m Hm)
      as [Hc Hm'].
    destruct (bind_after (Chat.appendToLastMessage render now value)
                (fun _ => Chat.annotateLastMessage annotations) w tt Hc)
      as [Hbc Hbf].
    rewrite Hbc, Hbf.
    rewrite (annotateLastMessage_inert annotations _ init (extended m value)
               Hinert Hm').
    by cbn.
  - destruct (appendToLastMessage_messages render now value w init m Hm)
      as [Hc Hm'].
    destruct (bind_after (Chat.appendToLastMessage render now value)
                (fun _ => ret tt) w tt Hc) as [Hbc Hbf].
    rewrite Hbc, Hbf. by cbn.
  - destruct (bind_after (ret tt)
                (fun _ => Chat.annotateLastMessage annotations) w tt eq_refl)
      as [Hbc Hbf].
    rewrite Hbc, Hbf. cbn [ret final].
    rewrite append_empty_r in Hinert.
    rewrite (annotateLastMessage_inert annotations _ init m Hinert Hm).
    cbn. unfold extended. by rewrite append_empty_r, rebuild_message.
  - cbn. unfold extended. by rewrite append_empty_r, rebuild_message.
Qed.

Lemma extended_extended (m : Message.t) (s1 s2 : string) :
  extended (extended m s1) s2 = extended m (s1 +:+ s2).
Proof. unfold extended. simpl. by rewrite append_assoc. Qed.

Lemma consume_inert_deltas
    env render (deltas : list (string * TextDelta.t)) (w : Chat.World) init m :
  Chat.messages (Chat.ui w) = init ++ [m] ->
  annotations_inert (Message.text m) deltas = true ->
  let o := Chat.consume env render (text_deltas deltas) w in
  completion o = Returned tt
  /\ Chat.messages (Chat.ui (final o))
     = init ++ [extended m (concat_values deltas)].
Proof.
  intros Hm Hinert o. subst o. revert w m Hm Hinert.
  induction deltas as [|[now delta] deltas IH]; intros w m Hm Hinert.
  - cbn. unfold extended. by rewrite append_empty_r, rebuild_message.
  - cbn [annotations_inert snd] in Hinert.
    apply andb_prop in Hinert as [Hd Hrest].
    cbn [text_deltas map Chat.consume fst snd Chat.handleReadableStream].
    fold (text_deltas deltas).
    destruct (handleTextDelta_inert render now delta w init m Hd Hm)
      as [Hc Hm'].
    assert (Hsc : completion
              (Chat.dispatch (Chat.handleTextDelta render now delta) w)
            = Returned tt) by by rewrite dispatch_completion.
    assert (Hsm : Chat.messages (Chat.ui (final
              (Chat.dispatch (Chat.handleTextDelta render now delta) w)))
            = init ++ [extended m (delta_text delta)])
      by by rewrite dispatch_ui.
    destruct (bind_after
                (Chat.dispatch (Chat.handleTextDelta render now delta))
                (fun _ => Chat.consume env render (text_deltas deltas))
                w tt Hsc) as [Hbc Hbf].
    rewrite Hbc, Hbf.
    destruct (IH _ (extended m (delta_text delta)) Hsm Hrest) as [IHc IHm].
    split; [exact IHc|]. rewrite IHm, extended_extended. reflexivity.
Qed.

(** C1, as the code has it. On a message list that is not empty, a
    sequence of text-delta events in which no file_path annotation finds
    its text in the last message when it is applied (so, in particular, a
    sequence without file_path annotations) is consumed to the end, and
    then the last message is the former last message with all delta
    values appended to its text in arrival order, an absent value adding
    nothing; the messages before it are untouched. *)
Theorem text_deltas_concatenate
    env render (deltas : list (string * TextDelta.t)) (w : Chat.World) init m :
  Chat.messages (Chat.ui w) = init ++ [m] ->
  annotations_inert (Message.text m) deltas = true ->
  let o := Chat.consume env render (text_deltas deltas) w in
  completion o = Returned tt
  /\ Chat.messages (Chat.ui (final o))
     = init ++ [extended m (concat_values deltas)]
  /\ last_text (Chat.messages (Chat.ui (final o)))
     = Some (Message.text m +:+ concat_values deltas).
Proof.
  intros Hm Hinert o.
  destruct (consume_inert_deltas env render deltas w init m Hm Hinert)
    as [Hc Hfinal].
  split; [exact Hc|]. split; [exact Hfinal|].
  unfold last_text. subst o. by rewrite Hfinal, last_snoc.
Qed.

Lemma text_deltas_concatenate_witness :
  let o := Chat.consume sample_env sample_state (text_deltas plain_deltas)
             sample_world in
  completion o = Returned tt
  /\ Chat.messages (Chat.ui (final o))
     = [] ++ [extended (Message.mk assistant "Hello" None)
                (concat_values plain_deltas)]
  /\ last_text (Chat.messages (Chat.ui (final o)))
     = Some ("Hello" +:+ concat_values plain_deltas).
Proof.
  apply (text_deltas_concatenate sample_env sample_state plain_deltas
           sample_world [] (Message.mk assistant "Hello" None)).
  - reflexivity.
  - vm_compute. reflexivity.
Defined.

(** The same for deltas that carry no file_path annotation at all. *)
Lemma text_deltas_without_file_path
    env render (deltas : list (string * TextDelta.t)) (w : Chat.World) init m :
  Chat.messages (Chat.ui w) = init ++ [m] ->
  Forall (fun d => carries_file_path d.2 = false) deltas ->
  let o := Chat.consume env render (text_deltas deltas) w in
  completion o = Returned tt
  /\ Chat.messages (Chat.ui (final o))
     = init ++ [extended m (concat_values deltas)].
Proof.
  intros Hm Hplain. apply consume_inert_deltas; [exact Hm|].
  by apply plain_annotations_inert.
Qed.

(** C1 as stated fails on an annotated delta: the last message does not
    end up as its former text followed by the delta value, the annotated
    text having been replaced by the file URL. *)
Lemma text_delta_annotation_counterexample :
  let deltas := [("2024-01-01T00:00:01.000Z", annotated_delta)] in
  let o := Chat.consume sample_env sample_state (text_deltas deltas)
             sample_world in
  last_text (Chat.messages (Chat.ui sample_world)) = Some "Hello"
  /\ concat_values deltas = " see sandbox:/a.csv"
  /\ last_text (Chat.messages (Chat.ui (final o)))
     = Some "Hello see /api/files/F"
  /\ last_text (Chat.messages (Chat.ui (final o)))
     <> Some ("Hello" +:+ concat_values deltas).
Proof.
  cbv zeta. repeat split; try (vm_compute; reflexivity).
  vm_compute. discriminate.
Qed.

(** ** Thread bookkeeping of the mutations *)

Lemma find_thread_not_empty threadId (l : list Thread.t) t :
  find_thread threadId l = Some t -> (0 <? length l)%nat = true.
Proof. by destruct l. Qed.

(** After a commit with the thread list marked as changed, the thread
    list is what local storage holds for the user. *)
Lemma commit_persists_threads (w : Chat.World) :
  Chat.d_threads (Chat.changed w) = true ->
  (0 <? length (Chat.threads (Chat.ui w)))%nat = true ->
  JsString.truthy (Chat.userToken (Chat.ui w)) = true ->
  Chat.chat_threads (Chat.localStorage (final (Chat.commit w)))
    !! Chat.userToken (Chat.ui w)
  = Some (Chat.threads (Chat.ui w)).
Proof.
  intros Hd Hlen Htoken. unfold Chat.commit, Chat.when. eff_unfold.
  cbv beta zeta. cbn [completion final trace]. rewrite Hd, Hlen, Htoken.
  destruct (Chat.d_currentThreadId (Chat.changed w)),
    (Chat.d_messages (Chat.changed w)),
    (JsString.truthy (Chat.currentThreadId (Chat.ui w)));
    cbn; apply lookup_insert_eq.
Qed.

(** What [appendMessage] and [appendToLastMessage] leave behind: the
    thread of the run has the new list, its last text and the clock
    reading, and the thread list is written to local storage. *)
Lemma mutation_updates_thread render now newMessages lastText
    (w : Chat.World) t :
  find_thread (Chat.currentThreadId render) (Chat.threads (Chat.ui w))
  = Some t ->
  let u := Chat.updateThread render (Chat.currentThreadId render)
             (Chat.message_updates newMessages lastText now) w in
  let w' := final (Chat.commit
              (Chat.with_changed Chat.mark_messages
                 (Chat.with_ui (Chat.set_messages newMessages) (final u)))) in
  exists t',
    find_thread (Chat.currentThreadId render) (Chat.threads (Chat.ui w'))
    = Some t'
    /\ Thread.lastMessage t' = lastText
    /\ Thread.lastUpdated t' = now
    /\ Thread.messages t' = newMessages
    /\ Chat.messages (Chat.ui w') = newMessages
    /\ (JsString.truthy (Chat.userToken (Chat.ui w)) = true ->
        Chat.chat_threads (Chat.localStorage w') !! Chat.userToken (Chat.ui w)
        = Some (Chat.threads (Chat.ui w'))).
Proof.
  intros Hfind u w'. subst u w'. rewrite updateThread_outcome.
  cbn [final]. rewrite commit_ui.
  pose proof (find_thread_map_threads (Chat.currentThreadId render)
                (Chat.message_updates newMessages lastText now)
                (Chat.threads (Chat.ui w)) t eq_refl Hfind) as Hfind'.
  exists (Thread.spread t (Chat.message_updates newMessages lastText now)).
  cbn [Chat.ui Chat.with_changed Chat.with_ui Chat.set_messages
       Chat.set_threads Chat.threads Chat.messages].
  repeat split; try reflexivity; [exact Hfind'|].
  intros Htoken.
  match goal with
  | |- Chat.chat_threads (Chat.localStorage (final (Chat.commit ?w1))) !! _ = _ =>
      pose proof (commit_persists_threads w1) as Hp
  end.
  cbn in Hp. apply Hp; [reflexivity| |exact Htoken].
  exact (find_thread_not_empty _ _ _ Hfind').
Qed.

Lemma appendToLastMessage_updates_thread render now text
    (w : Chat.World) init m t :
  Chat.messages (Chat.ui w) = init ++ [m] ->
  find_thread (Chat.currentThreadId render) (Chat.threads (Chat.ui w))
  = Some t ->
  let w' := final (Chat.dispatch (Chat.appendToLastMessage render now text) w) in
  exists t',
    find_thread (Chat.currentThreadId render) (Chat.threads (Chat.ui w'))
    = Some t'
    /\ Thread.lastMessage t' = Message.text m +:+ text
    /\ Thread.lastUpdated t' = now
    /\ Thread.messages t' = init ++ [extended m text]
    /\ Chat.messages (Chat.ui w') = init ++ [extended m text]
    /\ (JsString.truthy (Chat.userToken (Chat.ui w)) = true ->
        Chat.chat_threads (Chat.localStorage w') !! Chat.userToken (Chat.ui w)
        = Some (Chat.threads (Chat.ui w'))).
Proof.
  intros Hm Hfind w'. subst w'. rewrite dispatch_final.
  rewrite (appendToLastMessage_outcome render now text w init m Hm).
  cbn [final].
  exact (mutation_updates_thread render now (init ++ [extended m text])
           (Message.text m +:+ text) w t Hfind).
Qed.

Lemma appendMessage_updates_thread render now role text (w : Chat.World) t :
  find_thread (Chat.currentThreadId render) (Chat.threads (Chat.ui w))
  = Some t ->
  let newMessages := Chat.messages (Chat.ui w) ++ [Message.mk role text None] in
  let w' := final (Chat.dispatch (Chat.appendMessage render now role text) w) in
  exists t',
    find_thread (Chat.currentThreadId render) (Chat.threads (Chat.ui w'))
    = Some t'
    /\ Thread.lastMessage t' = text
    /\ Thread.lastUpdated t' = now
    /\ Thread.messages t' = newMessages
    /\ Chat.messages (Chat.ui w') = newMessages
    /\ (JsString.truthy (Chat.userToken (Chat.ui w)) = true ->
        Chat.chat_threads (Chat.localStorage w') !! Chat.userToken (Chat.ui w)
        = Some (Chat.threads (Chat.ui w'))).
Proof.
  intros Hfind newMessages w'. subst w'. rewrite dispatch_final.
  rewrite (appendMessage_outcome render now role text w). cbn [final].
  exact (mutation_updates_thread render now newMessages text w t Hfind).
Qed.

Lemma annotate_pure annotations text (w : Chat.World) :
  final (Chat.annotate annotations text w) = w
  /\ trace (Chat.annotate annotations text w) = [].
Proof.
  revert text. induction annotations as [|a rest IH]; intros text; simpl;
    [by split|].
  destruct (String.eqb (Annotation.type a) "file_path"); [|apply IH].
  destruct (Annotation.file_path a); [apply IH | by split].
Qed.

(** [annotateLastMessage] never touches the thread list and never calls
    the synchroniser. *)
Lemma annotateLastMessage_threads annotations (w : Chat.World) :
  let o := Chat.annotateLastMessage annotations w in
  Chat.threads (Chat.ui (final o)) = Chat.threads (Chat.ui w)
  /\ trace o = [].
Proof.
  intros o. subst o. unfold Chat.annotateLastMessage, Chat.setMessages.
  rewrite bind_get.
  destruct (last (Chat.messages (Chat.ui w))) as [lastMessage|];
    [|by split].
  cbv [bind].
  destruct (annotate_pure annotations (Message.text lastMessage) w)
    as [Hf Ht].
  destruct (Chat.annotate annotations (Message.text lastMessage) w)
    as [[newText|e] s1 t1]; cbn in Hf, Ht; subst s1 t1; eff_unfold; cbn;
    by split.
Qed.

(** C4 at an annotating delta. The displayed last message is rewritten
    and the displayed list is stored, but the owning thread keeps its old
    messages, lastMessage and lastUpdated, the thread list is not written
    to local storage, and the synchroniser is not called. *)
Theorem annotation_leaves_thread_stale :
  let o := Chat.dispatch
             (Chat.handleReadableStream sample_env annotation_state
                "2024-01-01T00:00:09.000Z" annotation_event)
             annotation_world in
  completion o = Returned tt
  /\ Chat.messages (Chat.ui (final o))
     = [Message.mk user "report" None;
        Message.mk assistant "see /api/files/F" None]
  /\ find_thread "T1" (Chat.threads (Chat.ui (final o))) = Some annotation_thread
  /\ Thread.lastMessage annotation_thread = "see sandbox:/a.csv"
  /\ Thread.lastUpdated annotation_thread = "2024-01-01T00:00:00.000Z"
  /\ Chat.chat_threads (Chat.localStorage (final o)) !! "token" = None
  /\ Chat.current_thread_messages (Chat.localStorage (final o)) !! "token"
     = Some (Chat.messages (Chat.ui (final o)))
  /\ trace o = [Chat.ScrollToBottom].
Proof. cbv zeta. repeat split; vm_compute; reflexivity. Qed.

Example trim_1 : JsString.trim "  hi there
 " = "hi there".
Proof. reflexivity. Qed.

Example replaceAll_1 :
  JsString.replaceAll "a-b-c" "-" "$&$&" = "a--b--c".
Proof. reflexivity. Qed.

Example replaceAll_2 : JsString.replaceAll "aaa" "aa" "b" = "ba".
Proof. reflexivity. Qed.

Example replaceAll_3 : JsString.replaceAll "ab" "" "-" = "-a-b-".
Proof. reflexivity. Qed.

(** * Further properties *)

(** ** Thread synchroniser: every path *)

Lemma fetchThreadsFromBackend_outcome backend userToken (w : Sync.Window) :
  Sync.fetchThreadsFromBackend backend userToken w
  = match remote_ids backend userToken with
    | Some l =>
        mkOutcome (Returned (Sync.mkBackendResponse l)) (saved l w)
          [Sync.HttpGetThreads userToken]
    | None =>
        mkOutcome (Returned (Sync.mkBackendResponse [])) w
          [Sync.HttpGetThreads userToken;
           Sync.ConsoleError "Error fetching threads:"]
    end.
Proof.
  unfold Sync.fetchThreadsFromBackend, Sync.saveThreadsToLocalStorage,
    remote_ids.
  eff_unfold.
  destruct (Sync.GET_chat_threads backend userToken) as [[[] [[l]|]]|];
    cbn; try reflexivity.
  by destruct w.
Qed.

(** [syncThreadWithBackend], path by path. *)
Lemma syncThreadWithBackend_outcome backend thread userToken (w : Sync.Window) :
  Sync.syncThreadWithBackend backend thread userToken w
  = if includes (cached_ids w) (Thread.id thread)
    then mkOutcome (Returned tt) w []
    else
      match remote_ids backend userToken with
      | Some l =>
          if includes l (Thread.id thread)
          then mkOutcome (Returned tt) (saved l w)
                 [Sync.HttpGetThreads userToken]
          else registration_outcome backend thread userToken (cached_ids w)
                 (saved l w) [Sync.HttpGetThreads userToken]
      | None =>
          registration_outcome backend thread userToken (cached_ids w) w
            [Sync.HttpGetThreads userToken;
             Sync.ConsoleError "Error fetching threads:"]
      end.
Proof.
  unfold registration_outcome.
  sync_cases backend thread userToken w;
    sync_run_with fetchThreadsFromBackend_outcome;
    cbn [cached_ids saved Http.ok app]; use_equations; reflexivity.
Qed.

Ltac sync_paths backend thread userToken :=
  rewrite syncThreadWithBackend_outcome; unfold registration_outcome;
  use_equations;
  try (destruct (remote_ids backend userToken) as [?remote|] eqn:?Hremote);
  use_equations;
  try (destruct (Sync.visitorId backend) as [?fingerprint|] eqn:?Hvisitor);
  use_equations;
  try (destruct
         (Sync.POST_chat_threads backend userToken (Thread.id thread) _)
        as [[[] ?body]|] eqn:?Hpost);
  cbn [Http.ok completion final trace app].

(** X1. The synchroniser swallows every failure: whatever the registry,
    the fingerprint service and the window do, [syncThreadWithBackend]
    and [fetchThreadsFromBackend] return normally. *)
Theorem sync_never_throws backend thread userToken (w : Sync.Window) :
  completion (Sync.syncThreadWithBackend backend thread userToken w)
  = Returned tt
  /\ exists data,
       completion (Sync.fetchThreadsFromBackend backend userToken w)
       = Returned data.
Proof.
  split.
  - destruct (includes (cached_ids w) (Thread.id thread)) eqn:Hcached;
      [| destruct (remote_ids backend userToken) as [remote|] eqn:Hremote;
         [destruct (includes remote (Thread.id thread)) eqn:Hlisted|]];
      sync_paths backend thread userToken; reflexivity.
  - rewrite fetchThreadsFromBackend_outcome.
    destruct (remote_ids backend userToken); eauto.
Qed.

(** The cached path, shared by the properties below. *)
Lemma sync_cached_path backend thread userToken (w : Sync.Window) :
  Thread.id thread ∈ cached_ids w ->
  Sync.syncThreadWithBackend backend thread userToken w
  = mkOutcome (Returned tt) w [].
Proof.
  intros Hin. apply includes_elem_of in Hin.
  rewrite syncThreadWithBackend_outcome. by rewrite Hin.
Qed.

(** X2. A thread whose id is in the cached list is not synchronised
    again: no request is made and the cache is left as it is. *)
Theorem sync_cached_is_silent backend thread userToken (w : Sync.Window) :
  Thread.id thread ∈ cached_ids w ->
  Sync.syncThreadWithBackend backend thread userToken w
  = mkOutcome (Returned tt) w [].
Proof. apply sync_cached_path. Qed.

Lemma sync_cached_is_silent_witness :
  Sync.syncThreadWithBackend offline_backend thread_C "token"
    (Sync.Browser (Some ["A"; "C"]))
  = mkOutcome (Returned tt) (Sync.Browser (Some ["A"; "C"])) [].
Proof.
  apply (sync_cached_is_silent offline_backend thread_C "token"
           (Sync.Browser (Some ["A"; "C"]))).
  apply list_elem_of_In. simpl. tauto.
Defined.

(** X3. A thread that neither the cache nor the registry lists is
    registered with exactly one POST carrying the user token, the thread id
    and the fingerprint; when the POST is ok the cache becomes the list
    read at the start with the id appended, whatever the registry's own
    list was. *)
Theorem sync_registers_unknown
    backend thread userToken (w : Sync.Window) fingerprint response :
  Thread.id thread ∉ cached_ids w ->
  (forall l, remote_ids backend userToken = Some l -> Thread.id thread ∉ l) ->
  Sync.visitorId backend = Some fingerprint ->
  Sync.POST_chat_threads backend userToken (Thread.id thread) fingerprint
  = Some response ->
  Http.ok response = true ->
  let o := Sync.syncThreadWithBackend backend thread userToken w in
  completion o = Returned tt
  /\ List.filter Sync.is_post (trace o)
     = [Sync.HttpPostThread userToken (Thread.id thread) fingerprint]
  /\ final o = saved (cached_ids w ++ [Thread.id thread]) w.
Proof.
  intros Hcache Hremote Hvisitor Hpost Hok o. subst o.
  destruct response as [ok body]. cbn in Hok. subst ok.
  apply includes_not_elem_of in Hcache.
  destruct (remote_ids backend userToken) as [remote|] eqn:Hr;
    [ assert (Hl : includes remote (Thread.id thread) = false)
        by (apply includes_not_elem_of; eauto) | ];
    sync_paths backend thread userToken;
    repeat split; try reflexivity; by destruct w.
Qed.

Lemma sync_registers_unknown_witness :
  let o := Sync.syncThreadWithBackend empty_registry thread_C "token"
             (Sync.Browser (Some ["A"; "B"])) in
  completion o = Returned tt
  /\ List.filter Sync.is_post (trace o)
     = [Sync.HttpPostThread "token" (Thread.id thread_C) "visitor"]
  /\ final o
     = saved (cached_ids (Sync.Browser (Some ["A"; "B"])) ++ [Thread.id thread_C])
         (Sync.Browser (Some ["A"; "B"])).
Proof.
  apply (sync_registers_unknown empty_registry thread_C "token"
           (Sync.Browser (Some ["A"; "B"])) "visitor"
           (Http.mkResponse true (Some tt))).
  - intros Hin. apply list_elem_of_In in Hin. simpl in Hin.
    intuition discriminate.
  - intros l Hl. injection Hl as <-. apply not_elem_of_nil.
  - reflexivity.
  - reflexivity.
  - reflexivity.
Defined.

(** X4. A registration POST is made only for a thread that is neither in
    the cached list nor in the list the registry answered with, and it
    carries the user token, the thread's id and the fingerprint. *)
Theorem sync_post_only_when_unknown
    backend thread userToken (w : Sync.Window) (e : Sync.Effect) :
  e ∈ trace (Sync.syncThreadWithBackend backend thread userToken w) ->
  Sync.is_post e = true ->
  (Thread.id thread ∉ cached_ids w)
  /\ (forall l, remote_ids backend userToken = Some l -> Thread.id thread ∉ l)
  /\ exists fingerprint,
       Sync.visitorId backend = Some fingerprint
       /\ e = Sync.HttpPostThread userToken (Thread.id thread) fingerprint.
Proof.
  intros Hin Hpost. revert Hin.
  destruct (includes (cached_ids w) (Thread.id thread)) eqn:Hcached;
    [| destruct (remote_ids backend userToken) as [remote|] eqn:Hremote;
       [destruct (includes remote (Thread.id thread)) eqn:Hlisted|]];
    sync_paths backend thread userToken;
    intros Hin; apply list_elem_of_In in Hin; cbn [In] in Hin;
    repeat match goal with
           | H : _ \/ _ |- _ => destruct H as [H|H]
           | H : False |- _ => destruct H
           | H : _ = e |- _ => subst e; try discriminate
           end;
    (split; [ by apply includes_not_elem_of
            | split; [ intros l Hl; first [ discriminate
                                          | injection Hl as <-;
                                            by apply includes_not_elem_of ]
                     | eauto ] ]).
Qed.

Lemma sync_post_only_when_unknown_witness :
  (Thread.id thread_C ∉ cached_ids (Sync.Browser (Some ["A"; "B"])))
  /\ (forall l, remote_ids empty_registry "token" = Some l ->
                Thread.id thread_C ∉ l)
  /\ exists fingerprint,
       Sync.visitorId empty_registry = Some fingerprint
       /\ Sync.HttpPostThread "token" "C" "visitor"
          = Sync.HttpPostThread "token" (Thread.id thread_C) fingerprint.
Proof.
  apply (sync_post_only_when_unknown empty_registry thread_C "token"
           (Sync.Browser (Some ["A"; "B"]))
           (Sync.HttpPostThread "token" "C" "visitor")).
  - apply list_elem_of_In. vm_compute. tauto.
  - reflexivity.
Defined.

(** X5. A registration that fails (no fingerprint, a rejected fetch or a
    response that is not ok) is logged and not recorded: the thread's id is
    still absent from the cached list, so the next synchronisation tries
    again. *)
Theorem sync_failed_post_not_recorded
    backend thread userToken (w : Sync.Window) :
  Thread.id thread ∉ cached_ids w ->
  (forall l, remote_ids backend userToken = Some l -> Thread.id thread ∉ l) ->
  (forall fingerprint,
     Sync.visitorId backend = Some fingerprint ->
     fetch_failed
       (Sync.POST_chat_threads backend userToken (Thread.id thread) fingerprint)
     = true) ->
  let o := Sync.syncThreadWithBackend backend thread userToken w in
  (Thread.id thread ∉ cached_ids (final o))
  /\ Sync.ConsoleError "Error syncing thread with backend:" ∈ trace o.
Proof.
  intros Hcache Hremote Hfail o. subst o.
  assert (Hcache' := Hcache). apply includes_not_elem_of in Hcache'.
  destruct (remote_ids backend userToken) as [remote|] eqn:Hr;
    [ assert (Hl : includes remote (Thread.id thread) = false)
        by (apply includes_not_elem_of; eauto) | ];
    (destruct (Sync.visitorId backend) as [fingerprint|] eqn:Hv;
     [ specialize (Hfail fingerprint eq_refl);
       destruct (Sync.POST_chat_threads backend userToken (Thread.id thread)
                   fingerprint) as [[[] body]|] eqn:Hp;
       cbn in Hfail; try discriminate; clear Hfail
     | clear Hfail ]);
    sync_paths backend thread userToken;
    (split; [ try exact Hcache;
              destruct w as [|[cached|]]; cbn [saved cached_ids];
              first [ exact Hcache | apply not_elem_of_nil | eauto ]
            | apply list_elem_of_In; cbn [In];
              repeat first [ left; reflexivity | right ] ]).
Qed.

Lemma sync_failed_post_not_recorded_witness :
  let o := Sync.syncThreadWithBackend refusing_registry thread_C "token"
             (Sync.Browser (Some ["A"; "B"])) in
  (Thread.id thread_C ∉ cached_ids (final o))
  /\ Sync.ConsoleError "Error syncing thread with backend:" ∈ trace o.
Proof.
  apply (sync_failed_post_not_recorded refusing_registry thread_C "token"
           (Sync.Browser (Some ["A"; "B"]))).
  - intros Hin. apply list_elem_of_In in Hin. simpl in Hin.
    intuition discriminate.
  - intros l Hl. injection Hl as <-. apply not_elem_of_nil.
  - intros fingerprint _. reflexivity.
Defined.

(** X6. When the fingerprint is available and the registry accepts the
    registration, synchronising a thread in a browser leaves its id in the
    cached list: at most one POST is made, and synchronising the same
    thread again makes no request at all. *)
Theorem sync_twice_registers_once
    backend thread userToken cache fingerprint response :
  Sync.visitorId backend = Some fingerprint ->
  Sync.POST_chat_threads backend userToken (Thread.id thread) fingerprint
  = Some response ->
  Http.ok response = true ->
  let o1 := Sync.syncThreadWithBackend backend thread userToken
              (Sync.Browser cache) in
  let o2 := Sync.syncThreadWithBackend backend thread userToken (final o1) in
  length (List.filter Sync.is_post (trace o1)) <= 1
  /\ Thread.id thread ∈ cached_ids (final o1)
  /\ o2 = mkOutcome (Returned tt) (final o1) [].
Proof.
  intros Hvisitor Hpost Hok o1 o2.
  destruct response as [ok body]. cbn in Hok. subst ok.
  assert (H1 : length (List.filter Sync.is_post (trace o1)) <= 1
               /\ Thread.id thread ∈ cached_ids (final o1)).
  { subst o1 o2.
    destruct (includes (cached_ids (Sync.Browser cache)) (Thread.id thread))
      eqn:Hcached;
      [| destruct (remote_ids backend userToken) as [remote|] eqn:Hremote;
         [destruct (includes remote (Thread.id thread)) eqn:Hlisted|]];
      sync_paths backend thread userToken;
      (split; [ cbn; lia | ]);
      cbn [cached_ids saved];
      first [ by apply includes_elem_of
            | apply elem_of_app; right; by apply list_elem_of_singleton ]. }
  destruct H1 as [Hposts Hknown]. repeat split; [exact Hposts | exact Hknown |].
  subst o2. by apply sync_cached_path.
Qed.

Lemma sync_twice_registers_once_witness :
  let o1 := Sync.syncThreadWithBackend empty_registry thread_C "token"
              (Sync.Browser (Some ["A"; "B"])) in
  let o2 := Sync.syncThreadWithBackend empty_registry thread_C "token"
              (final o1) in
  length (List.filter Sync.is_post (trace o1)) <= 1
  /\ Thread.id thread_C ∈ cached_ids (final o1)
  /\ o2 = mkOutcome (Returned tt) (final o1) [].
Proof.
  apply (sync_twice_registers_once empty_registry thread_C "token"
           (Some ["A"; "B"]) "visitor" (Http.mkResponse true (Some tt)));
    reflexivity.
Defined.

(** ** Stream events: what each one does to the message list *)

Lemma strip_prefix_append (p s : string) :
  JsString.strip_prefix p (p +:+ s) = Some s.
Proof.
  induction p as [|a p IH]; [reflexivity|].
  change (JsString.strip_prefix (String a p) (String a (p +:+ s)) = Some s).
  cbn [JsString.strip_prefix]. by rewrite Ascii.eqb_refl.
Qed.

(** A string occurs in every string it is a part of. *)
Lemma includes_append (pat before after : string) :
  JsString.includes pat (before +:+ pat +:+ after) = true.
Proof.
  induction before as [|c before IH].
  - change (JsString.includes pat (pat +:+ after) = true).
    destruct pat as [|a pat]; [by destruct after|].
    change (JsString.includes (String a pat) (String a (pat +:+ after)) = true).
    cbn [JsString.includes].
    change (String a (pat +:+ after)) with (String a pat +:+ after).
    by rewrite strip_prefix_append.
  - change (JsString.includes pat (String c (before +:+ pat +:+ after)) = true).
    cbn [JsString.includes].
    by destruct (JsString.strip_prefix pat _).
Qed.

(** X7. An image-file-done event with file id F on a message list that is
    not empty appends the Markdown image reference to the last message and
    to no other: afterwards the text of the last message contains
    /api/files/F. *)
Theorem image_file_done_links_file
    env render now file_id (w : Chat.World) init m :
  Chat.messages (Chat.ui w) = init ++ [m] ->
  let o := Chat.dispatch
             (Chat.handleReadableStream env render now
                (StreamEvent.imageFileDone file_id)) w in
  completion o = Returned tt
  /\ Chat.messages (Chat.ui (final o))
     = init ++ [extended m (image_reference file_id)]
  /\ JsString.includes (Chat.file_url file_id)
       (Message.text m +:+ image_reference file_id) = true.
Proof.
  intros Hm o. subst o. rewrite dispatch_completion, dispatch_ui.
  cbn [Chat.handleReadableStream]. unfold Chat.handleImageFileDone.
  fold (image_reference file_id).
  destruct (appendToLastMessage_messages render now (image_reference file_id)
              w init m Hm) as [Hc Hfinal].
  split; [exact Hc|]. split; [exact Hfinal|].
  unfold image_reference, Chat.file_url.
  change "](/api/files/" with ("](" +:+ "/api/files/").
  rewrite <- !append_assoc.
  rewrite (append_assoc _ "/api/files/" file_id).
  rewrite (append_assoc _ ("/api/files/" +:+ file_id)).
  rewrite (append_assoc _ _ Chat.LF).
  rewrite (append_assoc ("/api/files/" +:+ file_id) ")" Chat.LF).
  apply includes_append.
Qed.

Lemma image_file_done_links_file_witness :
  let o := Chat.dispatch
             (Chat.handleReadableStream sample_env sample_state "now"
                (StreamEvent.imageFileDone "F")) sample_world in
  completion o = Returned tt
  /\ Chat.messages (Chat.ui (final o))
     = [] ++ [extended (Message.mk assistant "Hello" None)
                (image_reference "F")]
  /\ JsString.includes (Chat.file_url "F")
       (Message.text (Message.mk assistant "Hello" None)
        +:+ image_reference "F") = true.
Proof.
  apply (image_file_done_links_file sample_env sample_state "now" "F"
           sample_world [] (Message.mk assistant "Hello" None)).
  reflexivity.
Defined.

Lemma appendMessage_messages render now role text (w : Chat.World) :
  let o := Chat.appendMessage render now role text w in
  completion o = Returned tt
  /\ Chat.messages (Chat.ui (final o))
     = Chat.messages (Chat.ui w) ++ [Message.mk role text None].
Proof.
  intros o. subst o. rewrite appendMessage_outcome, updateThread_outcome.
  by cbn.
Qed.

(** X8. A text-created event appends exactly one empty assistant message
    and a tool-call-created event of kind code_interpreter exactly one
    empty code message, on any message list, the empty one included; a
    tool call of another kind appends nothing. The messages already there
    are untouched. *)
Theorem created_events_append_empty_message
    env render now event (w : Chat.World) :
  is_created event = true ->
  let o := Chat.dispatch (Chat.handleReadableStream env render now event) w in
  completion o = Returned tt
  /\ Chat.messages (Chat.ui (final o))
     = Chat.messages (Chat.ui w)
       ++ match created_message event with
          | Some m => [m]
          | None => []
          end.
Proof.
  intros Hcreated o. subst o. rewrite dispatch_completion, dispatch_ui.
  destruct event as [| | |toolCall| | |]; try discriminate;
    cbn [Chat.handleReadableStream created_message].
  - exact (appendMessage_messages render now assistant EmptyString w).
  - unfold Chat.toolCallCreated.
    destruct (String.eqb (StepToolCall.type toolCall) "code_interpreter");
      cbn [negb].
    + exact (appendMessage_messages render now code EmptyString w).
    + cbn. by rewrite app_nil_r.
Qed.

Lemma created_events_append_empty_message_witness :
  let o := Chat.dispatch
             (Chat.handleReadableStream sample_env sample_state "now"
                (StreamEvent.toolCallCreated
                   (StepToolCall.mk "code_interpreter" None)))
             sample_world in
  completion o = Returned tt
  /\ Chat.messages (Chat.ui (final o))
     = Chat.messages (Chat.ui sample_world)
       ++ match created_message
                  (StreamEvent.toolCallCreated
                     (StepToolCall.mk "code_interpreter" None)) with
          | Some m => [m]
          | None => []
          end.
Proof.
  apply (created_events_append_empty_message sample_env sample_state "now"
           (StreamEvent.toolCallCreated
              (StepToolCall.mk "code_interpreter" None)) sample_world).
  reflexivity.
Defined.

(** ** The thread of a run and the display *)

Lemma appendMessage_ui render now role text (w : Chat.World) :
  let newMessages := Chat.messages (Chat.ui w) ++ [Message.mk role text None] in
  Chat.appendMessage render now role text w
  = mkOutcome (Returned tt)
      (Chat.mkWorld
         (Chat.set_messages newMessages
            (Chat.set_threads
               (Chat.map_threads (Chat.currentThreadId render)
                  (Chat.message_updates newMessages text now)
                  (Chat.threads (Chat.ui w)))
               (Chat.ui w)))
         (Chat.localStorage w)
         (Chat.mark_messages (Chat.mark_threads (Chat.changed w))))
      (sync_calls render (Chat.currentThreadId render)
         (Chat.map_threads (Chat.currentThreadId render)
            (Chat.message_updates newMessages text now)
            (Chat.threads (Chat.ui w)))).
Proof.
  intros newMessages. rewrite appendMessage_outcome, updateThread_outcome.
  reflexivity.
Qed.

Lemma appendToLastMessage_ui render now text (w : Chat.World) init m :
  Chat.messages (Chat.ui w) = init ++ [m] ->
  let newMessages := init ++ [extended m text] in
  Chat.appendToLastMessage render now text w
  = mkOutcome (Returned tt)
      (Chat.mkWorld
         (Chat.set_messages newMessages
            (Chat.set_threads
               (Chat.map_threads (Chat.currentThreadId render)
                  (Chat.message_updates newMessages
                     (Message.text m +:+ text) now)
                  (Chat.threads (Chat.ui w)))
               (Chat.ui w)))
         (Chat.localStorage w)
         (Chat.mark_messages (Chat.mark_threads (Chat.changed w))))
      (sync_calls render (Chat.currentThreadId render)
         (Chat.map_threads (Chat.currentThreadId render)
            (Chat.message_updates newMessages (Message.text m +:+ text) now)
            (Chat.threads (Chat.ui w)))).
Proof.
  intros Hm newMessages.
  rewrite (appendToLastMessage_outcome render now text w init m Hm).
  rewrite updateThread_outcome. reflexivity.
Qed.

Lemma last_text_snoc (l : list Message.t) (m : Message.t) :
  last_text (l ++ [m]) = Some (Message.text m).
Proof. unfold last_text. by rewrite last_snoc. Qed.

Lemma last_text_some (l : list Message.t) text :
  last_text l = Some text ->
  exists init m, l = init ++ [m] /\ Message.text m = text.
Proof.
  unfold last_text. destruct (last l) as [m|] eqn:Hlast; [|discriminate].
  intros [= <-]. apply last_Some in Hlast as [init ->]. eauto.
Qed.

(** After [appendMessage], the thread of the run mirrors the display. *)
Lemma appendMessage_mirrors render now role text (w : Chat.World) t :
  find_thread (Chat.currentThreadId render) (Chat.threads (Chat.ui w))
  = Some t ->
  let o := Chat.appendMessage render now role text w in
  completion o = Returned tt
  /\ thread_mirrors_display (Chat.currentThreadId render) (final o).
Proof.
  intros Hfind o. subst o. rewrite appendMessage_ui. split; [reflexivity|].
  set (newMessages := Chat.messages (Chat.ui w) ++ [Message.mk role text None]).
  exists (Thread.spread t (Chat.message_updates newMessages text now)).
  cbn [final Chat.ui Chat.threads Chat.messages Chat.set_messages
       Chat.set_threads].
  split; [by apply find_thread_map_threads|]. split; [reflexivity|].
  unfold newMessages. by rewrite last_text_snoc.
Qed.

Lemma appendToLastMessage_mirrors render now text (w : Chat.World) :
  thread_mirrors_display (Chat.currentThreadId render) w ->
  let o := Chat.appendToLastMessage render now text w in
  completion o = Returned tt
  /\ thread_mirrors_display (Chat.currentThreadId render) (final o).
Proof.
  intros (t & Hfind & Hmessages & Hlast) o. subst o.
  destruct (last_text_some _ _ Hlast) as (init & m & Hm & Htext).
  rewrite (appendToLastMessage_ui render now text w init m Hm).
  split; [reflexivity|].
  exists (Thread.spread t
            (Chat.message_updates (init ++ [extended m text])
               (Message.text m +:+ text) now)).
  cbn [final Chat.ui Chat.threads Chat.messages Chat.set_messages
       Chat.set_threads].
  split; [by apply find_thread_map_threads|]. split; [reflexivity|].
  by rewrite last_text_snoc.
Qed.

(** The mirror property only looks at the thread list and the display. *)
Lemma mirror_same_lists threadId (w w' : Chat.World) :
  Chat.threads (Chat.ui w') = Chat.threads (Chat.ui w) ->
  Chat.messages (Chat.ui w') = Chat.messages (Chat.ui w) ->
  thread_mirrors_display threadId w -> thread_mirrors_display threadId w'.
Proof.
  intros Ht Hm (t & Hfind & Hmessages & Hlast). exists t.
  by rewrite Ht, Hm.
Qed.

Lemma annotateLastMessage_plain_mirrors threadId annotations (w : Chat.World) :
  existsb (fun a => String.eqb (Annotation.type a) "file_path") annotations
  = false ->
  thread_mirrors_display threadId w ->
  let o := Chat.annotateLastMessage annotations w in
  completion o = Returned tt /\ thread_mirrors_display threadId (final o).
Proof.
  intros Hplain Hmirror o. subst o.
  destruct Hmirror as (t & Hfind & Hmessages & Hlast).
  destruct (last_text_some _ _ Hlast) as (init & m & Hm & Htext).
  rewrite (annotateLastMessage_inert annotations w init m
             (plain_inert annotations _ Hplain) Hm).
  split; [reflexivity|]. exists t.
  cbn [final Chat.ui Chat.with_ui Chat.with_changed Chat.threads Chat.messages
       Chat.set_messages].
  by rewrite <- Hm.
Qed.

Lemma handleRequiresAction_lists env render event (w : Chat.World) outputs :
  Chat.promise_all env (tool_calls event) = Returned outputs ->
  let o := Chat.handleRequiresAction env render event w in
  completion o = Returned tt
  /\ Chat.threads (Chat.ui (final o)) = Chat.threads (Chat.ui w)
  /\ Chat.messages (Chat.ui (final o)) = Chat.messages (Chat.ui w)
  /\ same_session (Chat.ui w) (Chat.ui (final o)).
Proof.
  intros Hall o. subst o. unfold Chat.handleRequiresAction, bind.
  rewrite for_each_emit, Hall.
  unfold Chat.submitActionResult, Chat.setInputDisabled. eff_unfold.
  unfold same_session.
  destruct (Chat.POST_actions env _ _ _) as [[[] ?]|]; cbn;
    by repeat split.
Qed.

(** One plain event keeps the mirror. *)
Lemma plain_event_keeps_mirror env render now event (w : Chat.World) :
  plain_event env event = true ->
  thread_mirrors_display (Chat.currentThreadId render) w ->
  let o := Chat.handleReadableStream env render now event w in
  completion o = Returned tt
  /\ thread_mirrors_display (Chat.currentThreadId render) (final o).
Proof.
  intros Hplain Hmirror o. subst o.
  destruct event as [|[value annotations]|file_id|toolCall|delta|event|];
    cbn [Chat.handleReadableStream plain_event] in *.
  - destruct Hmirror as (t & Hfind & _).
    exact (appendMessage_mirrors render now assistant EmptyString w t Hfind).
  - apply negb_true_iff in Hplain. unfold carries_file_path in Hplain.
    cbn [TextDelta.annotations] in Hplain.
    unfold Chat.handleTextDelta. cbn [TextDelta.value TextDelta.annotations].
    assert (Hfirst :
      completion (match value with
                  | Some value0 => Chat.appendToLastMessage render now value0
                  | None => ret tt
                  end w) = Returned tt
      /\ thread_mirrors_display (Chat.currentThreadId render)
           (final (match value with
                   | Some value0 => Chat.appendToLastMessage render now value0
                   | None => ret tt
                   end w))).
    { destruct value as [value|];
        [exact (appendToLastMessage_mirrors render now value w Hmirror)
        | by split]. }
    destruct Hfirst as [Hc Hmirror'].
    destruct value as [value|]; destruct annotations as [annotations|].
    + destruct (bind_after (Chat.appendToLastMessage render now value)
                  (fun _ => Chat.annotateLastMessage annotations) w tt Hc)
        as [-> ->].
      by apply annotateLastMessage_plain_mirrors.
    + destruct (bind_after (Chat.appendToLastMessage render now value)
                  (fun _ => ret tt) w tt Hc) as [-> ->].
      by split.
    + destruct (bind_after (ret tt)
                  (fun _ => Chat.annotateLastMessage annotations) w tt Hc)
        as [-> ->].
      by apply annotateLastMessage_plain_mirrors.
    + by split.
  - exact (appendToLastMessage_mirrors render now _ w Hmirror).
  - unfold Chat.toolCallCreated.
    destruct (negb _); [by split|].
    destruct Hmirror as (t & Hfind & _).
    exact (appendMessage_mirrors render now code EmptyString w t Hfind).
  - unfold Chat.toolCallDelta.
    destruct (negb _); [by split|].
    destruct (Chat.code_interpreter_input delta) as [input|]; [|by split].
    destruct (negb _); [by split|].
    exact (appendToLastMessage_mirrors render now input w Hmirror).
  - destruct (Chat.promise_all env (tool_calls event)) as [outputs|e] eqn:Hall;
      [|discriminate].
    destruct (handleRequiresAction_lists env render event w outputs Hall)
      as (Hc & Ht & Hm & _).
    split; [exact Hc|]. by apply (mirror_same_lists _ w).
  - split; [reflexivity|]. by apply (mirror_same_lists _ w).
Qed.

Lemma dispatch_keeps_mirror threadId (h : Chat.Handler unit) (w : Chat.World) :
  thread_mirrors_display threadId (final (h w)) ->
  thread_mirrors_display threadId (final (Chat.dispatch h w)).
Proof.
  intros (t & Hfind & Hmessages & Hlast). exists t.
  by rewrite dispatch_ui.
Qed.

(** A run of plain events keeps the mirror, event after event. *)
Lemma consume_keeps_mirror env render events (w : Chat.World) :
  Forall (fun e => plain_event env e.2 = true) events ->
  thread_mirrors_display (Chat.currentThreadId render) w ->
  let o := Chat.consume env render events w in
  completion o = Returned tt
  /\ thread_mirrors_display (Chat.currentThreadId render) (final o).
Proof.
  intros Hplain. revert w.
  induction Hplain as [|[now event] events Hevent _ IH]; intros w Hmirror;
    [by split|].
  cbn [Chat.consume]. cbn [snd] in Hevent.
  destruct (plain_event_keeps_mirror env render now event w Hevent Hmirror)
    as [Hc Hmirror'].
  assert (Hdc : completion
            (Chat.dispatch (Chat.handleReadableStream env render now event) w)
          = Returned tt) by by rewrite dispatch_completion.
  destruct (bind_after
              (Chat.dispatch (Chat.handleReadableStream env render now event))
              (fun _ => Chat.consume env render events) w tt Hdc) as [-> ->].
  apply IH. by apply dispatch_keeps_mirror.
Qed.

(** X9. While a run's events carry no file_path annotation and no tool
    handler rejects, the run is consumed to the end and the thread of the
    run keeps mirroring the display: after every event its message list is
    the displayed list and its lastMessage is the text of the last
    displayed message. *)
Theorem run_keeps_thread_in_step env render events (w : Chat.World) :
  Forall (fun e => plain_event env e.2 = true) events ->
  thread_mirrors_display (Chat.currentThreadId render) w ->
  let o := Chat.consume env render events w in
  completion o = Returned tt
  /\ thread_mirrors_display (Chat.currentThreadId render) (final o).
Proof. apply consume_keeps_mirror. Qed.

Lemma run_keeps_thread_in_step_witness :
  let o := Chat.consume sample_env sample_state sample_run sample_world in
  completion o = Returned tt
  /\ thread_mirrors_display (Chat.currentThreadId sample_state) (final o).
Proof.
  apply (run_keeps_thread_in_step sample_env sample_state sample_run
           sample_world).
  - repeat constructor.
  - exists sample_thread. repeat split.
Defined.

(** X10. A run that begins with a text-created event brings the thread of
    the run back in step with the display, whatever the display held
    before (the user's message that the submit added to the display only,
    for one): provided the thread is in the list and the later events are
    plain, thread and display agree at the end. *)
Theorem text_created_resynchronises
    env render now events (w : Chat.World) t :
  find_thread (Chat.currentThreadId render) (Chat.threads (Chat.ui w))
  = Some t ->
  Forall (fun e => plain_event env e.2 = true) events ->
  let o := Chat.consume env render ((now, StreamEvent.textCreated) :: events) w in
  completion o = Returned tt
  /\ thread_mirrors_display (Chat.currentThreadId render) (final o).
Proof.
  intros Hfind Hplain o. subst o. cbn [Chat.consume Chat.handleReadableStream].
  destruct (appendMessage_mirrors render now assistant EmptyString w t Hfind)
    as [Hc Hmirror].
  assert (Hdc : completion
            (Chat.dispatch (Chat.handleTextCreated render now) w)
          = Returned tt) by by rewrite dispatch_completion.
  destruct (bind_after (Chat.dispatch (Chat.handleTextCreated render now))
              (fun _ => Chat.consume env render events) w tt Hdc) as [-> ->].
  apply consume_keeps_mirror; [exact Hplain|]. by apply dispatch_keeps_mirror.
Qed.

Lemma text_created_resynchronises_witness :
  let o := Chat.consume sample_env sample_state
             (("2024-01-01T00:00:00.000Z", StreamEvent.textCreated)
              :: sample_run) unsynced_world in
  completion o = Returned tt
  /\ thread_mirrors_display (Chat.currentThreadId sample_state) (final o).
Proof.
  apply (text_created_resynchronises sample_env sample_state
           "2024-01-01T00:00:00.000Z" sample_run unsynced_world sample_thread).
  - reflexivity.
  - repeat constructor.
Defined.

(** ** What a stream event leaves alone *)

Lemma bind_final {S E A B} (m : M S E A) (k : A -> M S E B) (s : S) :
  final (bind m k s)
  = match completion (m s) with
    | Returned a => final (k a (final (m s)))
    | Threw _ => final (m s)
    end.
Proof.
  unfold bind. destruct (m s) as [[a|e] s1 t1]; cbn [completion final];
    [|reflexivity].
  by destruct (k a s1).
Qed.

Lemma only_lists_differ_refl (s : Chat.ChatState) : only_lists_differ s s.
Proof. unfold only_lists_differ, same_session. by repeat split. Qed.

Lemma only_lists_differ_trans (s1 s2 s3 : Chat.ChatState) :
  only_lists_differ s1 s2 -> only_lists_differ s2 s3 ->
  only_lists_differ s1 s3.
Proof.
  unfold only_lists_differ, same_session.
  intros ((? & ? & ? & ?) & ?) ((? & ? & ? & ?) & ?).
  repeat split; congruence.
Qed.

Lemma snoc_or_nil {A} (l : list A) :
  l = [] \/ exists init x, l = init ++ [x].
Proof.
  destruct (last l) as [x|] eqn:Hlast.
  - right. apply last_Some in Hlast as [init ->]. eauto.
  - left. by apply last_None.
Qed.

Lemma appendToLastMessage_empty render now text (w : Chat.World) :
  Chat.messages (Chat.ui w) = [] ->
  Chat.appendToLastMessage render now text w
  = mkOutcome (Threw "TypeError: lastMessage is undefined") w [].
Proof.
  intros Hm. unfold Chat.appendToLastMessage, Chat.setMessages.
  rewrite bind_get, Hm. reflexivity.
Qed.

Lemma appendToLastMessage_frame render now text (w : Chat.World) :
  only_lists_differ (Chat.ui w)
    (Chat.ui (final (Chat.appendToLastMessage render now text w))).
Proof.
  destruct (snoc_or_nil (Chat.messages (Chat.ui w)))
    as [Hm|(init & m & Hm)].
  - rewrite (appendToLastMessage_empty _ _ _ _ Hm).
    apply only_lists_differ_refl.
  - rewrite (appendToLastMessage_ui render now text w init m Hm).
    unfold only_lists_differ, same_session. by repeat split.
Qed.

Lemma appendMessage_frame render now role text (w : Chat.World) :
  only_lists_differ (Chat.ui w)
    (Chat.ui (final (Chat.appendMessage render now role text w))).
Proof.
  rewrite appendMessage_ui. unfold only_lists_differ, same_session.
  by repeat split.
Qed.

Lemma annotateLastMessage_frame annotations (w : Chat.World) :
  only_lists_differ (Chat.ui w)
    (Chat.ui (final (Chat.annotateLastMessage annotations w))).
Proof.
  unfold Chat.annotateLastMessage, Chat.setMessages. rewrite bind_get.
  destruct (last (Chat.messages (Chat.ui w))) as [lastMessage|];
    [|apply only_lists_differ_refl].
  cbv [bind].
  destruct (annotate_pure annotations (Message.text lastMessage) w)
    as [Hf Ht].
  destruct (Chat.annotate annotations (Message.text lastMessage) w)
    as [[newText|e] s1 t1]; cbn in Hf, Ht; subst s1 t1; eff_unfold;
    unfold only_lists_differ, same_session; cbn; by repeat split.
Qed.

Lemma handleTextDelta_frame render now delta (w : Chat.World) :
  only_lists_differ (Chat.ui w)
    (Chat.ui (final (Chat.handleTextDelta render now delta w))).
Proof.
  unfold Chat.handleTextDelta. rewrite bind_final.
  destruct delta as [[value|] [annotations|]];
    cbn [TextDelta.value TextDelta.annotations].
  - destruct (completion (Chat.appendToLastMessage render now value w));
      [|apply appendToLastMessage_frame].
    eapply only_lists_differ_trans;
      [apply appendToLastMessage_frame | apply annotateLastMessage_frame].
  - destruct (completion (Chat.appendToLastMessage render now value w));
      apply appendToLastMessage_frame.
  - cbn. apply annotateLastMessage_frame.
  - cbn. apply only_lists_differ_refl.
Qed.

(** X11. A stream event whose handler completes changes neither the
    quota shown, nor the input text, nor the selected thread, nor the user
    token, and only requires-action and run-completed events set the
    input control. *)
Theorem stream_event_frame env render now event (w : Chat.World) :
  let o := Chat.dispatch (Chat.handleReadableStream env render now event) w in
  completion o = Returned tt ->
  same_session (Chat.ui w) (Chat.ui (final o))
  /\ (sets_input event = false ->
      Chat.inputDisabled (Chat.ui (final o)) = Chat.inputDisabled (Chat.ui w)).
Proof.
  cbv zeta. intros _. rewrite dispatch_ui.
  assert (Hlists :
    sets_input event = false ->
    only_lists_differ (Chat.ui w)
      (Chat.ui (final (Chat.handleReadableStream env render now event w)))).
  { destruct event as [|delta|file_id|toolCall|delta|event|];
      cbn [Chat.handleReadableStream sets_input]; intros Hsets;
      try discriminate.
    - exact (appendMessage_frame render now assistant EmptyString w).
    - apply handleTextDelta_frame.
    - apply appendToLastMessage_frame.
    - unfold Chat.toolCallCreated.
      destruct (negb _); [apply only_lists_differ_refl|].
      exact (appendMessage_frame render now code EmptyString w).
    - unfold Chat.toolCallDelta.
      destruct (negb _); [apply only_lists_differ_refl|].
      destruct (Chat.code_interpreter_input delta) as [input|];
        [|apply only_lists_differ_refl].
      destruct (negb _); [apply only_lists_differ_refl|].
      apply appendToLastMessage_frame. }
  destruct (sets_input event) eqn:Hsets.
  - split; [|discriminate].
    destruct event as [| | | | |event|]; try discriminate;
      cbn [Chat.handleReadableStream].
    + destruct (Chat.promise_all env (tool_calls event)) as [outputs|e]
        eqn:Hall.
      * by destruct (handleRequiresAction_lists env render event w outputs
                       Hall) as (_ & _ & _ & Hsession).
      * rewrite (handleRequiresAction_rejected env render event w e Hall).
        unfold same_session. by repeat split.
    + unfold same_session. by repeat split.
  - destruct (Hlists eq_refl) as [Hsession Hinput]. by split.
Qed.

Lemma stream_event_frame_witness :
  let o := Chat.dispatch
             (Chat.handleReadableStream sample_env sample_state
                "2024-01-01T00:00:01.000Z"
                (StreamEvent.textDelta (TextDelta.mk (Some " there") None)))
             sample_world in
  same_session (Chat.ui sample_world) (Chat.ui (final o))
  /\ (sets_input (StreamEvent.textDelta (TextDelta.mk (Some " there") None))
      = false ->
      Chat.inputDisabled (Chat.ui (final o))
      = Chat.inputDisabled (Chat.ui sample_world)).
Proof.
  apply (stream_event_frame sample_env sample_state
           "2024-01-01T00:00:01.000Z"
           (StreamEvent.textDelta (TextDelta.mk (Some " there") None))
           sample_world).
  reflexivity.
Defined.

(** ** [updateThread] *)

Lemma map_threads_absent threadId updates (l : list Thread.t) :
  find_thread threadId l = None -> Chat.map_threads threadId updates l = l.
Proof.
  unfold find_thread, Chat.map_threads.
  induction l as [|h l IH]; [reflexivity|]. cbn [find map].
  destruct (String.eqb (Thread.id h) threadId); [discriminate|].
  intros Hnone. by rewrite IH.
Qed.

(** X12. [updateThread] for an id that no thread of the list has changes
    no thread and starts no synchronisation. *)
Theorem updateThread_unknown_id render threadId updates (w : Chat.World) :
  find_thread threadId (Chat.threads (Chat.ui w)) = None ->
  let o := Chat.updateThread render threadId updates w in
  completion o = Returned tt
  /\ Chat.threads (Chat.ui (final o)) = Chat.threads (Chat.ui w)
  /\ trace o = [].
Proof.
  intros Hnone o. subst o. rewrite updateThread_outcome.
  rewrite (map_threads_absent _ _ _ Hnone). unfold sync_calls.
  rewrite Hnone. by repeat split.
Qed.

Lemma updateThread_unknown_id_witness :
  let o := Chat.updateThread sample_state "T9" title_update sample_world in
  completion o = Returned tt
  /\ Chat.threads (Chat.ui (final o)) = Chat.threads (Chat.ui sample_world)
  /\ trace o = [].
Proof.
  apply (updateThread_unknown_id sample_state "T9" title_update sample_world).
  reflexivity.
Defined.

Lemma map_threads_lookup threadId updates (l : list Thread.t) (i : nat) :
  Chat.map_threads threadId updates l !! i
  = (fun t => if String.eqb (Thread.id t) threadId
              then Thread.spread t updates else t) <$> l !! i.
Proof. unfold Chat.map_threads. apply list_lookup_fmap. Qed.

(** X13. [updateThread] keeps the thread list's length and order: the
    thread at each position is the one that was there, merged with the
    updates when its id is the given one and untouched otherwise; with
    updates that carry no id, the ids of the list stay the same. *)
Theorem updateThread_touches_only_its_thread
    render threadId updates (w : Chat.World) :
  let l := Chat.threads (Chat.ui w) in
  let l' := Chat.threads (Chat.ui (final
              (Chat.updateThread render threadId updates w))) in
  length l' = length l
  /\ (forall i t, l !! i = Some t ->
        l' !! i
        = Some (if String.eqb (Thread.id t) threadId
                then Thread.spread t updates else t))
  /\ (Thread.p_id updates = None -> map Thread.id l' = map Thread.id l).
Proof.
  cbv zeta. rewrite updateThread_outcome.
  cbn [final Chat.ui Chat.with_changed Chat.with_ui Chat.threads
       Chat.set_threads].
  split; [apply length_map|]. split.
  - intros i t Hi. by rewrite map_threads_lookup, Hi.
  - intros Hid. unfold Chat.map_threads. rewrite map_map.
    apply map_ext. intros t.
    destruct (String.eqb (Thread.id t) threadId); [|reflexivity].
    cbn. by rewrite Hid.
Qed.

(** ** [trim] is empty exactly on white space *)

Lemma strip_prefix_split (p s r : string) :
  JsString.strip_prefix p s = Some r -> s = p +:+ r.
Proof.
  revert s. induction p as [|a p IH]; intros s; cbn [JsString.strip_prefix].
  - by intros [= ->].
  - destruct s as [|b s]; [discriminate|].
    destruct (Ascii.eqb a b) eqn:Hab; [|discriminate].
    apply Ascii.eqb_eq in Hab. subst b. intros Hr.
    change (String a s = String a (p +:+ r)). by rewrite (IH s Hr).
Qed.

Lemma strip_first_split (toks : list string) (s r : string) :
  JsString.strip_first toks s = Some r ->
  exists t, In t toks /\ s = t +:+ r.
Proof.
  induction toks as [|t toks IH]; cbn [JsString.strip_first]; [discriminate|].
  destruct (JsString.strip_prefix t s) as [r'|] eqn:Hp.
  - intros [= ->]. exists t. split; [by left | by apply strip_prefix_split].
  - intros Hr. destruct (IH Hr) as (t' & Hin & Hs). exists t'.
    split; [by right | exact Hs].
Qed.

Lemma tokens_app (toks : list string) (a b : string) :
  Tokens toks a -> Tokens toks b -> Tokens toks (a +:+ b).
Proof.
  induction 1 as [|t s Ht Hs IH]; intros Hb; [exact Hb|].
  rewrite append_assoc. apply tokens_cons; [exact Ht | by apply IH].
Qed.

(** What [strip_all] removes is a run of tokens. *)
Lemma strip_all_split (toks : list string) (fuel : nat) (s : string) :
  exists ws, Tokens toks ws /\ s = ws +:+ JsString.strip_all toks fuel s.
Proof.
  revert s. induction fuel as [|fuel IH]; intros s; cbn [JsString.strip_all].
  - exists EmptyString. split; [constructor | reflexivity].
  - destruct (JsString.strip_first toks s) as [r|] eqn:Hr.
    + destruct (strip_first_split _ _ _ Hr) as (t & Ht & ->).
      destruct (IH r) as (ws & Hws & Hsplit).
      exists (t +:+ ws). split; [by apply tokens_cons|].
      rewrite append_assoc. by rewrite <- Hsplit.
    + exists EmptyString. split; [constructor | reflexivity].
Qed.

Lemma strip_first_empty (toks : list string) :
  (forall t, In t toks -> 1 <= String.length t) ->
  JsString.strip_first toks EmptyString = None.
Proof.
  induction toks as [|t toks IH]; intros Hlen; [reflexivity|].
  cbn [JsString.strip_first].
  destruct t as [|a t]; [specialize (Hlen EmptyString (or_introl eq_refl));
                         cbn in Hlen; lia|].
  cbn [JsString.strip_prefix]. apply IH. intros t' Ht'. apply Hlen. by right.
Qed.

(** With enough fuel, [strip_all] stops only where no token starts. *)
Lemma strip_all_stable (toks : list string) (fuel : nat) (s : string) :
  (forall t, In t toks -> 1 <= String.length t) ->
  String.length s <= fuel ->
  JsString.strip_first toks (JsString.strip_all toks fuel s) = None.
Proof.
  intros Hlen. revert s.
  induction fuel as [|fuel IH]; intros s Hfuel; cbn [JsString.strip_all].
  - destruct s; [by apply strip_first_empty | cbn in Hfuel; lia].
  - destruct (JsString.strip_first toks s) as [r|] eqn:Hr; [|exact Hr].
    apply IH. destruct (strip_first_split _ _ _ Hr) as (t & Ht & ->).
    rewrite length_append in Hfuel. specialize (Hlen t Ht). lia.
Qed.

Lemma rev_app_acc (s acc : string) :
  String.rev_app s acc = String.rev_app s EmptyString +:+ acc.
Proof.
  revert acc. induction s as [|a s IH]; intros acc; [reflexivity|].
  cbn [String.rev_app]. rewrite (IH (String a acc)), (IH (String a EmptyString)).
  by rewrite append_assoc.
Qed.

Lemma rev_cons (a : ascii) (s : string) :
  String.rev (String a s) = String.rev s +:+ String a EmptyString.
Proof. unfold String.rev. cbn [String.rev_app]. apply rev_app_acc. Qed.

Lemma rev_append (a b : string) :
  String.rev (a +:+ b) = String.rev b +:+ String.rev a.
Proof.
  induction a as [|c a IH].
  - change (String.rev b = String.rev b +:+ EmptyString).
    by rewrite append_empty_r.
  - change (String.rev (String c (a +:+ b))
            = String.rev b +:+ String.rev (String c a)).
    by rewrite !rev_cons, IH, append_assoc.
Qed.

Lemma rev_involutive (s : string) : String.rev (String.rev s) = s.
Proof.
  induction s as [|a s IH]; [reflexivity|].
  rewrite rev_cons, rev_append, IH. reflexivity.
Qed.

Lemma rev_empty (s : string) : String.rev s = EmptyString -> s = EmptyString.
Proof. intros H. rewrite <- (rev_involutive s). by rewrite H. Qed.

Lemma tokens_rev (toks : list string) (s : string) :
  Tokens (map String.rev toks) s -> Tokens toks (String.rev s).
Proof.
  induction 1 as [|t s Ht Hs IH]; [constructor|].
  apply in_map_iff in Ht as (t0 & <- & Ht0).
  rewrite rev_append, rev_involutive.
  apply tokens_app; [exact IH|].
  rewrite <- (append_empty_r t0). apply tokens_cons; [exact Ht0 | constructor].
Qed.

Lemma tokens_white_space (s : string) :
  Tokens JsString.white_space s <-> JsString.WhiteSpaceOnly s.
Proof.
  split; induction 1; try constructor; try assumption.
Qed.

(** [trim] gives the empty string on white space only. *)
Lemma trim_empty_white_space (s : string) :
  JsString.trim s = EmptyString -> JsString.WhiteSpaceOnly s.
Proof.
  unfold JsString.trim, JsString.trimEnd. intros Hempty.
  apply rev_empty in Hempty.
  set (r := JsString.trimStart s) in *.
  destruct (strip_all_split (map String.rev JsString.white_space)
              (String.length r) (String.rev r)) as (ws' & Hws' & Hsplit).
  rewrite Hempty, append_empty_r in Hsplit. subst ws'.
  apply tokens_rev in Hws'. rewrite rev_involutive in Hws'.
  assert (Hstable : JsString.strip_first JsString.white_space r = None).
  { unfold r, JsString.trimStart. apply strip_all_stable; [|lia].
    apply token_not_empty. }
  assert (Hr : r = EmptyString).
  { destruct Hws' as [|t r' Ht Hr']; [reflexivity|].
    by rewrite (strip_first_token t r' Ht) in Hstable. }
  destruct (strip_all_split JsString.white_space (String.length s) s)
    as (ws & Hws & Hs).
  fold (JsString.trimStart s) in Hs. fold r in Hs.
  rewrite Hr, append_empty_r in Hs. subst ws. by apply tokens_white_space.
Qed.

Lemma trim_truthy (s : string) :
  ~ JsString.WhiteSpaceOnly s ->
  JsString.truthy (JsString.trim s) = true.
Proof.
  intros Hnot. destruct (JsString.trim s) eqn:Htrim; [|reflexivity].
  destruct Hnot. by apply trim_empty_white_space.
Qed.

(** ** Submitting: every path past the guard *)

Lemma sample_input_not_blank :
  ~ JsString.WhiteSpaceOnly (Chat.userInput sample_state).
Proof. intros Hws. apply trim_white_space in Hws. discriminate. Qed.

(** The guard, shared by the properties below. *)
Lemma handleSubmit_guard_blank env render (w : Chat.World) :
  JsString.WhiteSpaceOnly (Chat.userInput render) ->
  Chat.handleSubmit env render w
  = mkOutcome (Returned tt) w [Chat.PreventDefault].
Proof.
  intros Hblank. unfold Chat.handleSubmit.
  rewrite (trim_white_space _ Hblank). reflexivity.
Qed.

(** X14. A submit of an input that is not only white space, answered
    with a positive quota, calls sendMessage exactly once with the input
    as typed, appends the user's message to the display, clears the input,
    stores the quota and leaves the input control enabled. *)
Theorem handleSubmit_with_quota env render (w : Chat.World) n :
  ~ JsString.WhiteSpaceOnly (Chat.userInput render) ->
  quota_reply env render = Some n ->
  (0 < n)%Z ->
  let o := Chat.handleSubmit env render w in
  completion o = Returned tt
  /\ List.filter is_send (trace o)
     = [Chat.CallSendMessage (Chat.userInput render)]
  /\ Chat.messages (Chat.ui (final o))
     = Chat.messages (Chat.ui w)
       ++ [Message.mk user (Chat.userInput render) None]
  /\ Chat.userInput (Chat.ui (final o)) = EmptyString
  /\ Chat.tokens (Chat.ui (final o)) = n
  /\ Chat.inputDisabled (Chat.ui (final o)) = false.
Proof.
  intros Hinput Hquota Hpos o. subst o. apply trim_truthy in Hinput.
  revert Hquota. unfold quota_reply.
  submit_cases env render Hinput; cbn [fmap option_fmap option_map];
    intros Hquota; try discriminate; injection Hquota as ->.
  - by repeat split.
  - pose proof (Zgt_cases n 0) as Hcases. rewrite Hpositive in Hcases. lia.
Qed.

Lemma handleSubmit_with_quota_witness :
  let o := Chat.handleSubmit granting_env sample_state sample_world in
  completion o = Returned tt
  /\ List.filter is_send (trace o)
     = [Chat.CallSendMessage (Chat.userInput sample_state)]
  /\ Chat.messages (Chat.ui (final o))
     = Chat.messages (Chat.ui sample_world)
       ++ [Message.mk user (Chat.userInput sample_state) None]
  /\ Chat.userInput (Chat.ui (final o)) = EmptyString
  /\ Chat.tokens (Chat.ui (final o)) = 7%Z
  /\ Chat.inputDisabled (Chat.ui (final o)) = false.
Proof.
  apply (handleSubmit_with_quota granting_env sample_state sample_world 7%Z).
  - exact sample_input_not_blank.
  - reflexivity.
  - reflexivity.
Defined.

(** X15. When the quota check itself fails (no fingerprint, a rejected
    request or a body that does not parse), a submit of an input that is
    not only white space alerts the user and does nothing else: no
    message is appended, sendMessage is not called, the stored quota and
    the input text stay, and the input control is enabled. *)
Theorem handleSubmit_check_fails env render (w : Chat.World) :
  ~ JsString.WhiteSpaceOnly (Chat.userInput render) ->
  quota_reply env render = None ->
  let o := Chat.handleSubmit env render w in
  completion o = Returned tt
  /\ quota_alert ∈ trace o
  /\ List.filter is_send (trace o) = []
  /\ Chat.messages (Chat.ui (final o)) = Chat.messages (Chat.ui w)
  /\ Chat.tokens (Chat.ui (final o)) = Chat.tokens (Chat.ui w)
  /\ Chat.userInput (Chat.ui (final o)) = Chat.userInput (Chat.ui w)
  /\ Chat.inputDisabled (Chat.ui (final o)) = false.
Proof.
  intros Hinput Hquota o. subst o. apply trim_truthy in Hinput.
  revert Hquota. unfold quota_reply.
  submit_cases env render Hinput; cbn [fmap option_fmap option_map];
    intros Hquota; try discriminate;
    (repeat split; try reflexivity);
    apply list_elem_of_In; cbn [In]; unfold quota_alert;
    repeat first [ left; reflexivity | right ].
Qed.

Lemma handleSubmit_check_fails_witness :
  let o := Chat.handleSubmit unreachable_env sample_state sample_world in
  completion o = Returned tt
  /\ quota_alert ∈ trace o
  /\ List.filter is_send (trace o) = []
  /\ Chat.messages (Chat.ui (final o)) = Chat.messages (Chat.ui sample_world)
  /\ Chat.tokens (Chat.ui (final o)) = Chat.tokens (Chat.ui sample_world)
  /\ Chat.userInput (Chat.ui (final o)) = Chat.userInput (Chat.ui sample_world)
  /\ Chat.inputDisabled (Chat.ui (final o)) = false.
Proof.
  apply (handleSubmit_check_fails unreachable_env sample_state sample_world).
  - exact sample_input_not_blank.
  - reflexivity.
Defined.

(** X16. A quota that is zero or negative counts as exhausted: the submit
    appends the upsell message and nothing else, does not call
    sendMessage, keeps the input text, stores the reported quota and
    leaves the input control enabled. *)
Theorem handleSubmit_without_quota env render (w : Chat.World) n :
  ~ JsString.WhiteSpaceOnly (Chat.userInput render) ->
  quota_reply env render = Some n ->
  (n <= 0)%Z ->
  let o := Chat.handleSubmit env render w in
  completion o = Returned tt
  /\ List.filter is_send (trace o) = []
  /\ Chat.messages (Chat.ui (final o))
     = Chat.messages (Chat.ui w) ++ [Chat.upsell_message]
  /\ Chat.userInput (Chat.ui (final o)) = Chat.userInput (Chat.ui w)
  /\ Chat.tokens (Chat.ui (final o)) = n
  /\ Chat.inputDisabled (Chat.ui (final o)) = false.
Proof.
  intros Hinput Hquota Hneg o. subst o. apply trim_truthy in Hinput.
  revert Hquota. unfold quota_reply.
  submit_cases env render Hinput; cbn [fmap option_fmap option_map];
    intros Hquota; try discriminate; injection Hquota as ->.
  - pose proof (Zgt_cases n 0) as Hcases. rewrite Hpositive in Hcases. lia.
  - by repeat split.
Qed.

Lemma handleSubmit_without_quota_witness :
  let o := Chat.handleSubmit overdrawn_env sample_state sample_world in
  completion o = Returned tt
  /\ List.filter is_send (trace o) = []
  /\ Chat.messages (Chat.ui (final o))
     = Chat.messages (Chat.ui sample_world) ++ [Chat.upsell_message]
  /\ Chat.userInput (Chat.ui (final o)) = Chat.userInput (Chat.ui sample_world)
  /\ Chat.tokens (Chat.ui (final o)) = (-3)%Z
  /\ Chat.inputDisabled (Chat.ui (final o)) = false.
Proof.
  apply (handleSubmit_without_quota overdrawn_env sample_state sample_world
           (-3)%Z).
  - exact sample_input_not_blank.
  - reflexivity.
  - discriminate.
Defined.

(** X17. A submit never calls sendMessage unless the quota endpoint
    reported a positive quota for it, and then with the input as typed,
    which is not only white space. *)
Theorem handleSubmit_sends_only_with_quota env render (w : Chat.World) text :
  Chat.CallSendMessage text ∈ trace (Chat.handleSubmit env render w) ->
  text = Chat.userInput render
  /\ ~ JsString.WhiteSpaceOnly (Chat.userInput render)
  /\ exists n, quota_reply env render = Some n /\ (0 < n)%Z.
Proof.
  intros Hsend.
  assert (Hinput : ~ JsString.WhiteSpaceOnly (Chat.userInput render)).
  { intros Hblank. rewrite (handleSubmit_guard_blank env render w Hblank)
      in Hsend.
    apply list_elem_of_In in Hsend. cbn in Hsend. intuition discriminate. }
  assert (Htruthy := trim_truthy _ Hinput).
  revert Hsend. unfold quota_reply.
  submit_cases env render Htruthy; intros Hsend;
    apply list_elem_of_In in Hsend; cbn [In] in Hsend;
    repeat match goal with
           | H : _ \/ _ |- _ => destruct H as [H|H]
           | H : False |- _ => destruct H
           | H : _ = Chat.CallSendMessage _ |- _ =>
               first [ discriminate H | injection H as <- ]
           end.
  split; [reflexivity|]. split; [exact Hinput|].
  exists quota. split; [reflexivity|].
  pose proof (Zgt_cases quota 0) as Hcases. rewrite Hpositive in Hcases. lia.
Qed.

Lemma handleSubmit_sends_only_with_quota_witness :
  Chat.userInput sample_state = Chat.userInput sample_state
  /\ ~ JsString.WhiteSpaceOnly (Chat.userInput sample_state)
  /\ exists n, quota_reply granting_env sample_state = Some n /\ (0 < n)%Z.
Proof.
  apply (handleSubmit_sends_only_with_quota granting_env sample_state
           sample_world (Chat.userInput sample_state)).
  apply list_elem_of_In. vm_compute. tauto.
Defined.

(** ** Selecting a thread in the sidebar *)

Lemma onThreadClick_dispatch threadId (w : Chat.World) :
  Chat.onThreadClick threadId w
  = Chat.dispatch (Chat.switchThread (Chat.ui w) threadId) w.
Proof.
  exact (bind_get
           (fun w0 => Chat.dispatch (Chat.switchThread (Chat.ui w0) threadId))
           w).
Qed.
(** X18. A click on a thread id that no thread of the list has changes
    nothing: the display, the selection, the thread list and local storage
    stay as they were, and the only effect is the console error. *)
Theorem thread_click_unknown_id threadId (w : Chat.World) :
  Chat.changed w = Chat.unchanged ->
  find_thread threadId (Chat.threads (Chat.ui w)) = None ->
  Chat.onThreadClick threadId w
  = mkOutcome (Returned tt) w
      [Chat.ConsoleError "Thread not found in local state"].
Proof.
  intros Hclean Hfind. rewrite onThreadClick_dispatch.
  destruct w as [s l d]. cbn [Chat.changed Chat.ui] in *. subst d.
  unfold Chat.dispatch, Chat.switchThread. cbn [Chat.ui]. rewrite Hfind.
  reflexivity.
Qed.

Lemma thread_click_unknown_id_witness :
  Chat.onThreadClick "T9" sample_world
  = mkOutcome (Returned tt) sample_world
      [Chat.ConsoleError "Thread not found in local state"].
Proof.
  apply (thread_click_unknown_id "T9" sample_world); reflexivity.
Defined.

(** X19. For a signed-in user, a click on a thread of the list selects
    it, displays its messages, and leaves local storage agreeing with the
    screen: the stored selection is the thread's id and the stored
    current messages are the thread's messages.  The thread list is not
    touched, neither in the state nor in local storage. *)
Theorem thread_click_persists_selection threadId thread (w : Chat.World) :
  Chat.changed w = Chat.unchanged ->
  JsString.truthy (Chat.userToken (Chat.ui w)) = true ->
  find_thread threadId (Chat.threads (Chat.ui w)) = Some thread ->
  let o := Chat.onThreadClick threadId w in
  let token := Chat.userToken (Chat.ui w) in
  completion o = Returned tt
  /\ Chat.currentThreadId (Chat.ui (final o)) = threadId
  /\ Chat.messages (Chat.ui (final o)) = Thread.messages thread
  /\ Chat.current_thread_id (Chat.localStorage (final o)) !! token
     = Some threadId
  /\ Chat.current_thread_messages (Chat.localStorage (final o)) !! token
     = Some (Thread.messages thread)
  /\ Chat.threads (Chat.ui (final o)) = Chat.threads (Chat.ui w)
  /\ Chat.chat_threads (Chat.localStorage (final o))
     = Chat.chat_threads (Chat.localStorage w).
Proof.
  intros Hclean Htoken Hfind o token. subst o token.
  rewrite onThreadClick_dispatch.
  destruct w as [s l d]. cbn [Chat.changed Chat.ui Chat.localStorage] in *.
  subst d.
  unfold Chat.dispatch, Chat.switchThread, Chat.setCurrentThreadId,
    Chat.setMessagesTo, Chat.commit, Chat.when.
  rewrite Hfind, Htoken. eff_unfold. cbv beta zeta.
  cbn [Chat.ui completion final trace].
  cbn -[insert lookup].
  repeat match goal with
         | |- context [if ?b then _ else _] =>
             destruct b eqn:?; cbn -[insert lookup]
         end;
    repeat split; rewrite ?lookup_insert_eq; try reflexivity;
    match goal with
    | H : String.eqb _ _ = true |- _ =>
        apply String.eqb_eq in H; by rewrite ?H
    end.
Qed.

Lemma thread_click_persists_selection_witness :
  let o := Chat.onThreadClick "T2" two_threads_world in
  let token := Chat.userToken (Chat.ui two_threads_world) in
  completion o = Returned tt
  /\ Chat.currentThreadId (Chat.ui (final o)) = "T2"
  /\ Chat.messages (Chat.ui (final o)) = Thread.messages other_thread
  /\ Chat.current_thread_id (Chat.localStorage (final o)) !! token
     = Some "T2"
  /\ Chat.current_thread_messages (Chat.localStorage (final o)) !! token
     = Some (Thread.messages other_thread)
  /\ Chat.threads (Chat.ui (final o)) = Chat.threads (Chat.ui two_threads_world)
  /\ Chat.chat_threads (Chat.localStorage (final o))
     = Chat.chat_threads (Chat.localStorage two_threads_world).
Proof.
  apply (thread_click_persists_selection "T2" other_thread two_threads_world);
    reflexivity.
Defined.

(** X20. While nobody is signed in (the user token is empty), a click on
    a thread writes nothing to local storage, whether the thread exists or
    not; a thread of the list is still selected and displayed. *)
Theorem thread_click_without_token threadId (w : Chat.World) :
  Chat.changed w = Chat.unchanged ->
  JsString.truthy (Chat.userToken (Chat.ui w)) = false ->
  let o := Chat.onThreadClick threadId w in
  completion o = Returned tt
  /\ Chat.localStorage (final o) = Chat.localStorage w
  /\ (forall thread,
        find_thread threadId (Chat.threads (Chat.ui w)) = Some thread ->
        Chat.currentThreadId (Chat.ui (final o)) = threadId
        /\ Chat.messages (Chat.ui (final o)) = Thread.messages thread).
Proof.
  intros Hclean Htoken o. subst o.
  rewrite onThreadClick_dispatch.
  destruct w as [s l d]. cbn [Chat.changed Chat.ui Chat.localStorage] in *.
  subst d.
  unfold Chat.dispatch, Chat.switchThread, Chat.setCurrentThreadId,
    Chat.setMessagesTo, Chat.commit, Chat.when.
  rewrite Htoken.
  destruct (find_thread threadId (Chat.threads s)) as [thread|] eqn:Hfind.
  - eff_unfold. cbv beta zeta. cbn -[insert lookup].
    repeat first
      [ progress (rewrite ?Htoken, ?andb_false_r; cbn -[insert lookup])
      | match goal with
        | |- context [if ?b then _ else _] =>
            destruct b eqn:?; cbn -[insert lookup]
        end ];
      (split; [reflexivity|]); (split; [reflexivity|]);
      intros ? [= <-]; (split; [|reflexivity]);
      first [ reflexivity | by apply String.eqb_eq ].
  - split; [reflexivity|]. split; [reflexivity|]. intros ? [=].
Qed.

Lemma thread_click_without_token_witness :
  let o := Chat.onThreadClick "T2" signed_out_world in
  completion o = Returned tt
  /\ Chat.localStorage (final o) = Chat.localStorage signed_out_world
  /\ (forall thread,
        find_thread "T2" (Chat.threads (Chat.ui signed_out_world))
        = Some thread ->
        Chat.currentThreadId (Chat.ui (final o)) = "T2"
        /\ Chat.messages (Chat.ui (final o)) = Thread.messages thread).
Proof.
  apply (thread_click_without_token "T2" signed_out_world); reflexivity.
Defined.

(** ** A new conversation *)

Lemma onNewChatClick_dispatch env (w : Chat.World) :
  NewThread.onNewChatClick env w
  = try_finally (NewThread.createNewThread env (Chat.ui w))
      (NewThread.lift Chat.commit) w.
Proof.
  exact (bind_get
           (fun w0 => try_finally (NewThread.createNewThread env (Chat.ui w0))
                        (NewThread.lift Chat.commit))
           w).
Qed.

(** X21. When the provider creates the thread, the New Chat button
    appends one thread to the list: it has the provider's id, the title
    New Chat and the welcome message as its only message and as its last
    text.  That thread is selected, the display shows the welcome message
    alone, the input is enabled, the thread list is in local storage under
    the user's token, and the synchroniser is called once, for the new
    thread.  Unless an older thread has the same id, the new thread starts
    in step with the display. *)
Theorem new_chat_appends_welcome_thread env data (w : Chat.World) :
  created env (Chat.ui w) = Some data ->
  let o := NewThread.onNewChatClick env w in
  let token := Chat.userToken (Chat.ui w) in
  let updatedThreads := Chat.threads (Chat.ui w) ++ [welcome_thread env data] in
  completion o = Returned tt
  /\ Chat.threads (Chat.ui (final o)) = updatedThreads
  /\ Chat.currentThreadId (Chat.ui (final o)) = NewThread.threadId data
  /\ Chat.messages (Chat.ui (final o)) = [NewThread.initialMessage env]
  /\ Chat.inputDisabled (Chat.ui (final o)) = false
  /\ Chat.chat_threads (Chat.localStorage (final o)) !! token
     = Some updatedThreads
  /\ List.filter is_sync_call (trace o)
     = [NewThread.Component
          (Chat.CallSyncThread (welcome_thread env data) token)]
  /\ (find_thread (NewThread.threadId data) (Chat.threads (Chat.ui w)) = None ->
      thread_mirrors_display (NewThread.threadId data) (final o)).
Proof.
  intros Hcreated o token updatedThreads. subst o token updatedThreads.
  rewrite onNewChatClick_dispatch. destruct w as [s l d].
  cbn [Chat.ui] in *. revert Hcreated.
  new_chat_cases env s; intros Hcreated; try discriminate.
  injection Hcreated as ->.
  assert (Hmirror : forall threads,
    find_thread (NewThread.threadId data) threads = None ->
    find_thread (NewThread.threadId data) (threads ++ [welcome_thread env data])
    = Some (welcome_thread env data)).
  { intros threads Hnone. unfold find_thread in *.
    induction threads as [|t threads IH]; cbn [app find] in *.
    - cbn [welcome_thread Thread.id]. by rewrite String.eqb_refl.
    - destruct (String.eqb (Thread.id t) (NewThread.threadId data));
        [discriminate | by apply IH]. }
  run_new_chat;
    (repeat split; rewrite ?lookup_insert_eq; try reflexivity;
     try (by apply String.eqb_eq));
    intros Hnone; exists (welcome_thread env data);
    cbn [Chat.ui Chat.threads Chat.messages];
    (split; [exact (Hmirror _ Hnone)|]); split; reflexivity.
Qed.

Lemma new_chat_appends_welcome_thread_witness :
  let o := NewThread.onNewChatClick provider_TN sample_world in
  let data := NewThread.mkCreated "TN" in
  let updatedThreads := [sample_thread; welcome_thread provider_TN data] in
  completion o = Returned tt
  /\ Chat.threads (Chat.ui (final o)) = updatedThreads
  /\ Chat.currentThreadId (Chat.ui (final o)) = "TN"
  /\ Chat.messages (Chat.ui (final o)) = [NewThread.initialMessage provider_TN]
  /\ Chat.inputDisabled (Chat.ui (final o)) = false
  /\ Chat.chat_threads (Chat.localStorage (final o)) !! "token"
     = Some updatedThreads
  /\ List.filter is_sync_call (trace o)
     = [NewThread.Component
          (Chat.CallSyncThread (welcome_thread provider_TN data) "token")]
  /\ (find_thread "TN" [sample_thread] = None ->
      thread_mirrors_display "TN" (final o)).
Proof.
  apply (new_chat_appends_welcome_thread provider_TN (NewThread.mkCreated "TN")
           sample_world).
  reflexivity.
Defined.

(** X22. When no thread was created (nobody is signed in, the request is
    rejected, the answer is not ok or its body does not parse), the New
    Chat button leaves the thread list, the display, the selection and
    local storage as they were and does not call the synchroniser.  A
    signed-in user gets the input enabled and the failure on the console;
    without a token nothing happens at all. *)
Theorem new_chat_without_thread env (w : Chat.World) :
  Chat.changed w = Chat.unchanged ->
  created env (Chat.ui w) = None ->
  let o := NewThread.onNewChatClick env w in
  completion o = Returned tt
  /\ Chat.threads (Chat.ui (final o)) = Chat.threads (Chat.ui w)
  /\ Chat.messages (Chat.ui (final o)) = Chat.messages (Chat.ui w)
  /\ Chat.currentThreadId (Chat.ui (final o)) = Chat.currentThreadId (Chat.ui w)
  /\ Chat.localStorage (final o) = Chat.localStorage w
  /\ List.filter is_sync_call (trace o) = []
  /\ (JsString.truthy (Chat.userToken (Chat.ui w)) = true ->
      Chat.inputDisabled (Chat.ui (final o)) = false
      /\ NewThread.Component (Chat.ConsoleError "Error creating new thread:")
         ∈ trace o)
  /\ (JsString.truthy (Chat.userToken (Chat.ui w)) = false ->
      final o = w /\ trace o = []).
Proof.
  intros Hclean Hcreated o. subst o.
  rewrite onNewChatClick_dispatch. destruct w as [s l d].
  cbn [Chat.ui Chat.changed Chat.localStorage] in *. subst d.
  revert Hcreated.
  new_chat_cases env s; intros Hcreated; try discriminate;
    run_new_chat;
    repeat split; try reflexivity; try discriminate;
    apply list_elem_of_In; cbn [In];
    repeat first [ left; reflexivity | right ].
Qed.

Lemma new_chat_without_thread_witness :
  let o := NewThread.onNewChatClick provider_down sample_world in
  completion o = Returned tt
  /\ Chat.threads (Chat.ui (final o)) = Chat.threads (Chat.ui sample_world)
  /\ Chat.messages (Chat.ui (final o)) = Chat.messages (Chat.ui sample_world)
  /\ Chat.currentThreadId (Chat.ui (final o))
     = Chat.currentThreadId (Chat.ui sample_world)
  /\ Chat.localStorage (final o) = Chat.localStorage sample_world
  /\ List.filter is_sync_call (trace o) = []
  /\ (JsString.truthy (Chat.userToken (Chat.ui sample_world)) = true ->
      Chat.inputDisabled (Chat.ui (final o)) = false
      /\ NewThread.Component (Chat.ConsoleError "Error creating new thread:")
         ∈ trace o)
  /\ (JsString.truthy (Chat.userToken (Chat.ui sample_world)) = false ->
      final o = sample_world /\ trace o = []).
Proof.
  apply (new_chat_without_thread provider_down sample_world); reflexivity.
Defined.

(** ** The page's tool handler *)

(** X23. The page's tool handler never rejects.  It resolves to a string
    only for a find_content call made while a token is present and
    answered by a successful GET, and then to the serialised body, which
    is also what the weather widget is given; in every other case it
    resolves to undefined and the widget's data stay as they were. *)
Theorem page_handler_resolves page token call (s : Page.State) :
  let o := Page.functionCallHandler page token call s in
  exists result,
    completion o = Returned result
    /\ (forall out, result = Some out ->
          Page.truthy token = true
          /\ ToolCall.name call = "find_content"
          /\ exists data,
               got page token data
               /\ out = Page.JSON_stringify page data
               /\ Page.weatherData (final o) = data)
    /\ (result = None -> Page.weatherData (final o) = Page.weatherData s).
Proof.
  cbv zeta. page_cases page token call;
    eexists; (split; [reflexivity|]);
    (split; [intros out Hout; try discriminate | intros Hnone; try discriminate;
             try reflexivity]).
  all: injection Hout as <-.
  all: split; [reflexivity|]; split; [by apply String.eqb_eq|].
  all: exists data; split; [|by split].
  all: eexists url, _; split; [exact Hfetch|]; by split.
Qed.

Lemma page_handler_state_irrelevant page token call (s s' : Page.State) :
  completion (Page.functionCallHandler page token call s)
  = completion (Page.functionCallHandler page token call s').
Proof. page_cases page token call; reflexivity. Qed.

Lemma page_handler_returns page token call (s : Page.State) :
  exists result,
    completion (Page.functionCallHandler page token call s) = Returned result
    /\ (Page.truthy token = false -> result = None)
    /\ (ToolCall.name call <> "find_content" -> result = None).
Proof.
  page_cases page token call; eexists; (split; [reflexivity|]);
    (split; [intros; first [reflexivity | discriminate]|]);
    intros Hother; try reflexivity;
    apply String.eqb_eq in Hname; contradiction.
Qed.

(** X24. With the page's handler, a requires-action event always gets
    its batch submitted: whatever the tool calls are and however the
    site answers, exactly one POST of action results is made, with one
    output per tool call in the batch's order; the output is undefined
    for every call when the page has no token, and for every call whose
    function is not find_content. *)
Theorem page_batch_always_submitted
    page token (s : Page.State) env render event (w : Chat.World) :
  handler_of_page page token s env ->
  let o := Chat.handleRequiresAction env render event w in
  exists outputs,
    List.filter is_post_actions (trace o)
    = [Chat.PostActions (Chat.currentThreadId render) (data_id event) outputs]
    /\ map tool_call_id outputs = map ToolCall.id (tool_calls event)
    /\ Forall2 (fun call out =>
                  (Page.truthy token = false
                   \/ ToolCall.name call <> "find_content") ->
                  output out = None)
         (tool_calls event) outputs.
Proof.
  intros Hpage o. subst o.
  assert (Hall : forall toolCall, toolCall ∈ tool_calls event ->
    exists result, Chat.functionCallHandler env toolCall = Returned result).
  { intros call _. rewrite (Hpage call).
    destruct (page_handler_returns page token call s) as (result & Hr & _).
    by exists result. }
  destruct (promise_all_resolves env (tool_calls event) Hall)
    as (outputs & Hall' & Hout).
  exists outputs. split; [|split].
  - unfold Chat.handleRequiresAction. unfold bind at 1.
    rewrite for_each_emit. cbn [completion final trace]. rewrite Hall'.
    unfold Chat.submitActionResult, Chat.setInputDisabled. eff_unfold.
    assert (Hcalls : forall l,
      List.filter is_post_actions (map Chat.CallFunctionHandler l) = []).
    { intros l. induction l as [|c l IH]; [reflexivity | exact IH]. }
    destruct (Chat.POST_actions env _ _ _) as [[[] ?]|];
      cbn [completion final trace negb Http.ok];
      rewrite List.filter_app, Hcalls; reflexivity.
  - clear Hall Hall'. revert Hout. generalize (tool_calls event).
    intros calls Hout.
    induction Hout as [|call out calls outs [_ Hid] _ IH]; [reflexivity|].
    cbn [map]. by rewrite Hid, IH.
  - clear Hall Hall'. revert Hout. generalize (tool_calls event).
    intros calls Hout.
    induction Hout as [|call out calls outs [Hres _] _ IH];
      constructor; [|exact IH].
    intros Hundefined. rewrite (Hpage call) in Hres.
    destruct (page_handler_returns page token call s) as (result & Hr & Hno & Hother).
    rewrite Hr in Hres. injection Hres as <-.
    destruct Hundefined; [by apply Hno | by apply Hother].
Qed.

Lemma page_batch_always_submitted_witness :
  let o := Chat.handleRequiresAction (page_chat_env (Some "token"))
             sample_state sample_batch sample_world in
  exists outputs,
    List.filter is_post_actions (trace o)
    = [Chat.PostActions (Chat.currentThreadId sample_state)
         (data_id sample_batch) outputs]
    /\ map tool_call_id outputs = map ToolCall.id (tool_calls sample_batch)
    /\ Forall2 (fun call out =>
                  (Page.truthy (Some "token") = false
                   \/ ToolCall.name call <> "find_content") ->
                  output out = None)
         (tool_calls sample_batch) outputs.
Proof.
  apply (page_batch_always_submitted sample_page (Some "token")
           sample_page_state (page_chat_env (Some "token")) sample_state
           sample_batch sample_world).
  intros call. reflexivity.
Defined.

(** ** Token usage *)

Lemma transform_outcome decode JSON_parse chunk window :
  Transform.transform decode JSON_parse chunk window
  = mkOutcome (Returned tt)
      (match chunk_usage decode JSON_parse chunk with
       | Some completion_tokens => Some completion_tokens
       | None => window
       end)
      [Transform.Enqueue chunk].
Proof.
  unfold Transform.transform, chunk_usage, reported_usage.
  destruct (JSON_parse (decode chunk)) as [[| | | | | |fields]|];
    try reflexivity.
  cbn [Transform.prop].
  generalize (Transform.lookup_field "event" fields).
  generalize (Transform.lookup_field "data" fields).
  intros step event. cbv [try_catch bind ret emit].
  destruct (Transform.is_string event _); [|reflexivity].
  destruct step as [| | | | | |step]; try reflexivity.
  cbn [Transform.prop Transform.optional_prop].
  generalize (Transform.lookup_field "type" step).
  generalize (Transform.lookup_field "usage" step).
  intros usage type. cbv [ret].
  destruct (Transform.is_string type _); [|reflexivity].
  destruct usage as [| | | | | |usage]; try reflexivity.
  cbn [Transform.prop Transform.optional_prop].
  generalize (Transform.lookup_field "completion_tokens" usage).
  intros completion_tokens. cbv [ret modify].
  destruct (Transform.truthy completion_tokens); reflexivity.
Qed.

Lemma pipeThrough_outcome decode JSON_parse body window :
  Transform.pipeThrough decode JSON_parse body window
  = mkOutcome (Returned tt) (recorded decode JSON_parse body window)
      (map Transform.Enqueue body).
Proof.
  unfold Transform.pipeThrough, recorded.
  revert window. induction body as [|chunk body IH]; intros window;
    [reflexivity|].
  cbn [for_each fold_left map]. unfold bind.
  rewrite transform_outcome, IH. reflexivity.
Qed.

(** X25. Piping a body through the transform never fails and leaves in
    window.completionTokens the count of the last chunk that reports one
    (a completed message-creation step with a truthy
    usage.completion_tokens); a body in which no chunk reports a count
    leaves the variable as it was. *)
Theorem pipeThrough_records_last_usage decode JSON_parse body window :
  let o := Transform.pipeThrough decode JSON_parse body window in
  completion o = Returned tt
  /\ final o = recorded decode JSON_parse body window
  /\ (Forall (fun chunk => chunk_usage decode JSON_parse chunk = None) body ->
      final o = window)
  /\ (forall before chunk after completion_tokens,
        body = before ++ chunk :: after ->
        chunk_usage decode JSON_parse chunk = Some completion_tokens ->
        Forall (fun chunk => chunk_usage decode JSON_parse chunk = None) after ->
        final o = Some completion_tokens).
Proof.
  cbv zeta. rewrite pipeThrough_outcome. cbn [completion final].
  assert (Hsilent : forall l w,
    Forall (fun chunk => chunk_usage decode JSON_parse chunk = None) l ->
    recorded decode JSON_parse l w = w).
  { intros l. unfold recorded.
    induction l as [|c l IH]; intros w Hl; [reflexivity|].
    inversion Hl as [|? ? Hc Hrest]; subst. cbn [fold_left]. rewrite Hc.
    by apply IH. }
  split; [reflexivity|]. split; [reflexivity|]. split; [apply Hsilent|].
  intros before chunk after completion_tokens -> Hchunk Hafter.
  unfold recorded. rewrite fold_left_app. cbn [fold_left]. rewrite Hchunk.
  by apply Hsilent.
Qed.

(** ** The end of a stream *)

Lemma readToEnd_outcome decode JSON_parse env userToken body window :
  StreamEnd.readToEnd decode JSON_parse env userToken body window
  = match StreamEnd.onEnd env userToken
            (recorded decode JSON_parse body window) with
    | mkOutcome c s t =>
        mkOutcome c s
          (map StreamEnd.Transformed (map Transform.Enqueue body) ++ t)
    end.
Proof.
  unfold StreamEnd.readToEnd, StreamEnd.lift, bind.
  by rewrite pipeThrough_outcome.
Qed.

Lemma transformed_not_decrease (l : list Transform.Effect) (t : list StreamEnd.Effect) :
  List.filter is_decrease (map StreamEnd.Transformed l ++ t)
  = List.filter is_decrease t.
Proof. induction l as [|e l IH]; [reflexivity | exact IH]. Qed.

Lemma onEnd_number env userToken n :
  StreamEnd.onEnd env userToken (Some (Transform.Number n))
  = if (n >? 0)%Z then
      if decreased env userToken (Transform.Number n) then
        mkOutcome (Returned tt) None
          [StreamEnd.PostDecrease userToken (Transform.Number n)]
      else
        mkOutcome (Returned tt) (Some (Transform.Number n))
          [StreamEnd.PostDecrease userToken (Transform.Number n);
           StreamEnd.ConsoleError "Error updating tokens:"]
    else mkOutcome (Returned tt) (Some (Transform.Number n)) [].
Proof.
  unfold StreamEnd.onEnd, decreased. cbv [bind get].
  cbn [default from_option id StreamEnd.greater_than_zero].
  destruct (n >? 0)%Z; [|reflexivity].
  destruct (StreamEnd.POST_tokens_decrease env userToken (Transform.Number n))
    as [[[] [[]|]]|]; reflexivity.
Qed.

Lemma onEnd_nothing env userToken :
  StreamEnd.onEnd env userToken None = mkOutcome (Returned tt) None [].
Proof. reflexivity. Qed.

(** X26. When the count recorded at the end of a body is a positive
    number and the decrease request succeeds, reading the body to its end
    makes exactly one decrease request, for the user token and that
    count, and clears the record. *)
Theorem stream_end_charges_recorded_usage
    decode JSON_parse env userToken body window n :
  recorded decode JSON_parse body window = Some (Transform.Number n) ->
  (0 < n)%Z ->
  decreased env userToken (Transform.Number n) = true ->
  let o := StreamEnd.readToEnd decode JSON_parse env userToken body window in
  completion o = Returned tt
  /\ List.filter is_decrease (trace o)
     = [StreamEnd.PostDecrease userToken (Transform.Number n)]
  /\ final o = None.
Proof.
  intros Hrecorded Hpositive Hdecreased o. subst o.
  rewrite readToEnd_outcome, Hrecorded, onEnd_number, Hdecreased.
  apply Z.gtb_lt in Hpositive. rewrite Hpositive.
  cbn [completion final trace].
  rewrite transformed_not_decrease. by repeat split.
Qed.

Lemma stream_end_charges_recorded_usage_witness :
  let o := StreamEnd.readToEnd sample_decode sample_parse accepting_counter
             "token" usage_body None in
  completion o = Returned tt
  /\ List.filter is_decrease (trace o)
     = [StreamEnd.PostDecrease "token" (Transform.Number 42)]
  /\ final o = None.
Proof.
  apply (stream_end_charges_recorded_usage sample_decode sample_parse
           accepting_counter "token" usage_body None 42); reflexivity.
Defined.

(** X27. When the decrease request fails (rejected, not ok or an
    unparsable body), the error is logged and the record is kept: the
    next body read to its end, although it reports no count itself, makes
    the decrease request for the old count again. *)
Theorem stream_end_failed_decrease_is_repeated
    decode JSON_parse env userToken body next window n :
  recorded decode JSON_parse body window = Some (Transform.Number n) ->
  (0 < n)%Z ->
  decreased env userToken (Transform.Number n) = false ->
  Forall (fun chunk => chunk_usage decode JSON_parse chunk = None) next ->
  let o := StreamEnd.readToEnd decode JSON_parse env userToken body window in
  let o' := StreamEnd.readToEnd decode JSON_parse env userToken next (final o) in
  completion o = Returned tt
  /\ StreamEnd.ConsoleError "Error updating tokens:" ∈ trace o
  /\ final o = Some (Transform.Number n)
  /\ List.filter is_decrease (trace o')
     = [StreamEnd.PostDecrease userToken (Transform.Number n)].
Proof.
  intros Hrecorded Hpositive Hfailed Hnext o o'. subst o o'.
  apply Z.gtb_lt in Hpositive.
  assert (Hnext' :
    recorded decode JSON_parse next (Some (Transform.Number n))
    = Some (Transform.Number n)).
  { clear -Hnext. unfold recorded.
    induction Hnext as [|chunk next Hchunk _ IH]; [reflexivity|].
    cbn [fold_left]. by rewrite Hchunk. }
  rewrite !readToEnd_outcome, Hrecorded, onEnd_number, Hfailed, Hpositive.
  cbn [completion final trace].
  rewrite Hnext', onEnd_number, Hfailed, Hpositive. cbn [trace].
  rewrite transformed_not_decrease.
  split; [reflexivity|]. split; [|by split].
  apply elem_of_app. right. apply list_elem_of_In. cbn [In]. tauto.
Qed.

Lemma stream_end_failed_decrease_is_repeated_witness :
  let o := StreamEnd.readToEnd sample_decode sample_parse failing_counter
             "token" usage_body None in
  let o' := StreamEnd.readToEnd sample_decode sample_parse failing_counter
              "token" silent_body (final o) in
  completion o = Returned tt
  /\ StreamEnd.ConsoleError "Error updating tokens:" ∈ trace o
  /\ final o = Some (Transform.Number 42)
  /\ List.filter is_decrease (trace o')
     = [StreamEnd.PostDecrease "token" (Transform.Number 42)].
Proof.
  apply (stream_end_failed_decrease_is_repeated sample_decode sample_parse
           failing_counter "token" usage_body silent_body None 42);
    try reflexivity.
  repeat constructor.
Defined.

(** X28. When nothing is recorded at the end of a body (no chunk
    reported a count and none was left over), reading the body to its end
    only forwards the chunks: no decrease request is made and nothing is
    logged. *)
Theorem stream_end_without_usage
    decode JSON_parse env userToken body window :
  recorded decode JSON_parse body window = None ->
  let o := StreamEnd.readToEnd decode JSON_parse env userToken body window in
  completion o = Returned tt
  /\ trace o = map StreamEnd.Transformed (map Transform.Enqueue body)
  /\ final o = None.
Proof.
  intros Hrecorded o. subst o.
  rewrite readToEnd_outcome, Hrecorded, onEnd_nothing.
  by rewrite app_nil_r.
Qed.

Lemma stream_end_without_usage_witness :
  let o := StreamEnd.readToEnd sample_decode sample_parse accepting_counter
             "token" silent_body None in
  completion o = Returned tt
  /\ trace o = map StreamEnd.Transformed (map Transform.Enqueue silent_body)
  /\ final o = None.
Proof.
  apply (stream_end_without_usage sample_decode sample_parse
           accepting_counter "token" silent_body None).
  reflexivity.
Defined.

(** ** The history of a thread *)

Lemma insert_by_created_at_permutation m l :
  History.insert_by_created_at m l ≡ₚ m :: l.
Proof.
  induction l as [|x l IH]; [reflexivity|].
  cbn [History.insert_by_created_at].
  destruct (History.created_at m <=? History.created_at x)%Z; [reflexivity|].
  rewrite IH. apply Permutation_swap.
Qed.

Lemma sort_by_created_at_permutation l :
  History.sort_by_created_at l ≡ₚ l.
Proof.
  induction l as [|m l IH]; [reflexivity|].
  cbn [History.sort_by_created_at fold_right].
  rewrite insert_by_created_at_permutation.
  by apply Permutation_skip.
Qed.

Lemma insert_by_created_at_sorted m l :
  oldest_first l -> oldest_first (History.insert_by_created_at m l).
Proof.
  unfold oldest_first. induction 1 as [|x l Hsorted IH Hx].
  - repeat constructor.
  - cbn [History.insert_by_created_at].
    destruct (History.created_at m <=? History.created_at x)%Z eqn:Hle.
    + apply Z.leb_le in Hle. constructor; [by constructor|].
      constructor; [exact Hle|].
      eapply Forall_impl; [exact Hx|]. intros y Hy. cbn beta in *. lia.
    + apply Z.leb_gt in Hle. constructor; [exact IH|].
      apply (Permutation_Forall
               (symmetry (insert_by_created_at_permutation m l))).
      constructor; [lia | exact Hx].
Qed.

Lemma sort_by_created_at_sorted l :
  oldest_first (History.sort_by_created_at l).
Proof.
  induction l as [|m l IH]; [constructor|].
  by apply insert_by_created_at_sorted.
Qed.

Lemma format_with_content m :
  has_content m = true -> exists entry, History.format m = Returned entry.
Proof.
  unfold has_content, History.format, History.content_text.
  destruct (History.content m) as [[|part parts]|]; intros Hcontent;
    try discriminate; by eexists.
Qed.

Lemma map_format_with_content l :
  Forall (fun m => has_content m = true) l ->
  exists entries,
    History.map_format l = Returned entries
    /\ Forall2 (fun m entry => History.format m = Returned entry) l entries.
Proof.
  induction 1 as [|m l Hm _ (entries & Hentries & Hall)].
  - exists []. by split.
  - destruct (format_with_content m Hm) as [entry Hentry].
    exists (entry :: entries). cbn [History.map_format].
    rewrite Hentry, Hentries. split; [reflexivity | by constructor].
Qed.

Lemma map_format_without_content l :
  ~ Forall (fun m => has_content m = true) l ->
  exists error, History.map_format l = Threw error.
Proof.
  induction l as [|m l IH]; intros Hnot; [by destruct Hnot|].
  cbn [History.map_format].
  destruct (History.format m) as [entry|e] eqn:Hentry; [|by exists e].
  destruct IH as [e He].
  { intros Hall. apply Hnot. constructor; [|exact Hall].
    unfold History.format, History.content_text in Hentry.
    unfold has_content. by destruct (History.content m). }
  rewrite He. by exists e.
Qed.

Lemma fetchThreadMessages_listed env threadId userToken messages :
  listed env threadId = Some messages ->
  History.fetchThreadMessages env threadId userToken tt
  = match History.map_format (History.sort_by_created_at messages) with
    | Returned entries =>
        mkOutcome (Returned (Some entries)) tt [History.GetMessages threadId]
    | Threw e =>
        mkOutcome (Returned None) tt
          [History.GetMessages threadId;
           History.ConsoleError "Error fetching thread messages:"]
    end.
Proof.
  history_cases env threadId; intros Hlisted; try discriminate.
  injection Hlisted as <-.
  cbv [try_catch bind emit].
  by destruct (History.map_format _).
Qed.

(** Nothing listed: the request was rejected or not ok, the body did not
    parse, or the list was missing or empty. *)
Lemma fetchThreadMessages_unlisted env threadId userToken :
  listed env threadId = None ->
  completion (History.fetchThreadMessages env threadId userToken tt)
  = Returned None.
Proof.
  history_cases env threadId; intros Hlisted;
    first [discriminate | reflexivity].
Qed.

(** A listed message without content: the error is logged and no history
    is returned. *)
Lemma fetchThreadMessages_without_content env threadId userToken messages :
  listed env threadId = Some messages ->
  ~ Forall (fun m => has_content m = true) messages ->
  let o := History.fetchThreadMessages env threadId userToken tt in
  completion o = Returned None
  /\ History.ConsoleError "Error fetching thread messages:" ∈ trace o.
Proof.
  intros Hlisted Hnot o. subst o.
  rewrite (fetchThreadMessages_listed _ _ _ _ Hlisted).
  destruct (map_format_without_content
              (History.sort_by_created_at messages)) as [e He].
  { intros Hall. apply Hnot.
    by rewrite <- (sort_by_created_at_permutation messages). }
  rewrite He. split; [reflexivity|].
  apply list_elem_of_In. cbn [trace In]. tauto.
Qed.

Example history_broken :
  completion (History.fetchThreadMessages broken_history "T1" "token" tt)
  = Returned None.
Proof. reflexivity. Qed.

Example history_sample :
  completion (History.fetchThreadMessages sample_history "T1" "token" tt)
  = Returned (Some [Message.mk user "hi" None;
                    Message.mk assistant "Needs met" None;
                    Message.mk code "class A {}" None]).
Proof. reflexivity. Qed.

Lemma remove_citations_plain (s : string) :
  JsString.includes History.open_bracket s = false ->
  History.remove_citations 0 s = s.
Proof.
  induction s as [|c s IH]; [reflexivity|].
  intros Hplain. cbn [JsString.includes] in Hplain.
  cbn [History.remove_citations]. unfold History.citation.
  destruct (JsString.strip_prefix History.open_bracket (String c s));
    [discriminate|].
  by rewrite IH.
Qed.

Lemma history_formatted env threadId userToken messages :
  listed env threadId = Some messages ->
  Forall (fun m => has_content m = true) messages ->
  exists sorted entries,
    History.fetchThreadMessages env threadId userToken tt
    = mkOutcome (Returned (Some entries)) tt [History.GetMessages threadId]
    /\ sorted ≡ₚ messages
    /\ oldest_first sorted
    /\ Forall2 (fun m entry => History.format m = Returned entry)
         sorted entries.
Proof.
  intros Hlisted Hcontent.
  rewrite (fetchThreadMessages_listed _ _ _ _ Hlisted).
  destruct (map_format_with_content (History.sort_by_created_at messages))
    as (entries & Hentries & Hall).
  { by rewrite (sort_by_created_at_permutation messages). }
  rewrite Hentries. exists (History.sort_by_created_at messages), entries.
  split; [reflexivity|].
  split; [apply sort_by_created_at_permutation|].
  split; [apply sort_by_created_at_sorted | exact Hall].
Qed.

(** X29. When every message the provider lists for a thread has a
    content array, [fetchThreadMessages] resolves to one entry for each
    listed message, in the order of their creation times, oldest first,
    whatever order the provider listed them in; the request is its only
    effect. *)
Theorem history_is_chronological env threadId userToken messages :
  listed env threadId = Some messages ->
  Forall (fun m => has_content m = true) messages ->
  let o := History.fetchThreadMessages env threadId userToken tt in
  exists sorted entries,
    completion o = Returned (Some entries)
    /\ trace o = [History.GetMessages threadId]
    /\ sorted ≡ₚ messages
    /\ oldest_first sorted
    /\ Forall2 (fun m entry => History.format m = Returned entry)
         sorted entries.
Proof.
  intros Hlisted Hcontent o. subst o.
  destruct (history_formatted env threadId userToken messages Hlisted
              Hcontent) as (sorted & entries & -> & Hperm & Hsorted & Hall).
  by exists sorted, entries.
Qed.

Lemma history_is_chronological_witness :
  let o := History.fetchThreadMessages sample_history "T1" "token" tt in
  exists sorted entries,
    completion o = Returned (Some entries)
    /\ trace o = [History.GetMessages "T1"]
    /\ sorted ≡ₚ sample_listing
    /\ oldest_first sorted
    /\ Forall2 (fun m entry => History.format m = Returned entry)
         sorted entries.
Proof.
  apply (history_is_chronological sample_history "T1" "token" sample_listing).
  - reflexivity.
  - repeat constructor.
Defined.

(** X30. When every message the provider lists has a content array,
    each of them has its entry in the history, which has as many entries
    as there are listed messages: the entry is a user message exactly
    when the provider's role is user, only an assistant message can
    become a code message, and a text that holds no opening citation
    bracket is shown as the provider sent it. *)
Theorem history_entries env threadId userToken messages m :
  listed env threadId = Some messages ->
  Forall (fun m => has_content m = true) messages ->
  m ∈ messages ->
  exists entries entry,
    completion (History.fetchThreadMessages env threadId userToken tt)
    = Returned (Some entries)
    /\ length entries = length messages
    /\ entry ∈ entries
    /\ History.format m = Returned entry
    /\ (Message.role entry = user <-> History.role m = "user")
    /\ (History.role m <> "assistant" -> Message.role entry <> code)
    /\ (forall text,
          History.content_text m = Returned text ->
          JsString.includes History.open_bracket text = false ->
          Message.text entry = text).
Proof.
  intros Hlisted Hcontent Hm.
  destruct (history_formatted env threadId userToken messages Hlisted
              Hcontent) as (sorted & entries & -> & Hperm & _ & Hall).
  rewrite <- Hperm in Hm.
  apply list_elem_of_lookup in Hm as [i Hi].
  destruct (Forall2_lookup_l _ _ _ _ _ Hall Hi) as (entry & Hentry & Hformat).
  exists entries, entry. split; [reflexivity|].
  split.
  { rewrite <- (Forall2_length _ _ _ Hall). by apply Permutation_length. }
  split; [by eapply list_elem_of_lookup_2|].
  split; [exact Hformat|].
  unfold History.format in Hformat.
  destruct (History.content_text m) as [content|e]; [|discriminate].
  injection Hformat as <-. cbn [Message.role Message.text].
  split; [|split].
  - destruct (String.eqb (History.role m) "user") eqn:Huser.
    + apply String.eqb_eq in Huser. by split.
    + apply String.eqb_neq in Huser.
      destruct (String.eqb (History.role m) "assistant");
        [destruct (_ || _ || _)|]; split; intros;
        first [discriminate | contradiction].
  - intros Hother.
    destruct (String.eqb (History.role m) "user"); [discriminate|].
    destruct (String.eqb (History.role m) "assistant") eqn:Hassistant;
      [|discriminate].
    apply String.eqb_eq in Hassistant. contradiction.
  - intros text [= <-]. apply remove_citations_plain.
Qed.

Lemma history_entries_witness :
  exists entries entry,
    completion (History.fetchThreadMessages sample_history "T1" "token" tt)
    = Returned (Some entries)
    /\ length entries = 3
    /\ entry ∈ entries
    /\ History.format (provider_message 10 "user" "hi") = Returned entry
    /\ (Message.role entry = user <-> "user" = "user")
    /\ ("user" <> "assistant" -> Message.role entry <> code)
    /\ (forall text,
          History.content_text (provider_message 10 "user" "hi")
          = Returned text ->
          JsString.includes History.open_bracket text = false ->
          Message.text entry = text).
Proof.
  apply (history_entries sample_history "T1" "token" sample_listing
           (provider_message 10 "user" "hi")).
  - reflexivity.
  - repeat constructor.
  - apply list_elem_of_In. cbn [In sample_listing]. tauto.
Defined.
